(** * function-proxy: a shallow embedding of [function_app.py]

    The development follows the source file top to bottom: the allowlist
    ([compile_patterns], [is_allowed]), then the two forwarding handlers
    ([proxy_function], [odata_proxy_function]).  The library functions the
    source calls ([re], [urllib.parse], [json], [requests]) are modelled next
    to their first use, each with a note on what is covered.

    Text.  A Python [str] is a Rocq [string], and a character is a code
    point below 256: the statements are about text of that alphabet.
    [str.lower] is Python's on it; [str.upper] is Python's but for the two
    code points (181 and 255) whose capital lies outside the alphabet.

    Four decisions of the libraries rest on tables or on releases that are
    no part of the source: the comparison of characters under
    [re.IGNORECASE], the check of the square brackets of an authority, the
    NFKC check of a non-ASCII authority, and the headers that
    [func.HttpResponse] refuses.  They are gathered in a [Library] that the
    definitions take as an argument, so the statements hold whatever these
    decide. *)

From Stdlib Require Import Strings.String Strings.Ascii.
From Stdlib Require Import List Bool Arith Lia.
Import ListNotations.
Open Scope char_scope.
Open Scope string_scope.

Set Implicit Arguments.

(** ** Characters and strings *)

Module Text.

Definition code (c : ascii) : nat := nat_of_ascii c.

Definition in_range (lo hi : nat) (c : ascii) : bool :=
  (lo <=? code c)%nat && (code c <=? hi)%nat.

Definition is_upper (c : ascii) : bool := in_range 65 90 c.
Definition is_lower (c : ascii) : bool := in_range 97 122 c.
Definition is_digit (c : ascii) : bool := in_range 48 57 c.
Definition is_alpha (c : ascii) : bool := is_upper c || is_lower c.
Definition is_alnum (c : ascii) : bool := is_alpha c || is_digit c.

Definition is_ascii (c : ascii) : bool := (code c <? 128)%nat.

(** the capital letters from 192 to 222, the small ones from 224 to 254;
    215 and 247 are the multiplication and division signs *)
Definition is_upper_latin1 (c : ascii) : bool :=
  in_range 192 222 c && negb (code c =? 215)%nat.
Definition is_lower_latin1 (c : ascii) : bool :=
  in_range 224 254 c && negb (code c =? 247)%nat.

Definition lower_char (c : ascii) : ascii :=
  if is_upper c || is_upper_latin1 c then ascii_of_nat (code c + 32) else c.

(** the sharp s (223) has a capital of two letters *)
Definition upper_char (c : ascii) : string :=
  if (code c =? 223)%nat then "SS"
  else if is_lower c || is_lower_latin1 c
       then String (ascii_of_nat (code c - 32)) EmptyString
       else String c EmptyString.

Fixpoint map_string (f : ascii -> ascii) (s : string) : string :=
  match s with
  | EmptyString => EmptyString
  | String c r => String (f c) (map_string f r)
  end.

(** [s.lower()], [s.upper()] *)
Definition lower : string -> string := map_string lower_char.

Fixpoint upper (s : string) : string :=
  match s with
  | EmptyString => EmptyString
  | String c r => upper_char c ++ upper r
  end.

(** [s.startswith(p)] *)
Definition startswith (s p : string) : bool := String.prefix p s.

(** [c in s] for a one-character [c] *)
Fixpoint contains (c : ascii) (s : string) : bool :=
  match s with
  | EmptyString => false
  | String a r => (a =? c)%char || contains c r
  end.

Fixpoint forall_chars (p : ascii -> bool) (s : string) : bool :=
  match s with
  | EmptyString => true
  | String a r => p a && forall_chars p r
  end.

(** [s.isascii()] *)
Definition isascii (s : string) : bool := forall_chars is_ascii s.

(** [s.split(c)[0]], which is also [s.partition(c)[0]]: the text before the
    first [c], all of [s] when there is none. *)
Fixpoint before (c : ascii) (s : string) : string :=
  match s with
  | EmptyString => EmptyString
  | String a r => if (a =? c)%char then EmptyString else String a (before c r)
  end.

(** [s.partition(c)[2]]: the text after the first [c], empty when there is
    none. *)
Fixpoint after (c : ascii) (s : string) : string :=
  match s with
  | EmptyString => EmptyString
  | String a r => if (a =? c)%char then r else after c r
  end.

(** the longest prefix free of the characters [p], and what follows it *)
Fixpoint take_until (p : ascii -> bool) (s : string) : string :=
  match s with
  | EmptyString => EmptyString
  | String a r => if p a then EmptyString else String a (take_until p r)
  end.

Fixpoint drop_until (p : ascii -> bool) (s : string) : string :=
  match s with
  | EmptyString => EmptyString
  | String a r => if p a then s else drop_until p r
  end.

(** [s[n:]] *)
Fixpoint drop (n : nat) (s : string) : string :=
  match n, s with
  | S k, String _ r => drop k r
  | _, _ => s
  end.

(** [s.lstrip(chars)] *)
Fixpoint lstrip (p : ascii -> bool) (s : string) : string :=
  match s with
  | EmptyString => EmptyString
  | String a r => if p a then lstrip p r else s
  end.

(** every occurrence of a character of [p] deleted: the chain of
    [s.replace(b, "")] over one-character [b] *)
Fixpoint remove_chars (p : ascii -> bool) (s : string) : string :=
  match s with
  | EmptyString => EmptyString
  | String a r => if p a then remove_chars p r else String a (remove_chars p r)
  end.

(** [sep.join(parts)] *)
Fixpoint join (sep : string) (parts : list string) : string :=
  match parts with
  | [] => EmptyString
  | [x] => x
  | x :: rest => x ++ sep ++ join sep rest
  end.

(** [s.split(sep)] for a one-character separator *)
Fixpoint split (sep : ascii) (s : string) : list string :=
  match s with
  | EmptyString => [EmptyString]
  | String a r =>
      if (a =? sep)%char then EmptyString :: split sep r
      else match split sep r with
           | h :: t => String a h :: t
           | [] => [String a EmptyString]
           end
  end.

(** [s.replace(old, new)] for a non-empty [old]: occurrences of [old] are
    found left to right and do not overlap.  [skip] counts the characters
    of a matched occurrence that are still to be passed over. *)
Fixpoint replace_from (skip : nat) (old new s : string) : string :=
  match s with
  | EmptyString => EmptyString
  | String a r =>
      match skip with
      | S k => replace_from k old new r
      | O =>
          if String.prefix old s
          then new ++ replace_from (String.length old - 1) old new r
          else String a (replace_from 0 old new r)
      end
  end.

Definition replace (old new s : string) : string := replace_from 0 old new s.

Definition LF : ascii := "010".
Definition CR : ascii := "013".
Definition TAB : ascii := "009".
Definition BACKSLASH : ascii := "092".
Definition DQUOTE : ascii := "034".

End Text.

(** ** The fragment of [re] that [compile_patterns] uses *)

Module Re.
Import Text.

(** [re.escape]'s table: the characters of
    [b'()[]{}?*+-|^$\\.&~# \t\n\r\v\f'] get a backslash. *)
Definition special_codes : list nat :=
  [40; 41; 91; 93; 123; 125; 63; 42; 43; 45; 124; 94; 36; 92; 46; 38; 126; 35;
   32; 9; 10; 13; 11; 12].

Definition is_special (c : ascii) : bool :=
  existsb (Nat.eqb (code c)) special_codes.

Definition escape_char (c : ascii) : string :=
  if is_special c then String BACKSLASH (String c EmptyString)
  else String c EmptyString.

(** [re.escape(pattern)] *)
Fixpoint escape (pattern : string) : string :=
  match pattern with
  | EmptyString => EmptyString
  | String c r => escape_char c ++ escape r
  end.

(** What one pattern character can be, and the nodes of a compiled pattern:
    the anchors, one character, or a starred character. *)
Inductive single : Type :=
  | Any
  | Char (c : ascii).

Inductive node : Type :=
  | Bol
  | Eol
  | One (a : single)
  | Star (a : single).

Record regex : Type := mkRegex {
  nodes : list node;
  ignorecase : bool
}.

(** metacharacters whose syntax is outside the fragment *)
Definition unsupported_meta (c : ascii) : bool :=
  existsb (Ascii.eqb c) ["+"; "?"; "{"; "["; "("; ")"; "|"]%char.

(** The pattern parser, reading left to right with the nodes read so far in
    reverse.  [None] stands for a pattern outside the fragment (or one that
    [re.compile] rejects). *)
Fixpoint parse (acc : list node) (s : string) : option (list node) :=
  match s with
  | EmptyString => Some (rev acc)
  | String c r =>
      if (c =? BACKSLASH)%char then
        match r with
        | EmptyString => None
        | String d r' =>
            if is_alnum d then None else parse (One (Char d) :: acc) r'
        end
      else if (c =? ".")%char then parse (One Any :: acc) r
      else if (c =? "*")%char then
        match acc with
        | One a :: acc' => parse (Star a :: acc') r
        | _ => None
        end
      else if (c =? "^")%char then parse (Bol :: acc) r
      else if (c =? "$")%char then parse (Eol :: acc) r
      else if unsupported_meta c then None
      else parse (One (Char c) :: acc) r
  end.

(** [re.compile(s, re.IGNORECASE)] when [ic] is set, [re.compile(s)]
    otherwise *)
Definition compile (s : string) (ic : bool) : option regex :=
  match parse [] s with
  | Some ns => Some (mkRegex ns ic)
  | None => None
  end.

(** [.] matches anything but a newline (no DOTALL); a literal [p] matches
    the characters that [same p] accepts: [p] alone without IGNORECASE, and
    under it the characters the engine takes for [p] in another case. *)
Definition single_matches (same : ascii -> ascii -> bool) (a : single)
  (c : ascii) : bool :=
  match a with
  | Any => negb (c =? LF)%char
  | Char p => same p c
  end.

(** [$] without MULTILINE: at the end of the text, or just before a newline
    that ends it. *)
Definition at_end (s : string) : bool :=
  match s with
  | EmptyString => true
  | String c EmptyString => (c =? LF)%char
  | _ => false
  end.

(** Whether the nodes match some prefix of the text; [start] tells whether
    the position is the beginning of the text ([^] without MULTILINE). *)
Fixpoint match_nodes (same : ascii -> ascii -> bool) (ns : list node)
  : bool -> string -> bool :=
  match ns with
  | [] => fun _ _ => true
  | n :: ns' =>
      let rest := match_nodes same ns' in
      match n with
      | Bol => fun start s => start && rest start s
      | Eol => fun start s => at_end s && rest start s
      | One a => fun _ s =>
          match s with
          | EmptyString => false
          | String c r => single_matches same a c && rest false r
          end
      | Star a =>
          fix star (start : bool) (s : string) : bool :=
            rest start s ||
            match s with
            | EmptyString => false
            | String c r => single_matches same a c && star false r
            end
      end
  end.

(** [regex.match(text)] as a truth value; [ignorecase_eq] is the
    comparison of a pattern character with a character of the text that
    IGNORECASE brings. *)
Definition re_match (ignorecase_eq : ascii -> ascii -> bool) (r : regex)
  (text : string) : bool :=
  match_nodes (if ignorecase r then ignorecase_eq else Ascii.eqb) (nodes r)
    true text.

(** The comparison on code points below 256: the engine lowers both
    characters; its table of further equivalents (dotless i, long s, the
    Kelvin sign and the like) pairs such a code point only with ones outside
    the alphabet. *)
Definition latin1_ignorecase_eq (p c : ascii) : bool :=
  (lower_char p =? lower_char c)%char.

End Re.

(** ** The allowlist *)

Definition ALLOWED_PATTERNS : list string :=
  [ "api.example.com";
    "services.odata.org";
    "jsonplaceholder.*";
    "*.trusted.com";
    "10.0.1.4";
    "localhost";
    "127.0.0.1";
    "*" ].

(** The body of the loop of [compile_patterns]: escape, turn each escaped
    star into [.*], anchor, compile case-insensitively. *)
Definition compile_pattern (pattern : string) : option Re.regex :=
  let regex_pattern :=
    Text.replace (String Text.BACKSLASH "*") ".*" (Re.escape pattern) in
  let regex_pattern := "^" ++ regex_pattern ++ "$" in
  Re.compile regex_pattern true.

Fixpoint compile_patterns (patterns : list string) : option (list Re.regex) :=
  match patterns with
  | [] => Some []
  | pattern :: rest =>
      match compile_pattern pattern, compile_patterns rest with
      | Some r, Some rs => Some (r :: rs)
      | _, _ => None
      end
  end.


(** ** Exceptions

    The handlers tell [requests.exceptions.RequestException] from every
    other exception; a [ValueError] of [urlparse] belongs to the second
    kind.  Each carries its [str(e)]. *)

Inductive exn : Type :=
  | RequestException (msg : string)
  | OtherException (msg : string).

Inductive result (A : Type) : Type :=
  | Ok (a : A)
  | Raise (e : exn).

Arguments Ok {A} a.
Arguments Raise {A} e.

Definition bind {A B : Type} (m : result A) (k : A -> result B) : result B :=
  match m with
  | Ok a => k a
  | Raise e => Raise e
  end.

Notation "x <- m ;; k" := (bind m (fun x => k))
  (at level 61, m at next level, right associativity).

(** ** What the libraries decide by their tables

    [bracket_error] is asked about an authority that has both square
    brackets and gives the message of the [ValueError] that [urlsplit]
    raises over them, if any: the IP literal is validated with the
    [ipaddress] module, and the releases differ on what may stand around
    the brackets.  [nfkc_error] is asked about a non-empty authority that
    is not ASCII and gives the message of the [ValueError] of
    [_checknetloc], raised when NFKC normalisation brings one of [/?#@:]
    into it.  [ignorecase_eq p c] tells whether the pattern character [p]
    matches the character [c] of the text under [re.IGNORECASE].
    [header_error key value] gives the message of the [ValueError] that
    [func.HttpResponse] raises on a header, if any: the releases that keep
    the headers of a response in werkzeug's [Headers] refuse a value with a
    line break. *)

Record Library : Type := mkLibrary {
  bracket_error : string -> option string;
  nfkc_error : string -> option string;
  ignorecase_eq : ascii -> ascii -> bool;
  header_error : string -> string -> option string
}.

(** ** [urllib.parse]

    [urlsplit] and [urlparse] as in CPython 3.11 and 3.12. *)

Module UrlParse.
Import Text.

Record ParseResult : Type := mkParseResult {
  scheme : string;
  netloc : string;
  path : string;
  params : string;
  query : string;
  fragment : string
}.

(** [_WHATWG_C0_CONTROL_OR_SPACE] *)
Definition c0_control_or_space (c : ascii) : bool := (code c <=? 32)%nat.

(** [_UNSAFE_URL_BYTES_TO_REMOVE] *)
Definition unsafe_url_byte (c : ascii) : bool :=
  (c =? TAB)%char || (c =? CR)%char || (c =? LF)%char.

(** [scheme_chars]: letters, digits and [+-.] *)
Definition scheme_char (c : ascii) : bool :=
  is_alnum c || (c =? "+")%char || (c =? "-")%char || (c =? ".")%char.

Definition netloc_delim (c : ascii) : bool :=
  (c =? "/")%char || (c =? "?")%char || (c =? "#")%char.

Definition first_is (p : ascii -> bool) (s : string) : bool :=
  match s with
  | EmptyString => false
  | String a _ => p a
  end.

(** the scheme, when the text before the first colon is one, and the rest *)
Definition split_scheme (url : string) : string * string :=
  if contains ":" url then
    let head := before ":" url in
    if first_is is_alpha head && forall_chars scheme_char head
    then (lower head, after ":" url)
    else (EmptyString, url)
  else (EmptyString, url).

(** [uses_params] *)
Definition uses_params : list string :=
  [ ""; "ftp"; "hdl"; "prospero"; "http"; "imap"; "https"; "shttp"; "rtsp";
    "rtspu"; "sip"; "sips"; "mms"; "sftp"; "tel" ].

(** up to and including the last [c], and what follows; no [c]: all of the
    text is what follows *)
Fixpoint rpartition (c : ascii) (s : string) : string * string :=
  match s with
  | EmptyString => (EmptyString, EmptyString)
  | String a r =>
      let (h, t) := rpartition c r in
      if contains c r then (String a h, t)
      else if (a =? c)%char then (String a EmptyString, r)
      else (EmptyString, String a t)
  end.

(** [_splitparams]: the parameters are cut from the last path segment *)
Definition splitparams (url : string) : string * string :=
  if contains "/" url then
    let (h, t) := rpartition "/" url in
    if contains ";" t then (h ++ before ";" t, after ";" t)
    else (url, EmptyString)
  else (before ";" url, after ";" url).

Section WithLibrary.

Variable lib : Library.

(** the checks on the square brackets of an authority *)
Definition check_brackets (netloc : string) : result unit :=
  let has_open := contains "[" netloc in
  let has_close := contains "]" netloc in
  if (has_open && negb has_close) || (has_close && negb has_open)
  then Raise (OtherException "Invalid IPv6 URL")
  else if has_open && has_close then
    match bracket_error lib netloc with
    | Some msg => Raise (OtherException msg)
    | None => Ok tt
    end
  else Ok tt.

(** [_checknetloc]: nothing to check on an empty or an ASCII authority *)
Definition checknetloc (netloc : string) : result unit :=
  if (String.length netloc =? 0)%nat || isascii netloc then Ok tt
  else match nfkc_error lib netloc with
       | Some msg => Raise (OtherException msg)
       | None => Ok tt
       end.

Definition urlsplit (url : string)
  : result (string * string * string * string * string) :=
  let url := lstrip c0_control_or_space url in
  let url := remove_chars unsafe_url_byte url in
  let (scheme, url) := split_scheme url in
  netloc_url <-
    (if startswith url "//" then
       let netloc := take_until netloc_delim (drop 2 url) in
       _ <- check_brackets netloc ;;
       Ok (netloc, drop_until netloc_delim (drop 2 url))
     else Ok (EmptyString, url)) ;;
  let (netloc, url) := (netloc_url : string * string) in
  let (url, fragment) :=
    if contains "#" url then (before "#" url, after "#" url)
    else (url, EmptyString) in
  let (url, query) :=
    if contains "?" url then (before "?" url, after "?" url)
    else (url, EmptyString) in
  _ <- checknetloc netloc ;;
  Ok (scheme, netloc, url, query, fragment).

Definition urlparse (url : string) : result ParseResult :=
  parts <- urlsplit url ;;
  let '(scheme, netloc, url, query, fragment) := parts in
  let (url, params) :=
    if existsb (String.eqb scheme) uses_params && contains ";" url
    then splitparams url
    else (url, EmptyString) in
  Ok (mkParseResult scheme netloc url params query fragment).

End WithLibrary.

End UrlParse.

(** ** [is_allowed] *)

Section Allowlist.

Variable lib : Library.
Variable REGEX_PATTERNS : list Re.regex.

(** lines 33 to 37: the text the patterns are tried on *)
Definition extract_domain (endpoint : string) : result string :=
  parsed <- UrlParse.urlparse lib endpoint ;;
  let domain :=
    if (String.length (UrlParse.netloc parsed) =? 0)%nat
    then Text.before "/" (UrlParse.path parsed)
    else UrlParse.netloc parsed in
  let domain :=
    if Text.contains ":" domain then Text.before ":" domain else domain in
  Ok domain.

Definition is_allowed (endpoint : string) : result bool :=
  domain <- extract_domain endpoint ;;
  Ok (existsb (fun regex => Re.re_match (ignorecase_eq lib) regex domain)
        REGEX_PATTERNS).

End Allowlist.

(** A library for the examples: no authority is refused, characters are
    compared as the engine compares code points below 256, and a header
    value with a line break is refused. *)
Definition has_line_break (value : string) : bool :=
  Text.contains Text.LF value || Text.contains Text.CR value.

Definition plain_library : Library :=
  mkLibrary (fun _ => None) (fun _ => None) Re.latin1_ignorecase_eq
    (fun _ value =>
       if has_line_break value
       then Some "Header values must not contain newline characters."
       else None).
Definition REGEX_PATTERNS : list Re.regex :=
  Eval vm_compute in
    match compile_patterns ALLOWED_PATTERNS with Some rs => rs | None => [] end.


(** ** [urllib.parse.urlencode] *)

Module UrlEncode.
Import Text.

Definition hex_digit_upper (n : nat) : ascii :=
  if (n <? 10)%nat then ascii_of_nat (48 + n) else ascii_of_nat (55 + n).

(** ['%{:02X}'.format(b)] *)
Definition percent (b : nat) : string :=
  String "%" (String (hex_digit_upper (b / 16))
                     (String (hex_digit_upper (b mod 16)) EmptyString)).

(** the UTF-8 bytes of a code point below 256 *)
Definition utf8 (c : ascii) : list nat :=
  if (code c <? 128)%nat then [code c]
  else [192 + code c / 64; 128 + code c mod 64]%nat.

(** [_ALWAYS_SAFE]: letters, digits and [_.-~] *)
Definition always_safe (c : ascii) : bool :=
  is_alnum c || (c =? "_")%char || (c =? ".")%char || (c =? "-")%char
  || (c =? "~")%char.

Definition quote_char (safe : string) (c : ascii) : string :=
  if always_safe c || contains c safe then String c EmptyString
  else String.concat EmptyString (map percent (utf8 c)).

(** [quote(s, safe)] *)
Fixpoint quote (safe : string) (s : string) : string :=
  match s with
  | EmptyString => EmptyString
  | String c r => quote_char safe c ++ quote safe r
  end.

(** [quote_plus(s)] *)
Definition quote_plus (s : string) : string :=
  if contains " " s then replace " " "+" (quote " " s)
  else quote EmptyString s.

(** [urlencode(query)] for a mapping of strings *)
Definition urlencode (query : list (string * string)) : string :=
  join "&" (map (fun kv => quote_plus (fst kv) ++ "=" ++ quote_plus (snd kv))
                query).

End UrlEncode.

(** ** [json.dumps] of the error object *)

Module Json.
Import Text.

Definition hex_digit_lower (n : nat) : ascii :=
  if (n <? 10)%nat then ascii_of_nat (48 + n) else ascii_of_nat (87 + n).

(** [py_encode_basestring_ascii] on one character: the short escapes, the
    [\u00xx] form for the rest outside the printable ASCII range. *)
Definition escape_char (c : ascii) : string :=
  if (c =? DQUOTE)%char then String BACKSLASH (String DQUOTE EmptyString)
  else if (c =? BACKSLASH)%char
  then String BACKSLASH (String BACKSLASH EmptyString)
  else if (c =? LF)%char then String BACKSLASH "n"
  else if (c =? CR)%char then String BACKSLASH "r"
  else if (c =? TAB)%char then String BACKSLASH "t"
  else if (code c =? 8)%nat then String BACKSLASH "b"
  else if (code c =? 12)%nat then String BACKSLASH "f"
  else if in_range 32 126 c then String c EmptyString
  else String BACKSLASH
         ("u00" ++ String (hex_digit_lower (code c / 16))
                     (String (hex_digit_lower (code c mod 16)) EmptyString)).

Fixpoint escape (s : string) : string :=
  match s with
  | EmptyString => EmptyString
  | String c r => escape_char c ++ escape r
  end.

Definition dumps_string (s : string) : string :=
  String DQUOTE (escape s ++ String DQUOTE EmptyString).

(** [json.dumps({key: value})] *)
Definition dumps_object1 (key value : string) : string :=
  "{" ++ dumps_string key ++ ": " ++ dumps_string value ++ "}".

End Json.

(** ** Mappings

    A [dict] keeps its items in insertion order and its keys distinct;
    assigning to a key that is there replaces the value in place. *)

Definition dict : Type := list (string * string).

Definition keys (d : dict) : list string := map fst d.

(** [d.get(k)] *)
Fixpoint dict_get (d : dict) (k : string) : option string :=
  match d with
  | [] => None
  | (k', v) :: r => if String.eqb k' k then Some v else dict_get r k
  end.

(** [d[k] = v] *)
Fixpoint dict_set (d : dict) (k v : string) : dict :=
  match d with
  | [] => [(k, v)]
  | (k', v') :: r =>
      if String.eqb k' k then (k', v) :: r else (k', v') :: dict_set r k v
  end.

(** [for k, v in items: if keep(k): d[k] = v] *)
Definition dict_update_if (keep : string -> bool) (d : dict)
    (items : list (string * string)) : dict :=
  fold_left (fun acc kv => if keep (fst kv) then dict_set acc (fst kv) (snd kv)
                           else acc)
            items d.

(** [mapping.get(k, default)] of a [CaseInsensitiveDict] *)
Fixpoint ci_get (d : dict) (k default : string) : string :=
  match d with
  | [] => default
  | (k', v) :: r =>
      if String.eqb (Text.lower k') (Text.lower k) then v
      else ci_get r k default
  end.

(** [x in [a, b, ...]] on strings *)
Definition mem (x : string) (l : list string) : bool :=
  existsb (String.eqb x) l.

(** ** Requests and responses *)

Inductive body_read : Type :=
  | BodyBytes (b : string)
  | BodyRaises (msg : string).

(** [func.HttpRequest], as far as the handlers read it.  [route_params] and
    [params] are mappings, [headers] is what [req.headers.items()] yields,
    [get_body] is the outcome of [req.get_body()].  [azure.functions] keeps
    the keys of [req.headers] in lower case; a statement that rests on it
    says so with [lower_cased]. *)
Record HttpRequest : Type := mkRequest {
  method : string;
  route_params : dict;
  params : dict;
  headers : dict;
  get_body : body_read
}.

Record HttpResponse : Type := mkResponse {
  body : string;
  status_code : nat;
  resp_headers : dict;
  mimetype : string
}.

(** the arguments of [requests.request] *)
Record OutboundCall : Type := mkCall {
  c_method : string;
  c_url : string;
  c_headers : dict;
  c_data : option string;
  c_timeout : nat;
  c_verify : bool
}.

(** [requests.Response], as far as the handlers read it *)
Record DownstreamResponse : Type := mkDownstream {
  content : string;
  r_status_code : nat;
  r_headers : dict
}.

(** [func.HttpResponse(body, status_code=..., headers=..., mimetype=...)]:
    the headers are stored item by item, and the first one that is refused
    raises. *)
Fixpoint refused_header (lib : Library) (headers : dict) : option string :=
  match headers with
  | [] => None
  | (key, value) :: rest =>
      match header_error lib key value with
      | Some msg => Some msg
      | None => refused_header lib rest
      end
  end.

Definition http_response (lib : Library) (body : string) (status : nat)
  (headers : dict) (mimetype : string) : result HttpResponse :=
  match refused_header lib headers with
  | Some msg => Raise (OtherException msg)
  | None => Ok (mkResponse body status headers mimetype)
  end.

(** [func.HttpResponse(json.dumps({"error": error_msg}), status_code=...,
    mimetype="application/json")], which has no headers to refuse *)
Definition error_response (status : nat) (error_msg : string) : HttpResponse :=
  mkResponse (Json.dumps_object1 "error" error_msg) status []
             "application/json".

Definition PROXY_SCHEME : string := "__proxy_scheme".

Definition hop_by_hop : list string :=
  ["host"; "connection"; "content-length"; "transfer-encoding"].

Definition odata_dropped : list string :=
  ["host"; "connection"; "content-length"; "transfer-encoding"; "accept";
   "content-type"].

Definition response_dropped : list string :=
  ["content-encoding"; "content-length"; "transfer-encoding"; "connection"].

Definition odata_defaults : dict :=
  [ ("Accept", "application/json;odata.metadata=minimal");
    ("Content-Type", "application/json");
    ("OData-Version", "4.0") ].

(** [if x:] on an optional string *)
Definition truthy (x : option string) : bool :=
  match x with
  | Some (String _ _) => true
  | _ => false
  end.

(** ** The handlers

    A handler is a function of the request; the downstream service is
    [requests_request], which answers each call with a response or an
    exception.  Besides its response a handler gives the list of calls it
    made.  The [logging] calls do not touch either and are left out. *)

Section Handlers.

Variable lib : Library.
Variable REGEX_PATTERNS : list Re.regex.
Variable requests_request : OutboundCall -> result DownstreamResponse.

Definition outcome : Type := (result HttpResponse * list OutboundCall)%type.

(** lines 62 to 76: the target, or the response of the invalid scheme *)
Definition resolve_target (endpoint : string) (scheme_override : option string)
  : string + HttpResponse :=
  if Text.startswith endpoint "http://" || Text.startswith endpoint "https://"
  then inl endpoint
  else
    match scheme_override with
    | Some (String _ _ as scheme_override) =>
        if mem (Text.lower scheme_override) ["http"; "https"]
        then inl (Text.lower scheme_override ++ "://" ++ endpoint)
        else
          let error_msg :=
            "Invalid scheme: " ++ scheme_override
            ++ ". Only 'http' and 'https' are allowed." in
          inr (error_response 400 error_msg)
    | _ => inl ("https://" ++ endpoint)
    end.

(** lines 164 to 167 *)
Definition odata_target (endpoint : string) : string :=
  if Text.startswith endpoint "http://" || Text.startswith endpoint "https://"
  then endpoint
  else "https://" ++ endpoint.

(** lines 90 to 92 and 179 to 181 *)
Definition merge_query (target_url : string) (query_params : dict) : string :=
  match query_params with
  | [] => target_url
  | _ :: _ =>
      let delimiter := if Text.contains "?" target_url then "&" else "?" in
      target_url ++ delimiter ++ UrlEncode.urlencode query_params
  end.

(** [req.get_body()] under [try]: a failure leaves [body] at [None] *)
Definition read_body (req : HttpRequest) : option string :=
  match get_body req with
  | BodyBytes b => Some b
  | BodyRaises _ => None
  end.

(** lines 121 to 132 and 213 to 223: building the response is still under
    [try] *)
Definition relay (response : DownstreamResponse) : result HttpResponse :=
  let response_headers :=
    dict_update_if (fun key => negb (mem (Text.lower key) response_dropped))
                   [] (r_headers response) in
  http_response lib (content response) (r_status_code response)
    response_headers
    (ci_get (r_headers response) "content-type" "application/json").

Definition send (call : OutboundCall) : outcome :=
  (response <- requests_request call ;; relay response, [call]).

(** the body of [try] in [proxy_function] *)
Definition proxy_try (req : HttpRequest) : outcome :=
  match dict_get (route_params req) "endpoint" with
  | Some (String _ _ as endpoint) =>
      let scheme_override := dict_get (params req) PROXY_SCHEME in
      match resolve_target endpoint scheme_override with
      | inr response => (Ok response, [])
      | inl target_url =>
          match is_allowed lib REGEX_PATTERNS target_url with
          | Raise e => (Raise e, [])
          | Ok false =>
              (Ok (error_response 403 ("Endpoint not allowed: " ++ target_url)),
               [])
          | Ok true =>
              let query_params :=
                dict_update_if (fun k => negb (String.eqb k PROXY_SCHEME))
                               [] (params req) in
              let target_url := merge_query target_url query_params in
              let method := Text.upper (method req) in
              let headers :=
                dict_update_if
                  (fun key => negb (mem (Text.lower key) hop_by_hop))
                  [] (headers req) in
              let body :=
                if mem method ["POST"; "PUT"; "PATCH"] then read_body req
                else None in
              send (mkCall method target_url headers body 30
                           (Text.startswith target_url "https://"))
          end
      end
  | _ => (Ok (error_response 400 "No endpoint specified"), [])
  end.

Definition proxy_function (req : HttpRequest)
  : HttpResponse * list OutboundCall :=
  match proxy_try req with
  | (Ok response, calls) => (response, calls)
  | (Raise (RequestException e), calls) =>
      (error_response 502 ("Request failed: " ++ e), calls)
  | (Raise (OtherException e), calls) =>
      (error_response 500 ("Internal server error: " ++ e), calls)
  end.

(** the body of [try] in [odata_proxy_function] *)
Definition odata_try (req : HttpRequest) : outcome :=
  match dict_get (route_params req) "endpoint" with
  | Some (String _ _ as endpoint) =>
      let target_url := odata_target endpoint in
      match is_allowed lib REGEX_PATTERNS target_url with
      | Raise e => (Raise e, [])
      | Ok false =>
          (Ok (error_response 403
                 ("OData endpoint not allowed: " ++ target_url)), [])
      | Ok true =>
          let query_params :=
            dict_update_if (fun _ => true) [] (params req) in
          let target_url := merge_query target_url query_params in
          let method := Text.upper (method req) in
          let headers :=
            dict_update_if
              (fun key => negb (mem (Text.lower key) odata_dropped))
              odata_defaults (headers req) in
          let body :=
            if String.eqb method "POST" then read_body req else None in
          send (mkCall method target_url headers body 30
                       (Text.startswith target_url "https://"))
      end
  | _ => (Ok (error_response 400 "No OData endpoint specified"), [])
  end.

Definition odata_proxy_function (req : HttpRequest)
  : HttpResponse * list OutboundCall :=
  match odata_try req with
  | (Ok response, calls) => (response, calls)
  | (Raise (RequestException e), calls) =>
      (error_response 502 ("OData request failed: " ++ e), calls)
  | (Raise (OtherException e), calls) =>
      (error_response 500 ("Unexpected error in OData proxy: " ++ e), calls)
  end.

End Handlers.

(** [health_check] *)
Definition health_check : HttpResponse :=
  mkResponse (Json.dumps_object1 "status" "healthy") 200 [] "application/json".


(** * [scripts/setup.py]

    The script works on the file system and on standard input.  A path is
    the list of its components; the file system maps a path to a directory
    or to a file with its text; standard input is the list of the lines
    still to be read.  Permissions, links and what [copy2] does to file
    times are outside the model, and so is what the script prints. *)

Module Setup.

Definition path : Type := list string.

Fixpoint path_eqb (p q : path) : bool :=
  match p, q with
  | [], [] => true
  | a :: p', b :: q' => String.eqb a b && path_eqb p' q'
  | _, _ => false
  end.

(** [p / name], [p.parent], [p.name] *)
Definition div (p : path) (name : string) : path := (p ++ [name])%list.
Definition parent (p : path) : path := removelast p.
Definition name (p : path) : string := last p EmptyString.

Inductive node : Type :=
  | Dir
  | File (text : string).

Definition filesystem : Type := path -> option node.

Inductive error : Type :=
  | FileExistsError
  | FileNotFoundError
  | NotADirectoryError
  | IsADirectoryError
  | EOFError.

Inductive outcome (A : Type) : Type :=
  | Done (a : A)
  | Failed (e : error).

Arguments Done {A} a.
Arguments Failed {A} e.

Definition put (fs : filesystem) (p : path) (n : node) : filesystem :=
  fun q => if path_eqb q p then Some n else fs q.

(** [p.exists()] *)
Definition exists_ (fs : filesystem) (p : path) : bool :=
  match fs p with
  | Some _ => true
  | None => false
  end.

Definition is_dir (fs : filesystem) (p : path) : bool :=
  match fs p with
  | Some Dir => true
  | _ => false
  end.

(** a new entry needs its parent to be a directory *)
Definition create (fs : filesystem) (p : path) (n : node)
  : outcome filesystem :=
  match fs (parent p) with
  | Some Dir => Done (put fs p n)
  | Some (File _) => Failed NotADirectoryError
  | None => Failed FileNotFoundError
  end.

(** [p.mkdir(exist_ok=True)] *)
Definition mkdir_exist_ok (fs : filesystem) (p : path) : outcome filesystem :=
  match fs p with
  | Some Dir => Done fs
  | Some (File _) => Failed FileExistsError
  | None => create fs p Dir
  end.

(** [open(p, 'w')] followed by writing [text]; also [p.write_text(text)] *)
Definition write (fs : filesystem) (p : path) (text : string)
  : outcome filesystem :=
  match fs p with
  | Some Dir => Failed IsADirectoryError
  | _ => create fs p (File text)
  end.

(** [shutil.copy2(src, dst)]: into [dst] when it is a directory *)
Definition copy2 (fs : filesystem) (src dst : path) : outcome filesystem :=
  let dst := if is_dir fs dst then div dst (name src) else dst in
  match fs src with
  | Some (File text) => write fs dst text
  | Some Dir => Failed IsADirectoryError
  | None => Failed FileNotFoundError
  end.

(** [str.isspace] on a code point below 256 *)
Definition is_space (c : ascii) : bool :=
  Text.in_range 9 13 c || Text.in_range 28 32 c
  || (Text.code c =? 133)%nat || (Text.code c =? 160)%nat.

Fixpoint rstrip (s : string) : string :=
  match s with
  | EmptyString => EmptyString
  | String a r =>
      match rstrip r with
      | EmptyString => if is_space a then EmptyString else String a EmptyString
      | r' => String a r'
      end
  end.

(** [s.strip()] *)
Definition strip (s : string) : string := rstrip (Text.lstrip is_space s).

Record world : Type := mkWorld {
  fs : filesystem;
  stdin : list string
}.

(** [input(prompt).strip()] *)
Definition input_stripped (w : world) : outcome (string * world) :=
  match stdin w with
  | line :: rest => Done (strip line, mkWorld (fs w) rest)
  | [] => Failed EOFError
  end.

Definition NL : string := String Text.LF EmptyString.

Definition secrets_readme : string :=
  Text.join NL [
    "# Secrets Folder";
    EmptyString;
    "This folder contains sensitive configuration files that should **NEVER** be committed to version control.";
    EmptyString;
    "## Files in this folder:";
    "- `local.settings.json` - Local development settings including Azure Storage connection strings, Application Insights keys, etc.";
    "- `profile.publishsettings` - Azure deployment credentials downloaded from the Azure Portal";
    EmptyString;
    "## Security Notes:";
    "- This entire folder is excluded from git via `.gitignore`";
    "- Never share these files or commit them to any repository";
    "- Regenerate credentials if they've been exposed";
    "- Use Azure Key Vault for production secrets";
    EmptyString;
    "## Setup Instructions:";
    "1. Download your publish profile from the Azure Portal";
    "2. Configure your `local.settings.json` with your development settings";
    "3. Place both files in this folder";
    EmptyString;
    "## Production Deployment:";
    "For production deployments, use:";
    "- Azure Key Vault for secrets management";
    "- Managed Identity for authentication";
    "- Application Settings in the Azure Portal instead of local.settings.json";
    EmptyString ].

Definition SECRETS : string := ".secrets".
Definition README : string := "README.md".
Definition LOCAL_SETTINGS : string := "local.settings.json".

(** [create_secrets_folder], for the project root the script finds itself
    in *)
Definition create_secrets_folder (project_root : path) (w : world)
  : outcome (path * world) :=
  let secrets_dir := div project_root SECRETS in
  match mkdir_exist_ok (fs w) secrets_dir with
  | Failed e => Failed e
  | Done fs1 =>
      let readme_path := div secrets_dir README in
      match write fs1 readme_path secrets_readme with
      | Failed e => Failed e
      | Done fs2 => Done (secrets_dir, mkWorld fs2 (stdin w))
      end
  end.

Definition default_storage : string :=
  "DefaultEndpointsProtocol=https;AccountName=YOUR_STORAGE_ACCOUNT;AccountKey=YOUR_STORAGE_KEY;EndpointSuffix=core.windows.net".

Definition default_insights : string :=
  "InstrumentationKey=YOUR_INSTRUMENTATION_KEY;IngestionEndpoint=https://YOUR_REGION.in.applicationinsights.azure.com/".

Definition storage_string (storage_account storage_key : string) : string :=
  "DefaultEndpointsProtocol=https;AccountName=" ++ storage_account
  ++ ";AccountKey=" ++ storage_key ++ ";EndpointSuffix=core.windows.net".

(** [json.dump(template, f, indent=2)] for the template with these two
    values *)
Definition dump_template (storage insights : string) : string :=
  "{" ++ NL
  ++ "  " ++ Json.dumps_string "IsEncrypted" ++ ": false," ++ NL
  ++ "  " ++ Json.dumps_string "Values" ++ ": {" ++ NL
  ++ "    " ++ Json.dumps_string "AzureWebJobsStorage" ++ ": "
  ++ Json.dumps_string storage ++ "," ++ NL
  ++ "    " ++ Json.dumps_string "FUNCTIONS_WORKER_RUNTIME" ++ ": "
  ++ Json.dumps_string "python" ++ "," ++ NL
  ++ "    " ++ Json.dumps_string "APPLICATIONINSIGHTS_CONNECTION_STRING"
  ++ ": " ++ Json.dumps_string insights ++ NL
  ++ "  }" ++ NL
  ++ "}".

Definition nonempty (s : string) : bool :=
  match s with
  | EmptyString => false
  | String _ _ => true
  end.

Definition create_local_settings_template (secrets_dir : path)
    (interactive : bool) (w : world) : outcome world :=
  let local_settings_path := div secrets_dir LOCAL_SETTINGS in
  if exists_ (fs w) local_settings_path && negb interactive then Done w
  else
    let asked :=
      if interactive then
        match input_stripped w with
        | Failed e => Failed e
        | Done (storage_account, w1) =>
            match input_stripped w1 with
            | Failed e => Failed e
            | Done (storage_key, w2) =>
                match input_stripped w2 with
                | Failed e => Failed e
                | Done (app_insights, w3) =>
                    let storage :=
                      if nonempty storage_account && nonempty storage_key
                      then storage_string storage_account storage_key
                      else default_storage in
                    let insights :=
                      if nonempty app_insights then app_insights
                      else default_insights in
                    Done (storage, insights, w3)
                end
            end
        end
      else Done (default_storage, default_insights, w) in
    match asked with
    | Failed e => Failed e
    | Done (storage, insights, w') =>
        match write (fs w') local_settings_path
                    (dump_template storage insights) with
        | Failed e => Failed e
        | Done fs' => Done (mkWorld fs' (stdin w'))
        end
    end.

(** [copy_settings_for_runtime]: a failure of the copy is caught *)
Definition copy_settings_for_runtime (secrets_dir : path) (w : world) : world :=
  let project_root := parent secrets_dir in
  let source := div secrets_dir LOCAL_SETTINGS in
  let dest := div project_root LOCAL_SETTINGS in
  if negb (exists_ (fs w) source) then w
  else
    match copy2 (fs w) source dest with
    | Done fs' => mkWorld fs' (stdin w)
    | Failed _ => w
    end.

(** the four checks of [validate_setup] *)
Definition validate_setup (secrets_dir : path) (w : world)
  : list (bool * string) :=
  let project_root := parent secrets_dir in
  [ (exists_ (fs w) secrets_dir, ".secrets folder exists");
    (exists_ (fs w) (div secrets_dir README), "secrets README.md exists");
    (exists_ (fs w) (div secrets_dir LOCAL_SETTINGS),
     "local.settings.json template exists");
    (exists_ (fs w) (div project_root LOCAL_SETTINGS),
     "local.settings.json copied to project root") ].

Record args : Type := mkArgs {
  interactive : bool;
  copy_settings : bool;
  validate : bool
}.

Definition main (project_root : path) (a : args) (w : world)
  : outcome (world * list (bool * string)) :=
  match create_secrets_folder project_root w with
  | Failed e => Failed e
  | Done (secrets_dir, w1) =>
      let made :=
        if negb (validate a)
        then create_local_settings_template secrets_dir (interactive a) w1
        else Done w1 in
      match made with
      | Failed e => Failed e
      | Done w2 =>
          let w3 :=
            if copy_settings a || interactive a
            then copy_settings_for_runtime secrets_dir w2
            else w2 in
          Done (w3, validate_setup secrets_dir w3)
      end
  end.

(** the paths the script works on, from the project root *)
Definition secrets_of (project_root : path) : path := div project_root SECRETS.
Definition readme_of (project_root : path) : path :=
  div (secrets_of project_root) README.
Definition settings_of (project_root : path) : path :=
  div (secrets_of project_root) LOCAL_SETTINGS.
Definition runtime_of (project_root : path) : path :=
  div project_root LOCAL_SETTINGS.
Definition nested_runtime_of (project_root : path) : path :=
  div (runtime_of project_root) LOCAL_SETTINGS.

(** the path [copy2] writes to *)
Definition copy_target (f : filesystem) (src dst : path) : path :=
  if is_dir f dst then div dst (name src) else dst.

(** two worlds alike: the same lines to read, the same entry at every path *)
Definition alike (w w' : world) : Prop :=
  stdin w = stdin w' /\ forall p, fs w p = fs w' p.

(** what the interactive set-up writes for the three answers *)
Definition answered_template (account key insights : string) : string :=
  dump_template
    (if nonempty (strip account) && nonempty (strip key)
     then storage_string (strip account) (strip key)
     else default_storage)
    (if nonempty (strip insights) then strip insights else default_insights).

(** example worlds: a project that only has its root, and one that was set
    up before and holds settings of its own *)
Definition project : path := ["home"; "dev"; "function-proxy"].

Definition fresh : filesystem :=
  fun p => if path_eqb p project then Some Dir else None.

Definition configured : filesystem :=
  put (put fresh (secrets_of project) Dir) (settings_of project)
      (File "my settings").

End Setup.

(** ** What the spec means by a glob match

    Written from the spec's words, to be compared with the compiled
    patterns: a star stands for any run of characters, every other
    character for itself up to case, and the whole text is consumed.
    [same a c] is the comparison up to case of the pattern character [a]
    with the character [c] of the text. *)

Inductive glob_matches (same : ascii -> ascii -> bool)
  : string -> string -> Prop :=
  | glob_empty : glob_matches same EmptyString EmptyString
  | glob_star : forall p run rest,
      glob_matches same p rest ->
      glob_matches same (String "*" p) (run ++ rest)
  | glob_literal : forall a c p h,
      a <> "*"%char ->
      same a c = true ->
      glob_matches same p h ->
      glob_matches same (String a p) (String c h).

(** two texts of one length that agree character by character up to case *)
Fixpoint same_text (same : ascii -> ascii -> bool) (p d : string) : bool :=
  match p, d with
  | EmptyString, EmptyString => true
  | String a p', String c d' => same a c && same_text same p' d'
  | _, _ => false
  end.

(** the nodes a glob pattern should compile to *)
Definition glob_node (c : ascii) : Re.node :=
  if (c =? "*")%char then Re.Star Re.Any else Re.One (Re.Char c).

Fixpoint glob_nodes (p : string) : list Re.node :=
  match p with
  | EmptyString => []
  | String c r => glob_node c :: glob_nodes r
  end.

(** the text [compile_pattern] hands to [re.compile], between the anchors *)
Fixpoint glob_text (p : string) : string :=
  match p with
  | EmptyString => EmptyString
  | String c r =>
      (if (c =? "*")%char then ".*" else Re.escape_char c) ++ glob_text r
  end.

(** the compiled form of a glob pattern: its nodes between the anchors,
    case-insensitive *)
Definition glob_regex (p : string) : Re.regex :=
  Re.mkRegex (Re.Bol :: glob_nodes p ++ [Re.Eol])%list true.

(** every character of [s] is a character of [t] *)
Definition within (s t : string) : Prop :=
  forall c, Text.contains c s = true -> Text.contains c t = true.

(** the text that [urlsplit] works on after its clean-up *)
Definition cleaned (url : string) : string :=
  Text.remove_chars UrlParse.unsafe_url_byte
    (Text.lstrip UrlParse.c0_control_or_space url).

(** ** Vocabulary of the statements *)

Inductive route : Type :=
  | Generic
  | OData.

Definition handler (lib : Library) (R : list Re.regex)
    (rr : OutboundCall -> result DownstreamResponse) (rt : route)
  : HttpRequest -> HttpResponse * list OutboundCall :=
  match rt with
  | Generic => proxy_function lib R rr
  | OData => odata_proxy_function lib R rr
  end.

(** [req.route_params.get('endpoint')] *)
Definition endpoint_of (req : HttpRequest) : option string :=
  dict_get (route_params req) "endpoint".

(** [req.params.get('__proxy_scheme')] *)
Definition scheme_override_of (req : HttpRequest) : option string :=
  dict_get (params req) PROXY_SCHEME.

(** the target a route resolves an endpoint to, before the query is merged *)
Definition target_of (rt : route) (req : HttpRequest) (endpoint : string)
  : string + HttpResponse :=
  match rt with
  | Generic => resolve_target endpoint (scheme_override_of req)
  | OData => inl (odata_target endpoint)
  end.

Definition explicit_scheme (endpoint : string) : bool :=
  Text.startswith endpoint "http://" || Text.startswith endpoint "https://".

(** what the [except] clauses of a route answer *)
Definition failure (rt : route) (e : exn) : HttpResponse :=
  match e, rt with
  | RequestException e, Generic =>
      error_response 502 ("Request failed: " ++ e)
  | RequestException e, OData =>
      error_response 502 ("OData request failed: " ++ e)
  | OtherException e, Generic =>
      error_response 500 ("Internal server error: " ++ e)
  | OtherException e, OData =>
      error_response 500 ("Unexpected error in OData proxy: " ++ e)
  end.

(** what a handler answers once [requests.request] has returned or raised *)
Definition respond (lib : Library) (rt : route)
  (r : result DownstreamResponse) : HttpResponse :=
  match (response <- r ;; relay lib response) with
  | Ok response => response
  | Raise e => failure rt e
  end.

(** the methods whose body a route forwards *)
Definition body_methods (rt : route) : list string :=
  match rt with
  | Generic => ["POST"; "PUT"; "PATCH"]
  | OData => ["POST"]
  end.

(** the names of the parameters of a query string *)
Definition query_names (q : string) : list string :=
  map (Text.before "=") (Text.split "&" q).

(** Percent-encoding of form data, character by character: unreserved
    characters stay, a space becomes a plus, anything else is the [%XX] of
    its UTF-8 bytes. *)
Definition spec_encode_char (c : ascii) : string :=
  if UrlEncode.always_safe c then String c EmptyString
  else if (c =? " ")%char then "+"
  else String.concat EmptyString (map UrlEncode.percent (UrlEncode.utf8 c)).

Fixpoint spec_encode (s : string) : string :=
  match s with
  | EmptyString => EmptyString
  | String c r => spec_encode_char c ++ spec_encode r
  end.

Definition spec_pair (kv : string * string) : string :=
  spec_encode (fst kv) ++ "=" ++ spec_encode (snd kv).

(** the query merge in the spec's words: the parameters are appended, after
    an ampersand when the target has a question mark and after a question
    mark otherwise *)
Definition spec_merge (target : string) (l : list (string * string)) : string :=
  match l with
  | [] => target
  | _ :: _ =>
      target ++ (if Text.contains "?" target then "&" else "?")
             ++ Text.join "&" (map spec_pair l)
  end.

Definition not_scheme_key (kv : string * string) : bool :=
  negb (String.eqb (fst kv) PROXY_SCHEME).

Definition forwarded_header (dropped : list string) (kv : string * string)
  : bool :=
  negb (mem (Text.lower (fst kv)) dropped).


(** the request with its scheme-override parameter taken out *)
Definition without_scheme (req : HttpRequest) : HttpRequest :=
  mkRequest (method req) (route_params req) (filter not_scheme_key (params req))
            (headers req) (get_body req).

(** the request with another outcome of [get_body] *)
Definition with_body (req : HttpRequest) (b : body_read) : HttpRequest :=
  mkRequest (method req) (route_params req) (params req) (headers req) b.

(** a downstream that answers every call with an empty 200 *)
Definition answer_ok (_ : OutboundCall) : result DownstreamResponse :=
  Ok (mkDownstream EmptyString 200 []).

(** The pieces of the call a route sends for a request, named so that the
    statements can speak of them. *)
Definition query_params_of (rt : route) (req : HttpRequest) : dict :=
  match rt with
  | Generic =>
      dict_update_if (fun k => negb (String.eqb k PROXY_SCHEME)) [] (params req)
  | OData => dict_update_if (fun _ => true) [] (params req)
  end.

Definition headers_of (rt : route) (req : HttpRequest) : dict :=
  match rt with
  | Generic =>
      dict_update_if (fun key => negb (mem (Text.lower key) hop_by_hop))
                     [] (headers req)
  | OData =>
      dict_update_if (fun key => negb (mem (Text.lower key) odata_dropped))
                     odata_defaults (headers req)
  end.

Definition body_of (rt : route) (req : HttpRequest) : option string :=
  if mem (Text.upper (method req)) (body_methods rt) then read_body req
  else None.

Definition call_of (rt : route) (req : HttpRequest) (target_url : string)
  : OutboundCall :=
  let url := merge_query target_url (query_params_of rt req) in
  mkCall (Text.upper (method req)) url (headers_of rt req) (body_of rt req) 30
         (Text.startswith url "https://").

Definition missing_msg (rt : route) : string :=
  match rt with
  | Generic => "No endpoint specified"
  | OData => "No OData endpoint specified"
  end.

Definition rejected_msg (rt : route) (target_url : string) : string :=
  match rt with
  | Generic => "Endpoint not allowed: " ++ target_url
  | OData => "OData endpoint not allowed: " ++ target_url
  end.

(** ** Requests used as examples *)

Definition odata_endpoint : dict := [("endpoint", "services.odata.org/V4/People")].

(** an OData request that carries its own Accept header *)
Definition accept_request : HttpRequest :=
  mkRequest "GET" odata_endpoint [] [("Accept", "text/html")] (BodyBytes EmptyString).

(** an OData request that carries its own accept, content-type and
    odata-version headers, under the keys [req.headers] gives *)
Definition version_request : HttpRequest :=
  mkRequest "GET" odata_endpoint []
            [("accept", "text/html"); ("odata-version", "3.0");
             ("content-type", "text/plain"); ("x-custom", "1")]
            (BodyBytes EmptyString).

(** a request with the three headers of the spec's example *)
Definition custom_request : HttpRequest :=
  mkRequest "GET" [("endpoint", "api.example.com/items")] []
            [("Host", "proxy.local"); ("Connection", "keep-alive");
             ("X-Custom", "1")]
            (BodyBytes EmptyString).

(** OData requests whose query carries the scheme override *)
Definition scheme_request : HttpRequest :=
  mkRequest "GET" odata_endpoint [(PROXY_SCHEME, "http")] []
            (BodyBytes EmptyString).

Definition scheme_and_filter_request : HttpRequest :=
  mkRequest "GET" odata_endpoint [(PROXY_SCHEME, "http"); ("$top", "1")] []
            (BodyBytes EmptyString).

(** a generic request with an override and two more parameters *)
Definition override_request : HttpRequest :=
  mkRequest "GET" [("endpoint", "api.example.com/items")]
            [("q", "a b"); (PROXY_SCHEME, "HTTP"); ("page", "2")] []
            (BodyBytes EmptyString).

(** generic requests for a host without a scheme: an empty override, an
    override that is no scheme of the two, and a POST whose body cannot be
    read *)
Definition empty_override_request : HttpRequest :=
  mkRequest "GET" [("endpoint", "api.example.com")] [(PROXY_SCHEME, EmptyString)]
            [] (BodyBytes EmptyString).

Definition ftp_request : HttpRequest :=
  mkRequest "GET" [("endpoint", "api.example.com")] [(PROXY_SCHEME, "ftp")]
            [] (BodyBytes EmptyString).

Definition unreadable_post : HttpRequest :=
  mkRequest "post" [("endpoint", "api.example.com/items")] [] []
            (BodyRaises "stream closed").

(** an OData request with an override that is no scheme of the two *)
Definition odata_ftp_request : HttpRequest :=
  mkRequest "GET" odata_endpoint [(PROXY_SCHEME, "ftp")] []
            (BodyBytes EmptyString).

(** a request that reached a route with nothing captured *)
Definition bare_request : HttpRequest :=
  mkRequest "GET" [] [] [] (BodyBytes EmptyString).

(** the text every error body starts with *)
Definition error_body_prefix : string :=
  "{" ++ String Text.DQUOTE ("error" ++ String Text.DQUOTE
                               (": " ++ String Text.DQUOTE EmptyString)).

(** a downstream that answers with an HTML page *)
Definition html_page : DownstreamResponse :=
  mkDownstream "<p>hello</p>" 404
               [("Content-Type", "text/html"); ("Content-Length", "12");
                ("Set-Cookie", "a=b"); ("connection", "close")].

Definition answer_html (_ : OutboundCall) : result DownstreamResponse :=
  Ok html_page.

(** a downstream whose answer has a header value folded over two lines *)
Definition folded_page : DownstreamResponse :=
  mkDownstream "ok" 200
               [("Content-Type", "text/plain");
                ("X-Note", "first" ++ String Text.CR (String Text.LF " second"))].

Definition answer_folded (_ : OutboundCall) : result DownstreamResponse :=
  Ok folded_page.

(** a generic request whose only parameter is the scheme override *)
Definition only_override_request : HttpRequest :=
  mkRequest "GET" [("endpoint", "api.example.com/items")]
            [(PROXY_SCHEME, "http")] [] (BodyBytes EmptyString).

(** The steps of [urlparse] and [is_allowed] once the authority is cut
    off, named for the statements: the path, from what follows the
    authority, and the text that is matched, from authority and path. *)
Definition path_part (scheme url : string) : string :=
  let url := if Text.contains "#" url then Text.before "#" url else url in
  let url := if Text.contains "?" url then Text.before "?" url else url in
  if existsb (String.eqb scheme) UrlParse.uses_params && Text.contains ";" url
  then fst (UrlParse.splitparams url)
  else url.

Definition domain_of (netloc path : string) : string :=
  let domain :=
    if (String.length netloc =? 0)%nat then Text.before "/" path
    else netloc in
  if Text.contains ":" domain then Text.before ":" domain else domain.

(** characters that end an authority, open or close an IP literal, or are
    deleted by [urlsplit] *)
Definition breaks_authority (c : ascii) : bool :=
  UrlParse.netloc_delim c || (c =? "[")%char || (c =? "]")%char
  || UrlParse.unsafe_url_byte c.

Definition plain_authority (s : string) : bool :=
  Text.forall_chars (fun c => negb (breaks_authority c)) s.



(** the characters [urlencode] writes: the unreserved ones and [+%=&] *)
Definition query_char (c : ascii) : bool :=
  UrlEncode.always_safe c || (c =? "+")%char || (c =? "%")%char
  || (c =? "=")%char || (c =? "&")%char.

(** what is appended by a merge: a question mark when the text before has
    none, an ampersand otherwise, then characters of the query alphabet *)
Definition appended_to (s a : string) : Prop :=
  exists q, Text.forall_chars query_char q = true /\
            a = (if Text.contains "?" s then "&" else "?") ++ q.

(** ** Reading an error body back

    A reader for the JSON text that [error_response] writes, to state that
    the message can be recovered from the body.  [read_string] reads the
    inside of a string literal up to its closing quote and gives the
    decoded text and what follows the quote; it knows the escapes that
    [json.dumps] writes. *)

Definition hex_value (c : ascii) : option nat :=
  if Text.is_digit c then Some (Text.code c - 48)
  else if Text.in_range 97 102 c then Some (Text.code c - 87)
  else None.

Fixpoint read_string (skip : nat) (s : string) : option (string * string) :=
  match s with
  | EmptyString => None
  | String c r =>
      match skip with
      | S k => read_string k r
      | O =>
          if (c =? Text.DQUOTE)%char then Some (EmptyString, r)
          else
            let emit (x : ascii) (n : nat) :=
              match read_string n r with
              | Some (d, rest) => Some (String x d, rest)
              | None => None
              end in
            if (c =? Text.BACKSLASH)%char then
              match r with
              | String "n" _ => emit Text.LF 1
              | String "r" _ => emit Text.CR 1
              | String "t" _ => emit Text.TAB 1
              | String "b" _ => emit (ascii_of_nat 8) 1
              | String "f" _ => emit (ascii_of_nat 12) 1
              | String "u" (String "0" (String "0" (String h (String l _)))) =>
                  match hex_value h, hex_value l with
                  | Some x, Some y => emit (ascii_of_nat (16 * x + y)) 5
                  | _, _ => None
                  end
              | String e _ =>
                  if (e =? Text.DQUOTE)%char || (e =? Text.BACKSLASH)%char
                  then emit e 1
                  else None
              | EmptyString => None
              end
            else emit c 0
      end
  end.

(** the message of an error body: the text must be the prefix, a string
    literal and the closing brace *)
Definition read_error_body (s : string) : option string :=
  if String.prefix error_body_prefix s then
    match read_string 0 (Text.drop (String.length error_body_prefix) s) with
    | Some (msg, "}") => Some msg
    | _ => None
    end
  else None.

(** a request whose endpoint has a line feed in its host *)
Definition line_break_request : HttpRequest :=
  mkRequest "GET" [("endpoint", "local" ++ String Text.LF "host/admin")] []
            [] (BodyBytes EmptyString).

(** a request whose endpoint carries user information before the host *)
Definition userinfo_request : HttpRequest :=
  mkRequest "GET" [("endpoint", "api.example.com:pw@evil.example/steal")] []
            [] (BodyBytes EmptyString).

(** * Lemmas on text *)

Lemma append_assoc (a b c : string) : (a ++ b) ++ c = a ++ (b ++ c).
Proof. induction a as [|x a IH]; simpl; [reflexivity | now rewrite IH]. Qed.

Lemma append_nil_r (a : string) : a ++ EmptyString = a.
Proof. induction a as [|x a IH]; simpl; [reflexivity | now rewrite IH]. Qed.

Lemma contains_append c a b :
  Text.contains c (a ++ b) = Text.contains c a || Text.contains c b.
Proof.
  induction a as [|x a IH]; simpl; [reflexivity|].
  now rewrite IH, orb_assoc.
Qed.

(** ** [re.escape], [str.replace] and the parser on a glob pattern *)

Lemma special_char_facts (c : ascii) :
  Re.is_special c = true ->
  Text.is_alnum c = false.
Proof.
  destruct c as [[] [] [] [] [] [] [] []]; vm_compute; congruence.
Qed.

Lemma plain_char_facts (c : ascii) :
  Re.is_special c = false ->
  (c =? Text.BACKSLASH)%char = false /\ (c =? ".")%char = false /\
  (c =? "*")%char = false /\ (c =? "^")%char = false /\
  (c =? "$")%char = false /\ Re.unsupported_meta c = false.
Proof.
  destruct c as [[] [] [] [] [] [] [] []]; vm_compute; intuition congruence.
Qed.

Lemma star_is_special : Re.is_special "*" = true.
Proof. reflexivity. Qed.

(** An escaped text never starts with a star. *)
Lemma escape_head (p : string) a r :
  Re.escape p = String a r -> a <> "*"%char.
Proof.
  destruct p as [|c p]; simpl; [discriminate|].
  unfold Re.escape_char. destruct (Re.is_special c) eqn:Hs; simpl.
  - intros H. injection H as <- _. discriminate.
  - intros H. injection H as <- _. intros ->. now rewrite star_is_special in Hs.
Qed.

Lemma prefix_escaped_star a b r :
  String.prefix (String Text.BACKSLASH "*") (String a (String b r))
  = (a =? Text.BACKSLASH)%char && (b =? "*")%char.
Proof.
  cbn [String.prefix].
  destruct (ascii_dec Text.BACKSLASH a) as [<-|Ha].
  - destruct (ascii_dec "*" b) as [<-|Hb].
    + rewrite !Ascii.eqb_refl. now destruct r.
    + symmetry. apply andb_false_intro2, Ascii.eqb_neq. congruence.
  - symmetry. apply andb_false_intro1, Ascii.eqb_neq. congruence.
Qed.

Lemma prefix_escaped_star1 a :
  String.prefix (String Text.BACKSLASH "*") (String a EmptyString) = false.
Proof.
  cbn [String.prefix]. destruct (ascii_dec Text.BACKSLASH a); reflexivity.
Qed.

(** one step of [replace] on a character that does not start an escaped
    star *)
Lemma replace_skip a s :
  (a =? Text.BACKSLASH)%char = false \/
  (forall b r, s = String b r -> b <> "*"%char) ->
  Text.replace (String Text.BACKSLASH "*") ".*" (String a s)
  = String a (Text.replace (String Text.BACKSLASH "*") ".*" s).
Proof.
  intros H. unfold Text.replace.
  cbn [Text.replace_from].
  destruct s as [|b r].
  - now rewrite prefix_escaped_star1.
  - rewrite prefix_escaped_star.
    destruct H as [-> | H]; [reflexivity|].
    specialize (H b r eq_refl).
    apply Ascii.eqb_neq in H. rewrite H, andb_false_r. reflexivity.
Qed.

Lemma replace_hit s :
  Text.replace (String Text.BACKSLASH "*") ".*"
               (String Text.BACKSLASH (String "*" s))
  = ".*" ++ Text.replace (String Text.BACKSLASH "*") ".*" s.
Proof.
  unfold Text.replace. cbn [Text.replace_from].
  rewrite prefix_escaped_star. reflexivity.
Qed.

Lemma replace_escape (p : string) :
  Text.replace (String Text.BACKSLASH "*") ".*" (Re.escape p) = glob_text p.
Proof.
  induction p as [|c p IH]; [reflexivity|].
  simpl. unfold Re.escape_char.
  destruct (c =? "*")%char eqn:Hc.
  - apply Ascii.eqb_eq in Hc. subst c. rewrite star_is_special.
    simpl. rewrite replace_hit, IH. reflexivity.
  - destruct (Re.is_special c) eqn:Hs; simpl.
    + rewrite replace_skip.
      2:{ right. intros b r E. injection E as <- _.
          now apply Ascii.eqb_neq. }
      rewrite replace_skip.
      2:{ right. intros b r E. now apply escape_head in E. }
      now rewrite IH.
    + rewrite replace_skip.
      2:{ left. now apply plain_char_facts. }
      now rewrite IH.
Qed.

Lemma parse_glob_text (p : string) : forall acc tail,
  Re.parse acc (glob_text p ++ tail)
  = Re.parse (rev (glob_nodes p) ++ acc)%list tail.
Proof.
  induction p as [|c p IH]; intros acc tail; [reflexivity|].
  cbn [glob_text glob_nodes]. unfold glob_node.
  replace (rev (_ :: glob_nodes p) ++ acc)%list
    with (rev (glob_nodes p) ++ (if (c =? "*")%char then Re.Star Re.Any
                                 else Re.One (Re.Char c)) :: acc)%list
    by (simpl; now rewrite <- app_assoc).
  destruct (c =? "*")%char eqn:Hc.
  - rewrite append_assoc. simpl. apply IH.
  - rewrite append_assoc. unfold Re.escape_char.
    destruct (Re.is_special c) eqn:Hs.
    + simpl. rewrite (special_char_facts _ Hs). apply IH.
    + destruct (plain_char_facts _ Hs) as (H1 & H2 & H3 & H4 & H5 & H6).
      cbn [append Re.parse]. rewrite H1, H2, Hc, H4, H5, H6. apply IH.
Qed.

(** [compile_pattern] never fails, and gives the anchored glob. *)
Lemma compile_pattern_glob (p : string) :
  compile_pattern p
  = Some (Re.mkRegex (Re.Bol :: glob_nodes p ++ [Re.Eol])%list true).
Proof.
  unfold compile_pattern, Re.compile.
  rewrite replace_escape.
  assert (H : Re.parse [] ("^" ++ glob_text p ++ "$")
              = Some (Re.Bol :: glob_nodes p ++ [Re.Eol])%list).
  { change ("^" ++ glob_text p ++ "$")
      with (String "^" (glob_text p ++ "$")).
    change (Re.parse [] (String "^" (glob_text p ++ "$")))
      with (Re.parse [Re.Bol] (glob_text p ++ "$")).
    rewrite parse_glob_text.
    change (Re.parse (rev (glob_nodes p) ++ [Re.Bol])%list "$")
      with (Some (rev (Re.Eol :: (rev (glob_nodes p) ++ [Re.Bol]))%list)).
    cbn [rev]. rewrite rev_app_distr, rev_involutive. reflexivity. }
  now rewrite H.
Qed.

Lemma compile_patterns_glob (P : list string) :
  compile_patterns P = Some (map glob_regex P).
Proof.
  induction P as [|p P IH]; [reflexivity|].
  simpl. now rewrite compile_pattern_glob, IH.
Qed.

(** ** The compiled glob against the spec's glob *)

Lemma match_star same a ns start s :
  Re.match_nodes same (Re.Star a :: ns) start s
  = Re.match_nodes same ns start s ||
    match s with
    | EmptyString => false
    | String c r =>
        Re.single_matches same a c && Re.match_nodes same (Re.Star a :: ns) false r
    end.
Proof. destruct s; reflexivity. Qed.

Lemma match_one same a ns start s :
  Re.match_nodes same (Re.One a :: ns) start s
  = match s with
    | EmptyString => false
    | String c r => Re.single_matches same a c && Re.match_nodes same ns false r
    end.
Proof. reflexivity. Qed.

Lemma glob_empty_inv same d : glob_matches same EmptyString d -> d = EmptyString.
Proof. inversion 1; reflexivity. Qed.

Lemma glob_star_inv same p d :
  glob_matches same (String "*" p) d ->
  exists run rest, d = run ++ rest /\ glob_matches same p rest.
Proof.
  inversion 1; subst.
  - now exists run, rest.
  - congruence.
Qed.

Lemma glob_star_step same p d :
  glob_matches same (String "*" p) d <->
  glob_matches same p d \/
  exists a r, d = String a r /\ glob_matches same (String "*" p) r.
Proof.
  split.
  - intros H. apply glob_star_inv in H as (run & rest & -> & H).
    destruct run as [|a run]; [now left|].
    right. exists a, (run ++ rest). split; [reflexivity|].
    now apply glob_star.
  - intros [H | (a & r & -> & H)].
    + now apply (@glob_star same p EmptyString d).
    + apply glob_star_inv in H as (run & rest & -> & H).
      now apply (@glob_star same p (String a run) rest).
Qed.

Lemma glob_literal_inv same a p d :
  a <> "*"%char ->
  glob_matches same (String a p) d ->
  exists c h, d = String c h /\ same a c = true /\
              glob_matches same p h.
Proof.
  intros Ha H. inversion H; subst; [congruence|].
  now exists c, h.
Qed.

Lemma at_end_clean d :
  Text.contains Text.LF d = false ->
  Re.at_end d = true <-> d = EmptyString.
Proof.
  intros Hd. split; [|now intros ->].
  destruct d as [|c [|c' d]]; simpl in *; try easy.
  intros Hc. apply orb_false_elim in Hd as [Hd _]. congruence.
Qed.

(** On a text without a newline, the anchored nodes of a glob pattern match
    exactly when the spec's glob does. *)
Lemma match_glob_nodes same (p : string) : forall d start,
  Text.contains Text.LF d = false ->
  Re.match_nodes same (glob_nodes p ++ [Re.Eol])%list start d = true
  <-> glob_matches same p d.
Proof.
  induction p as [|c p IH]; intros d start Hd.
  - simpl. rewrite andb_true_r, (at_end_clean _ Hd).
    split; [intros ->; constructor | apply glob_empty_inv].
  - cbn [glob_nodes app]. unfold glob_node.
    destruct (c =? "*")%char eqn:Hc.
    + apply Ascii.eqb_eq in Hc. subst c.
      revert start Hd.
      induction d as [|a d IHd]; intros start Hd; rewrite match_star.
      * rewrite orb_false_r, IH by assumption.
        rewrite glob_star_step. split; [now left|].
        intros [H | (a & r & E & _)]; [assumption | discriminate].
      * simpl in Hd. apply orb_false_elim in Hd as [Ha Hd].
        rewrite orb_true_iff, andb_true_iff, IH by (simpl; now rewrite Ha).
        rewrite (IHd false Hd), (glob_star_step same p (String a d)).
        split.
        -- intros [H | [_ H]]; [now left|].
           right. now exists a, d.
        -- intros [H | (a' & r & E & H)]; [now left|].
           injection E as <- <-. right. split; [|assumption].
           simpl. now rewrite Ha.
    + apply Ascii.eqb_neq in Hc. rewrite match_one.
      destruct d as [|a d].
      * split; [discriminate|].
        intros H. apply (glob_literal_inv Hc) in H as (? & ? & E & _).
        discriminate.
      * simpl in Hd. apply orb_false_elim in Hd as [_ Hd].
        rewrite andb_true_iff, (IH d false Hd). simpl.
        split.
        -- intros [E H]. now constructor.
        -- intros H. apply (glob_literal_inv Hc) in H as (? & ? & E & E' & H).
           injection E as <- <-. now split.
Qed.

Lemma re_match_glob same (p d : string) :
  Text.contains Text.LF d = false ->
  Re.re_match same (glob_regex p) d = true <-> glob_matches same p d.
Proof.
  intros Hd. unfold Re.re_match, glob_regex. simpl.
  now apply match_glob_nodes.
Qed.

(** ** The text [is_allowed] matches on has no newline *)

Lemma within_refl s : within s s.
Proof. now intros c. Qed.

Lemma within_trans s t u : within s t -> within t u -> within s u.
Proof. intros H1 H2 c Hc. auto. Qed.

Lemma within_nil t : within EmptyString t.
Proof. intros c; discriminate. Qed.

Lemma within_cons_r a s t : within s t -> within s (String a t).
Proof. intros H c Hc. simpl. rewrite (H c Hc). apply orb_true_r. Qed.

Lemma within_cons a s t : within s t -> within (String a s) (String a t).
Proof.
  intros H c Hc. simpl in *.
  apply orb_true_iff in Hc as [Hc | Hc]; rewrite ?Hc; [reflexivity|].
  rewrite (H c Hc). apply orb_true_r.
Qed.

Lemma within_append a b t : within a t -> within b t -> within (a ++ b) t.
Proof.
  intros Ha Hb c Hc. rewrite contains_append in Hc.
  apply orb_true_iff in Hc as [Hc | Hc]; auto.
Qed.

Create HintDb within.

#[local] Hint Resolve within_refl within_nil within_cons_r within_cons
  within_append : within.

Lemma before_within x s : within (Text.before x s) s.
Proof.
  induction s as [|a s IH]; simpl; auto with within.
  destruct (a =? x)%char; auto with within.
Qed.

Lemma after_within x s : within (Text.after x s) s.
Proof.
  induction s as [|a s IH]; simpl; auto with within.
  destruct (a =? x)%char; auto with within.
Qed.

Lemma take_until_within p s : within (Text.take_until p s) s.
Proof.
  induction s as [|a s IH]; simpl; auto with within.
  destruct (p a); auto with within.
Qed.

Lemma drop_until_within p s : within (Text.drop_until p s) s.
Proof.
  induction s as [|a s IH]; simpl; auto with within.
  destruct (p a); auto with within.
Qed.

Lemma drop_within n s : within (Text.drop n s) s.
Proof.
  revert s. induction n as [|n IH]; intros [|a s]; simpl; auto with within.
Qed.

Lemma lstrip_within p s : within (Text.lstrip p s) s.
Proof.
  induction s as [|a s IH]; simpl; auto with within.
  destruct (p a); auto with within.
Qed.

Lemma rpartition_within x s :
  within (fst (UrlParse.rpartition x s)) s /\
  within (snd (UrlParse.rpartition x s)) s.
Proof.
  induction s as [|a s [IH1 IH2]]; simpl; [auto with within|].
  destruct (UrlParse.rpartition x s) as [h t]. simpl in *.
  destruct (Text.contains x s); simpl; [auto with within|].
  destruct (a =? x)%char; simpl; auto with within.
Qed.

#[local] Hint Resolve before_within after_within take_until_within
  drop_until_within drop_within lstrip_within : within.

Lemma splitparams_within url : within (fst (UrlParse.splitparams url)) url.
Proof.
  unfold UrlParse.splitparams.
  destruct (Text.contains "/" url); [|simpl; auto with within].
  destruct (rpartition_within "/" url) as [H1 H2].
  destruct (UrlParse.rpartition "/" url) as [h t]. simpl in *.
  destruct (Text.contains ";" t); simpl; [|auto with within].
  apply within_append; [assumption|].
  eapply within_trans; [apply before_within | assumption].
Qed.

Lemma split_scheme_within url : within (snd (UrlParse.split_scheme url)) url.
Proof.
  unfold UrlParse.split_scheme.
  destruct (Text.contains ":" url); simpl; [|auto with within].
  destruct (_ && _); simpl; auto with within.
Qed.

Lemma remove_unsafe_clean s :
  Text.contains Text.LF (Text.remove_chars UrlParse.unsafe_url_byte s) = false.
Proof.
  induction s as [|a s IH]; [reflexivity|].
  simpl. destruct (UrlParse.unsafe_url_byte a) eqn:Ha; [assumption|].
  simpl. rewrite IH, orb_false_r.
  unfold UrlParse.unsafe_url_byte in Ha.
  apply orb_false_elim in Ha as [_ Ha]. assumption.
Qed.

Lemma clean_within s t :
  within s t -> Text.contains Text.LF t = false ->
  Text.contains Text.LF s = false.
Proof.
  intros H Ht. destruct (Text.contains Text.LF s) eqn:Hs; [|reflexivity].
  apply H in Hs. congruence.
Qed.

Lemma urlsplit_within lib url scheme netloc path query fragment :
  UrlParse.urlsplit lib url = Ok (scheme, netloc, path, query, fragment) ->
  within netloc (cleaned url) /\ within path (cleaned url).
Proof.
  unfold UrlParse.urlsplit. fold (cleaned url).
  pose proof (split_scheme_within (cleaned url)) as Hs.
  destruct (UrlParse.split_scheme (cleaned url)) as [sch rest]. simpl in Hs.
  assert (Hcut : forall u,
            within (fst (if Text.contains "#" u
                         then (Text.before "#" u, Text.after "#" u)
                         else (u, EmptyString))) u).
  { intros u. destruct (Text.contains "#" u); simpl; auto with within. }
  assert (Hcut' : forall u,
            within (fst (if Text.contains "?" u
                         then (Text.before "?" u, Text.after "?" u)
                         else (u, EmptyString))) u).
  { intros u. destruct (Text.contains "?" u); simpl; auto with within. }
  pose proof (drop_within 2 rest) as Hd2.
  set (r2 := Text.drop 2 rest) in *. clearbody r2.
  destruct (Text.startswith rest "//").
  - destruct (UrlParse.check_brackets lib _); simpl; [|discriminate].
    specialize (Hcut (Text.drop_until UrlParse.netloc_delim r2)).
    destruct (if Text.contains "#" _ then _ else _) as [u1 f1].
    specialize (Hcut' u1).
    destruct (if Text.contains "?" _ then _ else _) as [u2 q2].
    simpl in *. destruct (UrlParse.checknetloc lib _); [|discriminate].
    simpl. intros E. injection E as <- <- <- <- <-.
    split.
    + eapply within_trans; [apply take_until_within|].
      eapply within_trans; eassumption.
    + eapply within_trans; [exact Hcut'|].
      eapply within_trans; [exact Hcut|].
      eapply within_trans; [apply drop_until_within|].
      eapply within_trans; eassumption.
  - simpl. specialize (Hcut rest).
    destruct (if Text.contains "#" _ then _ else _) as [u1 f1].
    specialize (Hcut' u1).
    destruct (if Text.contains "?" _ then _ else _) as [u2 q2].
    simpl in *. intros E. injection E as <- <- <- <- <-.
    split; [auto with within|].
    eapply within_trans; [exact Hcut'|].
    eapply within_trans; [exact Hcut | assumption].
Qed.

Lemma urlparse_within lib url parsed :
  UrlParse.urlparse lib url = Ok parsed ->
  within (UrlParse.netloc parsed) (cleaned url) /\
  within (UrlParse.path parsed) (cleaned url).
Proof.
  unfold UrlParse.urlparse.
  destruct (UrlParse.urlsplit lib url) as [[[[[sch nl] pth] q] f]|e] eqn:E;
    [|discriminate].
  apply urlsplit_within in E as [H1 H2]. simpl.
  pose proof (splitparams_within pth) as Hp.
  destruct (_ && _).
  - destruct (UrlParse.splitparams pth) as [u pr]. simpl in *.
    intros E. injection E as <-. simpl. split; [assumption|].
    eapply within_trans; eassumption.
  - intros E. injection E as <-. simpl. now split.
Qed.

Lemma extract_domain_clean lib url domain :
  extract_domain lib url = Ok domain ->
  Text.contains Text.LF domain = false.
Proof.
  unfold extract_domain.
  destruct (UrlParse.urlparse lib url) as [parsed|e] eqn:E; [|discriminate].
  apply urlparse_within in E as [H1 H2]. simpl.
  intros H. injection H as <-.
  apply clean_within with (t := cleaned url); [|apply remove_unsafe_clean].
  assert (Hd : within (if (String.length (UrlParse.netloc parsed) =? 0)%nat
                       then Text.before "/" (UrlParse.path parsed)
                       else UrlParse.netloc parsed) (cleaned url)).
  { destruct (_ =? _)%nat; [|assumption].
    eapply within_trans; [apply before_within | assumption]. }
  destruct (Text.contains ":" _); [|assumption].
  eapply within_trans; [apply before_within | assumption].
Qed.

(** * The allowlist matcher *)

Lemma is_allowed_true lib (P : list string) (h : string) :
  is_allowed lib (map glob_regex P) h = Ok true <->
  exists d, extract_domain lib h = Ok d /\
            exists p, In p P /\ glob_matches (ignorecase_eq lib) p d.
Proof.
  unfold is_allowed.
  destruct (extract_domain lib h) as [d|e] eqn:E; simpl.
  - pose proof (extract_domain_clean _ _ E) as Hd. split.
    + intros H. injection H as H. apply existsb_exists in H as (r & Hr & H).
      apply in_map_iff in Hr as (p & <- & Hp).
      exists d. split; [reflexivity|]. exists p. split; [assumption|].
      now apply re_match_glob.
    + intros (d' & E' & p & Hp & H). injection E' as <-.
      f_equal. apply existsb_exists. exists (glob_regex p).
      split; [now apply in_map | now apply re_match_glob].
  - split; [discriminate|]. intros (d & E' & _). discriminate.
Qed.

(** the allowlist of the source compiles, and its star entry lets every
    extracted host through *)
Lemma REGEX_PATTERNS_compiled :
  compile_patterns ALLOWED_PATTERNS = Some REGEX_PATTERNS.
Proof. reflexivity. Qed.

Lemma default_allowlist_open lib h d :
  extract_domain lib h = Ok d -> is_allowed lib REGEX_PATTERNS h = Ok true.
Proof.
  intros E. change REGEX_PATTERNS with (map glob_regex ALLOWED_PATTERNS).
  apply is_allowed_true. exists d. split; [assumption|].
  exists "*". split; [simpl; tauto|].
  rewrite <- (append_nil_r d). apply glob_star. constructor.
Qed.

(** the spec's own examples, on the pattern list [*.trusted.com] *)
Example trusted_examples :
  forall R, compile_patterns ["*.trusted.com"] = Some R ->
  map (is_allowed plain_library R)
      ["a.trusted.com"; "trusted.com"; "a.b.trusted.com"]
  = [Ok true; Ok false; Ok true].
Proof. intros R H. vm_compute in H. injection H as <-. reflexivity. Qed.

(** * The handlers, case by case *)

Lemma mem_one x y : mem x [y] = String.eqb x y.
Proof. unfold mem. simpl. apply orb_false_r. Qed.

(** The answer and the calls of a handler, along the order of its checks. *)
Lemma handler_cases lib R rr rt req :
  handler lib R rr rt req =
  match endpoint_of req with
  | Some (String _ _ as endpoint) =>
      match target_of rt req endpoint with
      | inr response => (response, [])
      | inl target_url =>
          match is_allowed lib R target_url with
          | Raise e => (respond lib rt (Raise e), [])
          | Ok false => (error_response 403 (rejected_msg rt target_url), [])
          | Ok true =>
              (respond lib rt (rr (call_of rt req target_url)),
               [call_of rt req target_url])
          end
      end
  | _ => (error_response 400 (missing_msg rt), [])
  end.
Proof.
  destruct rt; unfold handler, proxy_function, odata_proxy_function,
    proxy_try, odata_try, endpoint_of, target_of, scheme_override_of.
  - destruct (dict_get (route_params req) "endpoint") as [[|a e]|];
      try reflexivity.
    destruct (resolve_target _ _) as [t|resp]; [|reflexivity].
    destruct (is_allowed lib R t) as [[|]|[m|m]]; try reflexivity.
    unfold send, call_of, query_params_of, headers_of, body_of, body_methods.
    unfold respond.
    destruct (rr _) as [r|[m|m]]; simpl;
      [destruct (relay lib r) as [x|[m|m]]|..]; reflexivity.
  - destruct (dict_get (route_params req) "endpoint") as [[|a e]|];
      try reflexivity.
    destruct (is_allowed lib R _) as [[|]|[m|m]]; try reflexivity.
    unfold send, call_of, query_params_of, headers_of, body_of, body_methods.
    rewrite mem_one.
    unfold respond.
    destruct (rr _) as [r|[m|m]]; simpl;
      [destruct (relay lib r) as [x|[m|m]]|..]; reflexivity.
Qed.

(** * Mappings *)

Lemma keys_app (d e : dict) : keys (d ++ e)%list = (keys d ++ keys e)%list.
Proof. apply map_app. Qed.

Lemma dict_set_fresh d k v :
  ~ In k (keys d) -> dict_set d k v = (d ++ [(k, v)])%list.
Proof.
  induction d as [|[k' v'] d IH]; simpl; intros H; [reflexivity|].
  destruct (String.eqb_spec k' k) as [->|Hk]; [tauto|].
  f_equal. apply IH. tauto.
Qed.

Lemma in_keys_dict_set d k v x :
  In x (keys (dict_set d k v)) <-> In x (keys d) \/ x = k.
Proof.
  induction d as [|[k' v'] d IH]; simpl.
  - intuition.
  - destruct (String.eqb_spec k' k) as [->|Hk]; simpl.
    + intuition.
    + rewrite IH. intuition.
Qed.

Lemma in_dict_set d k v x y :
  In (x, y) (dict_set d k v) -> In (x, y) d \/ (x, y) = (k, v).
Proof.
  induction d as [|[k' v'] d IH]; simpl.
  - intuition.
  - destruct (String.eqb_spec k' k) as [->|Hk]; simpl.
    + intros [H|H]; [right; congruence | left; now right].
    + intros [H|H]; [left; now left|].
      destruct (IH H); [left; now right | now right].
Qed.

Lemma dict_get_set_same d k v : dict_get (dict_set d k v) k = Some v.
Proof.
  induction d as [|[k' v'] d IH]; simpl.
  - now rewrite String.eqb_refl.
  - destruct (String.eqb_spec k' k) as [->|Hk]; simpl.
    + now rewrite String.eqb_refl.
    + apply String.eqb_neq in Hk. now rewrite Hk.
Qed.

Lemma dict_get_set_other d k v k' :
  k' <> k -> dict_get (dict_set d k v) k' = dict_get d k'.
Proof.
  intros Hne. induction d as [|[k0 v0] d IH]; simpl.
  - destruct (String.eqb_spec k k'); [congruence | reflexivity].
  - destruct (String.eqb_spec k0 k) as [->|Hk]; simpl.
    + destruct (String.eqb_spec k k'); [congruence | reflexivity].
    + now rewrite IH.
Qed.

Lemma dict_get_in_keys d k v : dict_get d k = Some v -> In k (keys d).
Proof.
  induction d as [|[k' v'] d IH]; simpl; [discriminate|].
  destruct (String.eqb_spec k' k); [now left | right; auto].
Qed.

Lemma dict_get_not_in d k : ~ In k (keys d) -> dict_get d k = None.
Proof.
  induction d as [|[k' v'] d IH]; simpl; [reflexivity|].
  intros H. destruct (String.eqb_spec k' k); [tauto | apply IH; tauto].
Qed.

(** Filling a mapping from distinct keys that it does not hold yet appends
    the kept items in order. *)
Lemma dict_update_if_fresh keep (items : list (string * string)) :
  forall d,
  NoDup (keys items) ->
  (forall kv, In kv items -> keep (fst kv) = true -> ~ In (fst kv) (keys d)) ->
  dict_update_if keep d items
  = (d ++ filter (fun kv => keep (fst kv)) items)%list.
Proof.
  unfold dict_update_if.
  induction items as [|[k v] items IH]; intros d Hnd Hfresh; simpl.
  - now rewrite app_nil_r.
  - inversion Hnd as [|? ? Hk Hnd']; subst.
    destruct (keep k) eqn:Hkeep.
    + rewrite dict_set_fresh by (apply (Hfresh (k, v)); simpl; auto).
      rewrite IH; [now rewrite <- app_assoc | assumption |].
      intros kv Hin Hkv. rewrite keys_app, in_app_iff. simpl.
      intros [H | [H | []]].
      * apply (Hfresh kv); simpl; auto.
      * apply Hk. rewrite H. now apply in_map.
    + apply IH; [assumption|].
      intros kv Hin. apply Hfresh. now right.
Qed.

Lemma dict_update_if_empty keep (items : list (string * string)) :
  NoDup (keys items) ->
  dict_update_if keep [] items = filter (fun kv => keep (fst kv)) items.
Proof.
  intros H. now rewrite dict_update_if_fresh by (simpl; auto).
Qed.

Lemma in_keys_update keep items : forall d x,
  In x (keys (dict_update_if keep d items)) ->
  In x (keys d) \/ (keep x = true /\ In x (keys items)).
Proof.
  unfold dict_update_if.
  induction items as [|[k v] items IH]; intros d x; simpl; [auto|].
  intros H. apply IH in H as [H | [H1 H2]]; [|now auto].
  destruct (keep k) eqn:Hk; [|now left].
  apply in_keys_dict_set in H as [H | ->]; auto.
Qed.

Lemma in_update keep items : forall d x y,
  In (x, y) (dict_update_if keep d items) ->
  In (x, y) d \/ (keep x = true /\ In (x, y) items).
Proof.
  unfold dict_update_if.
  induction items as [|[k v] items IH]; intros d x y; simpl; [auto|].
  intros H. apply IH in H as [H | [H1 H2]]; [|now auto].
  destruct (keep k) eqn:Hk; [|now left].
  apply in_dict_set in H as [H | H]; [now left|].
  injection H as -> ->. auto.
Qed.

Lemma dict_get_update_untouched keep items k : forall d,
  (forall kv, In kv items -> keep (fst kv) = true -> fst kv <> k) ->
  dict_get (dict_update_if keep d items) k = dict_get d k.
Proof.
  unfold dict_update_if.
  induction items as [|[k0 v0] items IH]; intros d H; simpl; [reflexivity|].
  rewrite IH by (intros kv Hin; apply H; now right).
  destruct (keep k0) eqn:Hk; [|reflexivity].
  apply dict_get_set_other. intros ->.
  now apply (H (k0, v0)); simpl; auto.
Qed.

Lemma dict_get_update_kept keep items k v : forall d,
  NoDup (keys items) ->
  In (k, v) items -> keep k = true ->
  dict_get (dict_update_if keep d items) k = Some v.
Proof.
  induction items as [|[k0 v0] items IH]; intros d Hnd Hin Hk; [easy|].
  inversion Hnd as [|? ? Hk0 Hnd']; subst.
  change (dict_update_if keep d ((k0, v0) :: items))
    with (dict_update_if keep
            (if keep k0 then dict_set d k0 v0 else d) items).
  destruct Hin as [E | Hin].
  - injection E as -> ->. rewrite Hk.
    rewrite dict_get_update_untouched; [apply dict_get_set_same|].
    intros kv Hkv _ E. apply Hk0. rewrite <- E. now apply in_map.
  - now apply IH.
Qed.

(** A call is only made once the endpoint is there, the target is resolved
    and the allowlist has let it through; it is then the only call. *)
Lemma calls_of_handler lib R rr rt req call :
  In call (snd (handler lib R rr rt req)) ->
  exists endpoint target_url,
    endpoint_of req = Some endpoint /\ endpoint <> EmptyString /\
    target_of rt req endpoint = inl target_url /\
    is_allowed lib R target_url = Ok true /\
    call = call_of rt req target_url /\
    handler lib R rr rt req = (respond lib rt (rr call), [call]).
Proof.
  rewrite handler_cases.
  destruct (endpoint_of req) as [[|a e]|]; simpl; try tauto.
  destruct (target_of rt req (String a e)) as [t|resp] eqn:Et; simpl;
    try tauto.
  destruct (is_allowed lib R t) as [[|]|ex] eqn:Ea; simpl; try tauto.
  intros [<- | []]. exists (String a e), t.
  repeat split; try assumption; discriminate.
Qed.

Lemma refused_header_none lib headers :
  refused_header lib headers = None <->
  forall k v, In (k, v) headers -> header_error lib k v = None.
Proof.
  induction headers as [|[k v] headers IH]; simpl.
  - split; [intros _ k v [] | reflexivity].
  - destruct (header_error lib k v) eqn:E.
    + split; [discriminate|]. intros H.
      rewrite (H k v) in E by now left. discriminate.
    + rewrite IH. split.
      * intros H k' v' [H' | H']; [congruence | now apply H].
      * intros H k' v' H'. apply H. now right.
Qed.

Lemma relay_raise lib r e :
  relay lib r = Raise e -> exists m, e = OtherException m.
Proof.
  unfold relay, http_response. destruct (refused_header lib _); [|discriminate].
  intros H. injection H as <-. eauto.
Qed.

Lemma respond_ok lib rt r response :
  relay lib r = Ok response -> respond lib rt (Ok r) = response.
Proof. unfold respond. simpl. now intros ->. Qed.

Lemma respond_refused lib rt r e :
  relay lib r = Raise e ->
  exists msg, respond lib rt (Ok r) = error_response 500 msg.
Proof.
  intros H. destruct (relay_raise _ _ H) as (m & ->).
  unfold respond. simpl. rewrite H. destruct rt; eexists; reflexivity.
Qed.

Ltac nodup_keys := repeat constructor; simpl; intuition discriminate.

(** * Header filtering *)


Lemma hop_by_hop_dropped_odata x :
  mem x hop_by_hop = true -> mem x odata_dropped = true.
Proof.
  unfold mem, hop_by_hop, odata_dropped. simpl.
  destruct (String.eqb x "host"), (String.eqb x "connection"),
    (String.eqb x "content-length"), (String.eqb x "transfer-encoding");
    simpl; auto; discriminate.
Qed.

(** C6, amended.  On the generic route the headers sent are exactly the
    inbound headers whose key, lowercased, is none of host, connection,
    content-length, transfer-encoding, in order and with their values.  On
    the OData route these four are dropped too (no key of that kind is
    sent), accept and content-type are dropped with them, every other
    inbound header is sent with its value, and whatever else is sent is one
    of the OData defaults. *)
Theorem forwarded_headers lib R rr req call :
  NoDup (keys (headers req)) ->
  (In call (snd (proxy_function lib R rr req)) ->
   c_headers call = filter (forwarded_header hop_by_hop) (headers req)) /\
  (In call (snd (odata_proxy_function lib R rr req)) ->
   (forall k, mem (Text.lower k) hop_by_hop = true ->
              ~ In k (keys (c_headers call))) /\
   (forall k v, In (k, v) (headers req) ->
                mem (Text.lower k) odata_dropped = false ->
                dict_get (c_headers call) k = Some v) /\
   (forall k v, In (k, v) (c_headers call) ->
                In (k, v) odata_defaults \/
                (In (k, v) (headers req) /\
                 mem (Text.lower k) odata_dropped = false))).
Proof.
  intros Hnd. split.
  - intros H. apply (calls_of_handler lib R rr Generic) in H
      as (e & t & _ & _ & _ & _ & -> & _).
    unfold call_of; cbn [c_headers headers_of].
    now apply dict_update_if_empty.
  - intros H. apply (calls_of_handler lib R rr OData) in H
      as (e & t & _ & _ & _ & _ & -> & _).
    unfold call_of; cbn [c_headers headers_of]. split; [|split].
    + intros k Hk Hin. apply in_keys_update in Hin as [Hin | [Hkeep _]].
      * simpl in Hin.
        destruct Hin as [<- | [<- | [<- | []]]]; vm_compute in Hk;
          discriminate.
      * apply hop_by_hop_dropped_odata in Hk. cbv beta in Hkeep.
        rewrite Hk in Hkeep. discriminate.
    + intros k v Hin Hk. apply dict_get_update_kept; try assumption.
      cbv beta. now rewrite Hk.
    + intros k v Hin. apply in_update in Hin as [Hin | [Hkeep Hin]].
      * now left.
      * right. split; [assumption|]. now apply negb_true_iff.
Qed.

Lemma forwarded_headers_witness :
  NoDup (keys (headers custom_request)) /\
  c_headers (call_of Generic custom_request "https://api.example.com/items")
  = [("X-Custom", "1")].
Proof.
  split; [nodup_keys|].
  refine (proj1 (forwarded_headers plain_library REGEX_PATTERNS answer_ok
                   custom_request
                   (call_of Generic custom_request
                            "https://api.example.com/items") _) _).
  - nodup_keys.
  - vm_compute. left. reflexivity.
Defined.

(** C6 as stated fails on the OData route: the inbound Accept header is not
    one of the four, yet it is not sent, and three headers are sent that
    were not inbound. *)
Lemma odata_headers_counterexample :
  NoDup (keys (headers accept_request)) /\
  map c_headers
      (snd (odata_proxy_function plain_library REGEX_PATTERNS answer_ok
                                 accept_request))
  = [odata_defaults] /\
  filter (forwarded_header hop_by_hop) (headers accept_request)
  = [("Accept", "text/html")] /\
  odata_defaults <> [("Accept", "text/html")].
Proof.
  split; [nodup_keys|]. repeat split; try reflexivity. discriminate.
Qed.




(** the headers of that call: the forced three, then what is left of the
    inbound ones, the request's own odata-version among them *)
Example version_request_headers :
  map c_headers
      (snd (odata_proxy_function plain_library REGEX_PATTERNS answer_ok
                                 version_request))
  = [[("Accept", "application/json;odata.metadata=minimal");
      ("Content-Type", "application/json");
      ("OData-Version", "4.0");
      ("odata-version", "3.0");
      ("x-custom", "1")]].
Proof. reflexivity. Qed.

(** * Query strings *)

(** ** [quote_plus] is the character-wise encoding *)

Lemma replace_space_cons a r :
  Text.replace " " "+" (String a r)
  = (if (a =? " ")%char then "+" else String a EmptyString)
    ++ Text.replace " " "+" r.
Proof.
  unfold Text.replace. cbn [Text.replace_from String.prefix].
  destruct (ascii_dec " " a) as [<-|Ha].
  - now destruct r.
  - replace (a =? " ")%char with false; [reflexivity|].
    symmetry. apply Ascii.eqb_neq. congruence.
Qed.

Lemma replace_space_append a b :
  Text.replace " " "+" (a ++ b)
  = Text.replace " " "+" a ++ Text.replace " " "+" b.
Proof.
  induction a as [|x a IH]; [reflexivity|].
  change (String x a ++ b) with (String x (a ++ b)).
  now rewrite !replace_space_cons, IH, append_assoc.
Qed.

Lemma quote_char_space c :
  Text.replace " " "+" (UrlEncode.quote_char " " c) = spec_encode_char c.
Proof.
  destruct c as [[] [] [] [] [] [] [] []]; vm_compute; reflexivity.
Qed.

Lemma quote_char_plain c :
  (c =? " ")%char = false ->
  UrlEncode.quote_char EmptyString c = spec_encode_char c.
Proof.
  intros Hc. unfold UrlEncode.quote_char, spec_encode_char.
  simpl. rewrite orb_false_r, Hc. reflexivity.
Qed.

Lemma quote_plus_spec s : UrlEncode.quote_plus s = spec_encode s.
Proof.
  unfold UrlEncode.quote_plus.
  destruct (Text.contains " " s) eqn:Hs.
  - clear Hs. induction s as [|c s IH]; [reflexivity|].
    simpl. now rewrite replace_space_append, quote_char_space, IH.
  - induction s as [|c s IH]; [reflexivity|].
    simpl in Hs. apply orb_false_elim in Hs as [Hc Hs].
    simpl. now rewrite quote_char_plain, IH.
Qed.

Lemma urlencode_spec (l : list (string * string)) :
  UrlEncode.urlencode l = Text.join "&" (map spec_pair l).
Proof.
  unfold UrlEncode.urlencode. f_equal. apply map_ext.
  intros [k v]. unfold spec_pair. simpl. now rewrite !quote_plus_spec.
Qed.

Lemma merge_query_spec target l : merge_query target l = spec_merge target l.
Proof.
  destruct l as [|kv l]; [reflexivity|].
  unfold merge_query, spec_merge. now rewrite urlencode_spec.
Qed.

(** ** The names in an encoded query *)

Lemma spec_encode_char_clean c :
  Text.contains "&" (spec_encode_char c) = false /\
  Text.contains "=" (spec_encode_char c) = false.
Proof.
  destruct c as [[] [] [] [] [] [] [] []]; vm_compute; split; reflexivity.
Qed.

Lemma spec_encode_clean s :
  Text.contains "&" (spec_encode s) = false /\
  Text.contains "=" (spec_encode s) = false.
Proof.
  induction s as [|c s [IH1 IH2]]; [now split|].
  simpl. rewrite !contains_append, IH1, IH2.
  destruct (spec_encode_char_clean c) as [-> ->]. now split.
Qed.

Lemma spec_pair_clean kv : Text.contains "&" (spec_pair kv) = false.
Proof.
  unfold spec_pair. rewrite !contains_append.
  destruct (spec_encode_clean (fst kv)) as [-> _].
  destruct (spec_encode_clean (snd kv)) as [-> _]. reflexivity.
Qed.

Lemma before_append x a b :
  Text.contains x a = false ->
  Text.before x (a ++ String x b) = a.
Proof.
  induction a as [|c a IH]; simpl.
  - now rewrite Ascii.eqb_refl.
  - intros H. apply orb_false_elim in H as [Hc H].
    rewrite Hc. now rewrite IH.
Qed.

Lemma before_spec_pair kv : Text.before "=" (spec_pair kv) = spec_encode (fst kv).
Proof.
  unfold spec_pair. apply before_append. apply spec_encode_clean.
Qed.

Lemma split_clean sep s :
  Text.contains sep s = false -> Text.split sep s = [s].
Proof.
  induction s as [|c s IH]; [reflexivity|].
  simpl. intros H. apply orb_false_elim in H as [Hc H].
  now rewrite Hc, IH.
Qed.

Lemma split_append sep a b :
  Text.contains sep a = false ->
  Text.split sep (a ++ String sep b) = a :: Text.split sep b.
Proof.
  induction a as [|c a IH]; simpl.
  - now rewrite Ascii.eqb_refl.
  - intros H. apply orb_false_elim in H as [Hc H].
    now rewrite Hc, IH.
Qed.

Lemma split_join (l : list string) :
  l <> [] ->
  (forall x, In x l -> Text.contains "&" x = false) ->
  Text.split "&" (Text.join "&" l) = l.
Proof.
  induction l as [|x l IH]; [congruence|].
  intros _ H. destruct l as [|y l].
  - simpl. apply split_clean. apply H. now left.
  - change (Text.join "&" (x :: y :: l))
      with (x ++ String "&" (Text.join "&" (y :: l))).
    rewrite split_append by (apply H; now left).
    rewrite IH; [reflexivity | discriminate |].
    intros z Hz. apply H. now right.
Qed.

Lemma query_names_urlencode (l : list (string * string)) :
  l <> [] ->
  query_names (UrlEncode.urlencode l) = map (fun kv => spec_encode (fst kv)) l.
Proof.
  intros Hl. unfold query_names. rewrite urlencode_spec, split_join.
  - rewrite map_map. apply map_ext. intros kv. apply before_spec_pair.
  - destruct l; [congruence | discriminate].
  - intros x Hx. apply in_map_iff in Hx as (kv & <- & _).
    apply spec_pair_clean.
Qed.

(** A text of unreserved characters is the encoding of itself only. *)
Lemma spec_encode_safe_inv (k : string) : forall t,
  Text.forall_chars UrlEncode.always_safe t = true ->
  spec_encode k = t -> k = t.
Proof.
  induction k as [|c k IH]; intros t Ht; simpl.
  - now intros <-.
  - unfold spec_encode_char.
    destruct (UrlEncode.always_safe c) eqn:Hc.
    + simpl. intros <-. simpl in Ht. apply andb_true_iff in Ht as [_ Ht].
      f_equal. now apply IH.
    + intros E. exfalso. destruct t as [|x t].
      * destruct (c =? " ")%char; [discriminate|].
        unfold UrlEncode.utf8 in E.
        destruct (Text.code c <? 128)%nat; discriminate.
      * simpl in Ht. apply andb_true_iff in Ht as [Hx _].
        destruct (c =? " ")%char.
        -- injection E as <- _. discriminate.
        -- unfold UrlEncode.utf8 in E.
           destruct (Text.code c <? 128)%nat; injection E as <- _;
             discriminate.
Qed.

Lemma scheme_key_safe :
  Text.forall_chars UrlEncode.always_safe PROXY_SCHEME = true.
Proof. reflexivity. Qed.

(** ** The scheme override in the outbound query *)

Lemma generic_query_params_keys req k :
  In k (keys (query_params_of Generic req)) ->
  k <> PROXY_SCHEME /\ In k (keys (params req)).
Proof.
  intros H. apply in_keys_update in H as [[] | [Hk Hin]].
  split; [|assumption]. intros ->. discriminate.
Qed.

Lemma generic_query_params_nodup req :
  NoDup (keys (params req)) ->
  query_params_of Generic req = filter not_scheme_key (params req).
Proof. intros H. now apply dict_update_if_empty. Qed.

Lemma odata_query_params_nodup req :
  NoDup (keys (params req)) -> query_params_of OData req = params req.
Proof.
  intros H. unfold query_params_of. rewrite dict_update_if_empty by assumption.
  induction (params req) as [|kv l IH]; [reflexivity|].
  simpl. f_equal. apply IH. now inversion H.
Qed.

(** C2, amended.  On the generic route the URL of the call is the resolved
    target merged with a mapping that has no [__proxy_scheme] key and only
    keys of the inbound query, so that no parameter of the appended query
    string bears that name.  On the OData route the key is like any other:
    the whole inbound query is merged. *)
Theorem scheme_parameter_forwarding lib R rr req call :
  (In call (snd (proxy_function lib R rr req)) ->
   exists endpoint target_url query_params,
     endpoint_of req = Some endpoint /\
     resolve_target endpoint (scheme_override_of req) = inl target_url /\
     c_url call = merge_query target_url query_params /\
     ~ In PROXY_SCHEME (keys query_params) /\
     (forall k, In k (keys query_params) -> In k (keys (params req))) /\
     (query_params <> [] ->
      ~ In PROXY_SCHEME (query_names (UrlEncode.urlencode query_params)))) /\
  (In call (snd (odata_proxy_function lib R rr req)) ->
   NoDup (keys (params req)) ->
   exists endpoint,
     endpoint_of req = Some endpoint /\
     c_url call = merge_query (odata_target endpoint) (params req)).
Proof.
  split.
  - intros H. apply (calls_of_handler lib R rr Generic) in H
      as (e & t & He & _ & Ht & _ & -> & _).
    exists e, t, (query_params_of Generic req).
    assert (Hno : ~ In PROXY_SCHEME (keys (query_params_of Generic req))).
    { intros H. now apply generic_query_params_keys in H as [H _]. }
    repeat split; try assumption.
    + intros k Hk. now apply generic_query_params_keys in Hk.
    + intros Hne Hin. rewrite query_names_urlencode in Hin by assumption.
      apply in_map_iff in Hin as ([k v] & E & Hin). simpl in E.
      apply spec_encode_safe_inv in E; [|apply scheme_key_safe].
      subst k. apply Hno. apply in_map_iff. now exists (PROXY_SCHEME, v).
  - intros H Hnd. apply (calls_of_handler lib R rr OData) in H
      as (e & t & He & _ & Ht & _ & -> & _).
    exists e. split; [assumption|].
    injection Ht as <-. unfold call_of. cbn [c_url].
    now rewrite odata_query_params_nodup.
Qed.

Lemma scheme_parameter_forwarding_witness :
  exists endpoint target_url query_params,
    endpoint_of override_request = Some endpoint /\
    resolve_target endpoint (scheme_override_of override_request)
    = inl target_url /\
    c_url (call_of Generic override_request "http://api.example.com/items")
    = merge_query target_url query_params /\
    ~ In PROXY_SCHEME (keys query_params) /\
    (forall k, In k (keys query_params) ->
               In k (keys (params override_request))) /\
    (query_params <> [] ->
     ~ In PROXY_SCHEME (query_names (UrlEncode.urlencode query_params))).
Proof.
  refine (proj1 (scheme_parameter_forwarding plain_library REGEX_PATTERNS
                   answer_ok override_request _) _).
  vm_compute. left. reflexivity.
Defined.

(** C2 as stated fails on the OData route: the parameter is in the query
    string of the URL that is called. *)
Lemma odata_scheme_counterexample :
  map c_url
      (snd (odata_proxy_function plain_library REGEX_PATTERNS answer_ok
                                 scheme_request))
  = ["https://services.odata.org/V4/People?__proxy_scheme=http"] /\
  query_names
    (Text.after "?" "https://services.odata.org/V4/People?__proxy_scheme=http")
  = [PROXY_SCHEME].
Proof. split; reflexivity. Qed.

(** what the endpoint itself carries after a question mark is part of the
    target and is not touched by the filter *)
Example embedded_scheme_example :
  map c_url
      (snd (proxy_function plain_library REGEX_PATTERNS answer_ok
              (mkRequest "GET"
                         [("endpoint", "api.example.com/items?__proxy_scheme=ftp")]
                         [("page", "2")] [] (BodyBytes EmptyString))))
  = ["https://api.example.com/items?__proxy_scheme=ftp&page=2"].
Proof. reflexivity. Qed.

(** ** The merge *)

(** the spec's two examples of a merge *)
Example merge_examples :
  merge_query "https://x.com" [("a", "1")] = "https://x.com?a=1" /\
  merge_query "https://x.com?b=2" [("a", "1")] = "https://x.com?b=2&a=1".
Proof. split; reflexivity. Qed.

(** C4, amended.  The URL called is the target followed by the encoded
    parameters, after [&] when the target has a [?] and after [?]
    otherwise, each parameter as [name=value] in the character-wise
    percent-encoding and the parameters joined by [&]: on the generic
    route the inbound parameters but [__proxy_scheme], on the OData route
    all inbound parameters.  A parameter whose name the target already has
    is appended all the same, so both occurrences are in the URL. *)
Theorem query_merge lib R rr req call :
  NoDup (keys (params req)) ->
  (In call (snd (proxy_function lib R rr req)) ->
   exists endpoint target_url,
     endpoint_of req = Some endpoint /\
     resolve_target endpoint (scheme_override_of req) = inl target_url /\
     c_url call
     = spec_merge target_url (filter not_scheme_key (params req))) /\
  (In call (snd (odata_proxy_function lib R rr req)) ->
   exists endpoint,
     endpoint_of req = Some endpoint /\
     c_url call = spec_merge (odata_target endpoint) (params req)) /\
  (forall base k v0 v1,
     merge_query (base ++ "?" ++ spec_pair (k, v0)) [(k, v1)]
     = base ++ "?" ++ spec_pair (k, v0) ++ "&" ++ spec_pair (k, v1)).
Proof.
  intros Hnd. split; [|split].
  - intros H. apply (calls_of_handler lib R rr Generic) in H
      as (e & t & He & _ & Ht & _ & -> & _).
    exists e, t. repeat split; try assumption.
    unfold call_of. cbn [c_url].
    now rewrite merge_query_spec, generic_query_params_nodup.
  - intros H. apply (calls_of_handler lib R rr OData) in H
      as (e & t & He & _ & Ht & _ & -> & _).
    exists e. split; [assumption|]. injection Ht as <-.
    unfold call_of. cbn [c_url].
    now rewrite merge_query_spec, odata_query_params_nodup.
  - intros base k v0 v1. rewrite merge_query_spec. unfold spec_merge.
    rewrite contains_append. simpl Text.contains at 2.
    rewrite orb_true_r. cbn [map Text.join].
    now rewrite !append_assoc.
Qed.

Lemma query_merge_witness :
  NoDup (keys (params override_request)) /\
  c_url (call_of Generic override_request "http://api.example.com/items")
  = "http://api.example.com/items?q=a+b&page=2".
Proof.
  split; [nodup_keys|].
  destruct (proj1 (query_merge plain_library REGEX_PATTERNS answer_ok
                     override_request
                     (call_of Generic override_request
                              "http://api.example.com/items")
                     ltac:(nodup_keys))
                  ltac:(vm_compute; left; reflexivity))
    as (e & t & He & Ht & ->).
  vm_compute in He. injection He as <-.
  vm_compute in Ht. injection Ht as <-.
  reflexivity.
Defined.

(** C4 as stated fails on the OData route: the scheme-override key is
    appended with the other parameter. *)
Lemma odata_merge_counterexample :
  NoDup (keys (params scheme_and_filter_request)) /\
  map c_url
      (snd (odata_proxy_function plain_library REGEX_PATTERNS answer_ok
                                 scheme_and_filter_request))
  = ["https://services.odata.org/V4/People?__proxy_scheme=http&%24top=1"] /\
  spec_merge "https://services.odata.org/V4/People"
             (filter not_scheme_key (params scheme_and_filter_request))
  = "https://services.odata.org/V4/People?%24top=1".
Proof. split; [nodup_keys|]. split; reflexivity. Qed.

(** * Target resolution *)

Lemma prefix_append a b : String.prefix a (a ++ b) = true.
Proof.
  induction a as [|c a IH]; simpl; [now destruct b|].
  destruct (ascii_dec c c); [assumption | congruence].
Qed.

Lemma startswith_merge target qp :
  Text.startswith (merge_query target qp) target = true.
Proof.
  unfold Text.startswith, merge_query. destruct qp.
  - rewrite <- (append_nil_r target) at 2. apply prefix_append.
  - apply prefix_append.
Qed.

Lemma https_merge endpoint qp :
  Text.startswith (merge_query ("https://" ++ endpoint) qp) "https://" = true.
Proof.
  unfold Text.startswith, merge_query. destruct qp.
  - apply prefix_append.
  - rewrite append_assoc. apply prefix_append.
Qed.

Lemma respond_raise_status lib rt e :
  status_code (respond lib rt (Raise e)) <> 400.
Proof. destruct rt, e; simpl; discriminate. Qed.

(** With an endpoint and a resolved target, a handler that makes no call
    answers 403 or 500, never 400. *)
Lemma no_call_status lib R rr rt req endpoint target_url :
  endpoint_of req = Some endpoint -> endpoint <> EmptyString ->
  target_of rt req endpoint = inl target_url ->
  snd (handler lib R rr rt req) = [] ->
  status_code (fst (handler lib R rr rt req)) <> 400.
Proof.
  intros He Hne Ht. rewrite handler_cases, He.
  destruct endpoint as [|a e]; [congruence|]. rewrite Ht.
  destruct (is_allowed lib R target_url) as [[|]|ex]; simpl.
  - discriminate.
  - discriminate.
  - intros _. apply respond_raise_status.
Qed.

(** C3, amended.  For a request with a non-empty endpoint on the generic
    route: an endpoint that starts with [http://] or [https://] is the
    target; otherwise a non-empty override that is http or https up to case
    gives [scheme://endpoint] with the scheme in lower case; otherwise a
    non-empty override of any other value makes the handler answer 400
    without a call; otherwise (no override, or an empty one) the target is
    [https://endpoint].  A resolved target is what the allowlist is asked
    about and what the URL of the call starts with. *)
Theorem target_resolution lib R rr req endpoint :
  endpoint_of req = Some endpoint ->
  endpoint <> EmptyString ->
  (explicit_scheme endpoint = true ->
   resolve_target endpoint (scheme_override_of req) = inl endpoint) /\
  (explicit_scheme endpoint = false ->
   forall s, scheme_override_of req = Some s -> s <> EmptyString ->
   (Text.lower s = "http" \/ Text.lower s = "https" ->
    resolve_target endpoint (scheme_override_of req)
    = inl (Text.lower s ++ "://" ++ endpoint)) /\
   (Text.lower s <> "http" -> Text.lower s <> "https" ->
    exists msg,
      proxy_function lib R rr req = (error_response 400 msg, []))) /\
  (explicit_scheme endpoint = false ->
   scheme_override_of req = None \/ scheme_override_of req = Some EmptyString ->
   resolve_target endpoint (scheme_override_of req)
   = inl ("https://" ++ endpoint)) /\
  (forall target_url,
   resolve_target endpoint (scheme_override_of req) = inl target_url ->
   (is_allowed lib R target_url = Ok false ->
    proxy_function lib R rr req
    = (error_response 403 ("Endpoint not allowed: " ++ target_url), [])) /\
   (forall call, In call (snd (proxy_function lib R rr req)) ->
                 Text.startswith (c_url call) target_url = true)).
Proof.
  intros He Hne. unfold explicit_scheme. repeat split.
  - intros Hx. unfold resolve_target. now rewrite Hx.
  - intros [E | E]; unfold resolve_target; rewrite H, H0;
      destruct s as [|a s]; try congruence; rewrite E; reflexivity.
  - intros H2 H3.
    change (proxy_function lib R rr req) with (handler lib R rr Generic req).
    rewrite handler_cases, He.
    destruct endpoint as [|a e]; [congruence|].
    unfold target_of, resolve_target. rewrite H, H0.
    destruct s as [|b s]; [congruence|].
    replace (mem (Text.lower (String b s)) ["http"; "https"]) with false.
    + eexists. reflexivity.
    + symmetry. unfold mem. cbn [existsb].
      apply String.eqb_neq in H2, H3. now rewrite H2, H3.
  - intros Hx [E | E]; unfold resolve_target; rewrite Hx, E; reflexivity.
  - intros Hf.
    change (proxy_function lib R rr req) with (handler lib R rr Generic req).
    rewrite handler_cases, He.
    destruct endpoint as [|a e]; [congruence|].
    unfold target_of. now rewrite H, Hf.
  - intros call Hin. apply (calls_of_handler lib R rr Generic) in Hin
      as (e & t & He' & _ & Ht & _ & -> & _).
    rewrite He in He'. injection He' as <-. unfold target_of in Ht.
    rewrite H in Ht. injection Ht as <-.
    apply startswith_merge.
Qed.

Lemma target_resolution_witness :
  endpoint_of override_request = Some "api.example.com/items" /\
  resolve_target "api.example.com/items" (scheme_override_of override_request)
  = inl "http://api.example.com/items".
Proof.
  split; [reflexivity|].
  refine (proj1 (proj1 (proj2 (target_resolution plain_library
                                 REGEX_PATTERNS answer_ok override_request
                                 (endpoint := "api.example.com/items") _ _))
                       _ "HTTP" _ _) _).
  - reflexivity.
  - discriminate.
  - reflexivity.
  - reflexivity.
  - discriminate.
  - left. reflexivity.
Defined.

(** the spec's three examples of a resolution *)
Example resolve_examples :
  resolve_target "api.example.com" None = inl "https://api.example.com" /\
  resolve_target "http://api.example.com" (Some "https")
  = inl "http://api.example.com" /\
  exists msg,
    resolve_target "api.example.com" (Some "ftp")
    = inr (error_response 400 msg).
Proof. repeat split. eexists. reflexivity. Qed.

(** C3 as stated fails on an override that is present and empty: it is
    neither http nor https, yet the handler does not answer 400; it calls
    the https target. *)
Lemma empty_override_counterexample :
  scheme_override_of empty_override_request = Some EmptyString /\
  map c_url
      (snd (proxy_function plain_library REGEX_PATTERNS answer_ok
                           empty_override_request))
  = ["https://api.example.com"] /\
  status_code
    (fst (proxy_function plain_library REGEX_PATTERNS answer_ok
                         empty_override_request))
  = 200.
Proof. repeat split. Qed.

(** * The scheme override on the OData route, and an empty override *)

Lemma odata_target_default endpoint :
  explicit_scheme endpoint = false ->
  odata_target endpoint = "https://" ++ endpoint.
Proof. unfold explicit_scheme, odata_target. now intros ->. Qed.

(** C9.  On the OData route a request with a non-empty endpoint that does
    not start with [http://] or [https://] has the target
    [https://endpoint], whatever its query holds: that is the text the
    allowlist is asked about, every call goes to a URL that starts with it
    and verifies certificates, a target the allowlist lets through is
    called, and when no call is made the answer is not a 400. *)
Theorem odata_ignores_scheme_override lib R rr req endpoint :
  endpoint_of req = Some endpoint ->
  endpoint <> EmptyString ->
  explicit_scheme endpoint = false ->
  target_of OData req endpoint = inl ("https://" ++ endpoint) /\
  (forall call, In call (snd (odata_proxy_function lib R rr req)) ->
     Text.startswith (c_url call) ("https://" ++ endpoint) = true /\
     Text.startswith (c_url call) "https://" = true /\
     c_verify call = true) /\
  (is_allowed lib R ("https://" ++ endpoint) = Ok true ->
   exists call, snd (odata_proxy_function lib R rr req) = [call]) /\
  (is_allowed lib R ("https://" ++ endpoint) = Ok false ->
   odata_proxy_function lib R rr req
   = (error_response 403
        ("OData endpoint not allowed: " ++ "https://" ++ endpoint), [])) /\
  (snd (odata_proxy_function lib R rr req) = [] ->
   status_code (fst (odata_proxy_function lib R rr req)) <> 400).
Proof.
  intros He Hne Hx.
  assert (Ht : target_of OData req endpoint = inl ("https://" ++ endpoint)).
  { unfold target_of. now rewrite odata_target_default. }
  change (odata_proxy_function lib R rr req)
    with (handler lib R rr OData req).
  split; [assumption|]. split; [|split; [|split]].
  - intros call Hin. apply calls_of_handler in Hin
      as (e & t & He' & _ & Ht' & _ & -> & _).
    rewrite He in He'. injection He' as <-.
    rewrite Ht in Ht'. injection Ht' as <-.
    unfold call_of. cbn [c_url c_verify].
    split; [apply startswith_merge|].
    split; apply https_merge.
  - intros Ha. rewrite handler_cases, He.
    destruct endpoint as [|a e]; [congruence|].
    rewrite Ht, Ha. eexists. reflexivity.
  - intros Ha. rewrite handler_cases, He.
    destruct endpoint as [|a e]; [congruence|].
    rewrite Ht, Ha. reflexivity.
  - now apply no_call_status with (endpoint := endpoint)
                                  (target_url := "https://" ++ endpoint).
Qed.

Lemma odata_ignores_scheme_override_witness :
  scheme_override_of odata_ftp_request = Some "ftp" /\
  map c_url (snd (odata_proxy_function plain_library REGEX_PATTERNS
                                       answer_ok odata_ftp_request))
  = ["https://services.odata.org/V4/People?__proxy_scheme=ftp"] /\
  target_of OData odata_ftp_request "services.odata.org/V4/People"
  = inl "https://services.odata.org/V4/People".
Proof.
  split; [reflexivity|]. split; [reflexivity|].
  refine (proj1 (odata_ignores_scheme_override plain_library REGEX_PATTERNS
                   answer_ok odata_ftp_request
                   (endpoint := "services.odata.org/V4/People") _ _ _)).
  - reflexivity.
  - discriminate.
  - reflexivity.
Defined.

Lemma dict_get_without_key d :
  dict_get (filter not_scheme_key d) PROXY_SCHEME = None.
Proof.
  apply dict_get_not_in. intros H. apply in_map_iff in H as ([k v] & E & H).
  apply filter_In in H as [_ H]. simpl in E. subst k. discriminate.
Qed.

Lemma update_without_key (items : list (string * string)) : forall d,
  dict_update_if (fun k => negb (String.eqb k PROXY_SCHEME)) d
                 (filter not_scheme_key items)
  = dict_update_if (fun k => negb (String.eqb k PROXY_SCHEME)) d items.
Proof.
  unfold dict_update_if, not_scheme_key.
  induction items as [|[k v] items IH]; intros d; [reflexivity|].
  simpl. destruct (negb (String.eqb k PROXY_SCHEME)) eqn:Hk; simpl.
  - rewrite Hk. apply IH.
  - apply IH.
Qed.

Lemma resolve_empty_override endpoint :
  resolve_target endpoint (Some EmptyString) = resolve_target endpoint None.
Proof. reflexivity. Qed.

(** C10.  A generic request whose [__proxy_scheme] is the empty text is
    answered, and forwarded, exactly as the same request without the
    parameter.  When its endpoint is non-empty and names no scheme the
    target is [https://endpoint], every call goes there with certificate
    verification, and an answer given without a call is not a 400. *)
Theorem empty_override_is_absent lib R rr req :
  scheme_override_of req = Some EmptyString ->
  scheme_override_of (without_scheme req) = None /\
  proxy_function lib R rr req = proxy_function lib R rr (without_scheme req) /\
  (forall endpoint,
     endpoint_of req = Some endpoint -> endpoint <> EmptyString ->
     explicit_scheme endpoint = false ->
     resolve_target endpoint (scheme_override_of req)
     = inl ("https://" ++ endpoint) /\
     (forall call, In call (snd (proxy_function lib R rr req)) ->
        Text.startswith (c_url call) ("https://" ++ endpoint) = true /\
        c_verify call = true) /\
     (snd (proxy_function lib R rr req) = [] ->
      status_code (fst (proxy_function lib R rr req)) <> 400)).
Proof.
  intros Hso. split; [apply dict_get_without_key|]. split.
  - change (proxy_function lib R rr) with (handler lib R rr Generic).
    rewrite !handler_cases.
    change (endpoint_of (without_scheme req)) with (endpoint_of req).
    destruct (endpoint_of req) as [[|a e]|]; try reflexivity.
    assert (Ht : target_of Generic (without_scheme req) (String a e)
                 = target_of Generic req (String a e)).
    { unfold target_of. rewrite Hso.
      unfold scheme_override_of, without_scheme. cbn [params].
      rewrite dict_get_without_key. reflexivity. }
    rewrite Ht.
    destruct (target_of Generic req (String a e)) as [t|resp];
      [|reflexivity].
    assert (Hc : call_of Generic (without_scheme req) t
                 = call_of Generic req t).
    { unfold call_of, query_params_of, headers_of, body_of, read_body,
        without_scheme.
      cbn [params method headers get_body].
      now rewrite update_without_key. }
    now rewrite Hc.
  - intros endpoint He Hne Hx.
    assert (Ht : resolve_target endpoint (scheme_override_of req)
                 = inl ("https://" ++ endpoint)).
    { unfold explicit_scheme in Hx. unfold resolve_target.
      now rewrite Hx, Hso. }
    split; [assumption|].
    change (proxy_function lib R rr req) with (handler lib R rr Generic req).
    split.
    + intros call Hin. apply calls_of_handler in Hin
        as (e & t & He' & _ & Ht' & _ & -> & _).
      rewrite He in He'. injection He' as <-.
      unfold target_of in Ht'. rewrite Ht in Ht'. injection Ht' as <-.
      unfold call_of. cbn [c_url c_verify].
      split; [apply startswith_merge | apply https_merge].
    + now apply no_call_status with (endpoint := endpoint)
                                    (target_url := "https://" ++ endpoint).
Qed.

Lemma empty_override_is_absent_witness :
  scheme_override_of empty_override_request = Some EmptyString /\
  proxy_function plain_library REGEX_PATTERNS answer_ok
                 empty_override_request
  = proxy_function plain_library REGEX_PATTERNS answer_ok
                   (without_scheme empty_override_request).
Proof.
  split; [reflexivity|].
  refine (proj1 (proj2 (empty_override_is_absent plain_library
                          REGEX_PATTERNS answer_ok empty_override_request _))).
  reflexivity.
Defined.

(** * The body that is forwarded *)

(** C8.  A request with a non-empty endpoint whose target resolves and
    passes the allowlist is forwarded with one call, whatever reading its
    body gives.  The method sent is the request's in upper case; the data
    sent is what [get_body] gave when that method is POST, PUT or PATCH on
    the generic route, POST on the OData route, and nothing for any other
    method.  A read that fails leaves the data absent: the call is made
    all the same, and the answer is the one to the call, not an error about
    the body.  Whatever the read gives, the same call but for its data is
    made. *)
Theorem forwarded_body lib R rr rt req endpoint target_url :
  endpoint_of req = Some endpoint ->
  endpoint <> EmptyString ->
  target_of rt req endpoint = inl target_url ->
  is_allowed lib R target_url = Ok true ->
  exists call,
    snd (handler lib R rr rt req) = [call] /\
    c_method call = Text.upper (method req) /\
    (mem (c_method call) (body_methods rt) = false -> c_data call = None) /\
    (forall b, get_body req = BodyBytes b ->
               mem (c_method call) (body_methods rt) = true ->
               c_data call = Some b) /\
    (forall msg, get_body req = BodyRaises msg ->
       c_data call = None /\
       (forall r response,
          rr call = Ok r -> relay lib r = Ok response ->
          fst (handler lib R rr rt req) = response) /\
       (forall m, rr call = Raise (RequestException m) ->
          status_code (fst (handler lib R rr rt req)) = 502)) /\
    (forall outcome,
     exists call',
       snd (handler lib R rr rt (with_body req outcome)) = [call'] /\
       c_method call' = c_method call /\ c_url call' = c_url call /\
       c_headers call' = c_headers call /\ c_verify call' = c_verify call).
Proof.
  intros He Hne Ht Ha.
  assert (Hh : forall req',
            endpoint_of req' = endpoint_of req ->
            target_of rt req' endpoint = target_of rt req endpoint ->
            handler lib R rr rt req'
            = (respond lib rt (rr (call_of rt req' target_url)),
               [call_of rt req' target_url])).
  { intros req' He' Ht'. rewrite handler_cases, He', He.
    destruct endpoint as [|a e]; [congruence|]. now rewrite Ht', Ht, Ha. }
  exists (call_of rt req target_url).
  rewrite (Hh req eq_refl eq_refl). cbn [fst snd].
  assert (Hm : c_method (call_of rt req target_url) = Text.upper (method req))
    by reflexivity.
  assert (Hd : c_data (call_of rt req target_url) = body_of rt req)
    by reflexivity.
  rewrite Hm, Hd. unfold body_of.
  split; [reflexivity|]. split; [reflexivity|]. split; [now intros ->|].
  split; [|split].
  - intros b Hb ->. unfold read_body. now rewrite Hb.
  - intros msg Hb. split; [|split].
    + unfold read_body. rewrite Hb. now destruct (mem _ _).
    + intros r response ->. apply respond_ok.
    + intros m ->. now destruct rt.
  - intros outcome. exists (call_of rt (with_body req outcome) target_url).
    split.
    + rewrite Hh; [reflexivity | reflexivity | now destruct rt].
    + destruct rt; repeat split.
Qed.

Lemma forwarded_body_witness :
  get_body unreadable_post = BodyRaises "stream closed" /\
  exists call,
    snd (handler plain_library REGEX_PATTERNS answer_ok Generic
                 unreadable_post) = [call] /\
    c_method call = "POST" /\ c_data call = None.
Proof.
  split; [reflexivity|].
  destruct (@forwarded_body plain_library REGEX_PATTERNS answer_ok Generic
              unreadable_post "api.example.com/items"
              "https://api.example.com/items"
              eq_refl ltac:(discriminate) eq_refl eq_refl)
    as (call & Hs & Hm & _ & _ & Hr & _).
  exists call. split; [exact Hs|]. split; [exact Hm|].
  exact (proj1 (Hr "stream closed" eq_refl)).
Defined.

(** * Error responses *)

Lemma check_brackets_raise lib netloc e :
  UrlParse.check_brackets lib netloc = Raise e -> exists m, e = OtherException m.
Proof.
  unfold UrlParse.check_brackets.
  destruct (_ || _).
  - intros H. injection H as <-. eauto.
  - destruct (_ && _); [|discriminate].
    destruct (bracket_error lib _); [|discriminate].
    intros H. injection H as <-. eauto.
Qed.

Lemma checknetloc_raise lib netloc e :
  UrlParse.checknetloc lib netloc = Raise e -> exists m, e = OtherException m.
Proof.
  unfold UrlParse.checknetloc. destruct (_ || _); [discriminate|].
  destruct (nfkc_error lib _); [|discriminate].
  intros H. injection H as <-. eauto.
Qed.

Lemma urlsplit_raise lib url e :
  UrlParse.urlsplit lib url = Raise e -> exists m, e = OtherException m.
Proof.
  unfold UrlParse.urlsplit.
  destruct (UrlParse.split_scheme _) as [sch rest].
  destruct (Text.startswith rest "//").
  - destruct (UrlParse.check_brackets lib _) as [u|e'] eqn:E.
    + simpl. destruct (Text.contains "#" _); destruct (Text.contains "?" _);
        (destruct (UrlParse.checknetloc lib _) as [u'|e'] eqn:E';
         simpl; [discriminate|]; intros H; injection H as <-;
         now apply checknetloc_raise in E').
    + simpl. intros H. injection H as <-.
      now apply check_brackets_raise in E.
  - simpl. destruct (Text.contains "#" _); destruct (Text.contains "?" _);
      discriminate.
Qed.

Lemma is_allowed_raise lib R url e :
  is_allowed lib R url = Raise e -> exists m, e = OtherException m.
Proof.
  unfold is_allowed, extract_domain, UrlParse.urlparse.
  destruct (UrlParse.urlsplit lib url) as [[[[[sch nl] pth] q] f]|e'] eqn:E.
  - simpl. destruct (_ && _); [destruct (UrlParse.splitparams _)|];
      discriminate.
  - simpl. intros H. injection H as <-. now apply urlsplit_raise in E.
Qed.

Lemma respond_other lib rt m :
  exists msg, respond lib rt (Raise (OtherException m)) = error_response 500 msg.
Proof. destruct rt; eexists; reflexivity. Qed.

Lemma respond_request lib rt m :
  exists msg, respond lib rt (Raise (RequestException m)) = error_response 502 msg.
Proof. destruct rt; eexists; reflexivity. Qed.

Lemma resolve_target_error endpoint so response :
  resolve_target endpoint so = inr response ->
  exists msg, response = error_response 400 msg.
Proof.
  unfold resolve_target. destruct (_ || _); [discriminate|].
  destruct so as [[|a s]|]; try discriminate.
  destruct (mem _ _); [discriminate|].
  intros H. injection H as <-. eexists. reflexivity.
Qed.

Lemma read_escaped_char c rest :
  read_string 0 (Json.escape_char c ++ rest)
  = match read_string 0 rest with
    | Some (d, after) => Some (String c d, after)
    | None => None
    end.
Proof.
  destruct c as [[] [] [] [] [] [] [] []]; reflexivity.
Qed.

Lemma read_escaped (s tail : string) :
  read_string 0 (Json.escape s ++ String Text.DQUOTE tail) = Some (s, tail).
Proof.
  induction s as [|c s IH].
  - cbn [Json.escape append read_string]. now rewrite Ascii.eqb_refl.
  - cbn [Json.escape]. now rewrite append_assoc, read_escaped_char, IH.
Qed.

Lemma drop_append a b : Text.drop (String.length a) (a ++ b) = b.
Proof. induction a as [|x a IH]; [now destruct b | exact IH]. Qed.

Lemma error_body_shape code msg :
  body (error_response code msg)
  = error_body_prefix ++ Json.escape msg ++ String Text.DQUOTE "}".
Proof.
  unfold error_response, Json.dumps_object1, Json.dumps_string,
    error_body_prefix.
  cbn [body]. cbn [Json.escape Json.escape_char]. simpl.
  now rewrite !append_assoc.
Qed.

Lemma read_error_response code msg :
  read_error_body (body (error_response code msg)) = Some msg.
Proof.
  rewrite error_body_shape. unfold read_error_body.
  now rewrite prefix_append, drop_append, read_escaped.
Qed.

(** C5.  Both handlers, cause by cause.  Without an endpoint: 400 and no
    call.  With an override the generic route rejects: 400 and no call.
    With a target the allowlist rejects: 403 and no call.  When the one
    call raises a [RequestException]: 502, and that call is the only one.
    When it raises anything else, when the allowlist check itself raises,
    or when the response to relay cannot be built from what the call
    returned: 500.  Every request gets one answer from at most one call:
    either one of these error responses or the relayed answer of the call.
    An error response is typed [application/json], has no headers, and its
    body reads back, as the JSON object with the one member [error], to
    the message. *)
Theorem error_responses lib R rr rt req :
  (endpoint_of req = None \/ endpoint_of req = Some EmptyString ->
   handler lib R rr rt req = (error_response 400 (missing_msg rt), [])) /\
  (forall endpoint,
     endpoint_of req = Some endpoint -> endpoint <> EmptyString ->
     (forall response,
        target_of rt req endpoint = inr response ->
        rt = Generic /\
        (exists msg, response = error_response 400 msg) /\
        handler lib R rr rt req = (response, [])) /\
     (forall target_url,
        target_of rt req endpoint = inl target_url ->
        (is_allowed lib R target_url = Ok false ->
         handler lib R rr rt req
         = (error_response 403 (rejected_msg rt target_url), [])) /\
        (forall e, is_allowed lib R target_url = Raise e ->
           exists msg,
             handler lib R rr rt req = (error_response 500 msg, [])) /\
        (is_allowed lib R target_url = Ok true ->
         exists call,
           snd (handler lib R rr rt req) = [call] /\
           (forall m, rr call = Raise (RequestException m) ->
              exists msg,
                fst (handler lib R rr rt req) = error_response 502 msg) /\
           (forall m, rr call = Raise (OtherException m) ->
              exists msg,
                fst (handler lib R rr rt req) = error_response 500 msg) /\
           (forall r, rr call = Ok r ->
              (forall response, relay lib r = Ok response ->
                 fst (handler lib R rr rt req) = response) /\
              (forall e, relay lib r = Raise e ->
                 exists msg,
                   fst (handler lib R rr rt req)
                   = error_response 500 msg))))) /\
  length (snd (handler lib R rr rt req)) <= 1 /\
  ((exists code msg,
      In code [400; 403; 502; 500] /\
      fst (handler lib R rr rt req) = error_response code msg) \/
   (exists call r response,
      snd (handler lib R rr rt req) = [call] /\ rr call = Ok r /\
      relay lib r = Ok response /\
      fst (handler lib R rr rt req) = response)) /\
  (forall code msg,
     read_error_body (body (error_response code msg)) = Some msg /\
     mimetype (error_response code msg) = "application/json" /\
     status_code (error_response code msg) = code /\
     resp_headers (error_response code msg) = []).
Proof.
  rewrite handler_cases. split; [|split; [|split; [|split]]].
  - intros [-> | ->]; reflexivity.
  - intros endpoint He Hne. rewrite He.
    destruct endpoint as [|a e]; [congruence|]. split.
    + intros response Ht. rewrite Ht. destruct rt; [|discriminate].
      repeat split. now apply resolve_target_error in Ht.
    + intros t Ht. rewrite Ht. split; [now intros ->|]. split.
      * intros ex Ha. rewrite Ha.
        apply is_allowed_raise in Ha as (m & ->).
        destruct (respond_other lib rt m) as (msg & ->). now exists msg.
      * intros ->. eexists. split; [reflexivity|]. cbn [fst].
        split; [|split].
        -- intros m ->. apply respond_request.
        -- intros m ->. apply respond_other.
        -- intros r ->. split.
           ++ intros response. apply respond_ok.
           ++ intros ex. apply respond_refused.
  - destruct (endpoint_of req) as [[|a e]|]; simpl; auto.
    destruct (target_of rt req _); simpl; auto.
    destruct (is_allowed lib R _) as [[|]|ex]; simpl; auto.
  - destruct (endpoint_of req) as [[|a e]|];
      try (left; exists 400; eexists; split; [simpl; tauto | reflexivity]).
    destruct (target_of rt req _) as [t|response] eqn:Ht.
    + destruct (is_allowed lib R t) as [[|]|ex] eqn:Ha.
      * destruct (rr (call_of rt req t)) as [r|[m|m]] eqn:Hr.
        -- destruct (relay lib r) as [response|ex] eqn:Hb.
           ++ right. exists (call_of rt req t), r, response. cbn [fst snd].
              repeat split; try assumption. now apply respond_ok.
           ++ left. exists 500.
              destruct (@respond_refused lib rt r ex Hb) as (msg & E).
              exists msg. cbn [fst]. split; [simpl; tauto | exact E].
        -- left. exists 502. destruct (respond_request lib rt m) as (msg & E).
           exists msg. cbn [fst]. split; [simpl; tauto | exact E].
        -- left. exists 500. destruct (respond_other lib rt m) as (msg & E).
           exists msg. cbn [fst]. split; [simpl; tauto | exact E].
      * left. exists 403. eexists. split; [simpl; tauto | reflexivity].
      * apply is_allowed_raise in Ha as (m & ->).
        left. exists 500. destruct (respond_other lib rt m) as (msg & E).
        exists msg. cbn [fst]. split; [simpl; tauto | exact E].
    + destruct rt; [|discriminate].
      apply resolve_target_error in Ht as (msg & ->).
      left. exists 400, msg. split; [simpl; tauto | reflexivity].
  - intros code msg. split; [apply read_error_response|]. repeat split.
Qed.

Lemma error_responses_witness :
  handler plain_library REGEX_PATTERNS answer_ok OData bare_request
  = (error_response 400 "No OData endpoint specified", []).
Proof.
  refine (proj1 (error_responses plain_library REGEX_PATTERNS answer_ok
                   OData bare_request) _).
  left. reflexivity.
Defined.

(** the spec's example of a rejection, on an allowlist of one host *)
Example rejection_example :
  forall R, compile_patterns ["api.example.com"] = Some R ->
  proxy_function plain_library R answer_ok
    (mkRequest "GET" [("endpoint", "evil.com/data")] [] []
               (BodyBytes EmptyString))
  = (error_response 403 "Endpoint not allowed: https://evil.com/data", []).
Proof. intros R H. vm_compute in H. injection H as <-. reflexivity. Qed.

(** an unbalanced bracket in the authority is the 500 of the generic route *)
Example bracket_example :
  proxy_function plain_library REGEX_PATTERNS answer_ok
    (mkRequest "GET" [("endpoint", "[::1/data")] [] [] (BodyBytes EmptyString))
  = (error_response 500 "Internal server error: Invalid IPv6 URL", []).
Proof. reflexivity. Qed.

(** * Beyond the claims: the relayed response *)

Lemma ci_get_found (d : dict) key default k v :
  NoDup (map Text.lower (keys d)) ->
  In (k, v) d -> Text.lower k = Text.lower key ->
  ci_get d key default = v.
Proof.
  induction d as [|[k0 v0] d IH]; intros Hnd Hin Hk; [easy|].
  simpl in Hnd. inversion Hnd as [|? ? Hk0 Hnd']; subst.
  simpl. destruct (String.eqb_spec (Text.lower k0) (Text.lower key)) as [E|E].
  - destruct Hin as [H | Hin]; [congruence|].
    exfalso. apply Hk0. rewrite E, <- Hk.
    apply in_map. apply in_map_iff. now exists (k, v).
  - destruct Hin as [H | Hin]; [congruence|]. now apply IH.
Qed.

Lemma ci_get_missing (d : dict) key default :
  (forall k, In k (keys d) -> Text.lower k <> Text.lower key) ->
  ci_get d key default = default.
Proof.
  induction d as [|[k0 v0] d IH]; intros H; [reflexivity|].
  simpl. destruct (String.eqb_spec (Text.lower k0) (Text.lower key)) as [E|E].
  - exfalso. apply (H k0); simpl; auto.
  - apply IH. intros k Hk. apply H. now right.
Qed.

Lemma refused_header_some lib headers k v :
  In (k, v) headers -> header_error lib k v <> None ->
  exists msg, refused_header lib headers = Some msg.
Proof.
  intros Hin Hk. destruct (refused_header lib headers) as [msg|] eqn:E;
    [now exists msg|].
  exfalso. apply Hk. now apply (proj1 (refused_header_none lib headers) E).
Qed.

(** X1.  When the call returns, the headers that are kept of the
    downstream response are all but content-encoding, content-length,
    transfer-encoding and connection (in any case).  When
    [func.HttpResponse] accepts each of them, the handler's answer has the
    status and the content of the downstream response as they are; its
    headers are the kept ones, in order and with their values; its content
    type is the downstream content-type header, which is looked up in any
    case, and application/json when there is none.  When it refuses one of
    them, the handler answers 500 after the call.  Header names of the
    downstream response are distinct up to case, as in a
    [CaseInsensitiveDict]. *)
Theorem relayed_response lib R rr rt req call r :
  In call (snd (handler lib R rr rt req)) ->
  rr call = Ok r ->
  NoDup (map Text.lower (keys (r_headers r))) ->
  ((forall k v, In (k, v) (r_headers r) ->
                forwarded_header response_dropped (k, v) = true ->
                header_error lib k v = None) ->
   status_code (fst (handler lib R rr rt req)) = r_status_code r /\
   body (fst (handler lib R rr rt req)) = content r /\
   resp_headers (fst (handler lib R rr rt req))
   = filter (forwarded_header response_dropped) (r_headers r) /\
   (forall k v, In (k, v) (r_headers r) -> Text.lower k = "content-type" ->
                mimetype (fst (handler lib R rr rt req)) = v) /\
   ((forall k, In k (keys (r_headers r)) -> Text.lower k <> "content-type") ->
    mimetype (fst (handler lib R rr rt req)) = "application/json")) /\
  (forall k v, In (k, v) (r_headers r) ->
               forwarded_header response_dropped (k, v) = true ->
               header_error lib k v <> None ->
   exists msg, handler lib R rr rt req = (error_response 500 msg, [call])).
Proof.
  intros Hin Hr Hnd. apply calls_of_handler in Hin
    as (e & t & _ & _ & _ & _ & -> & ->).
  rewrite Hr. unfold respond, relay, http_response. cbn [bind].
  assert (Hf : dict_update_if
                 (fun key => negb (mem (Text.lower key) response_dropped))
                 [] (r_headers r)
               = filter (forwarded_header response_dropped) (r_headers r)).
  { apply dict_update_if_empty. now apply NoDup_map_inv in Hnd. }
  rewrite Hf. split.
  - intros Hok.
    assert (Hn : refused_header lib
                   (filter (forwarded_header response_dropped) (r_headers r))
                 = None).
    { apply refused_header_none. intros k v Hkv.
      apply filter_In in Hkv as [H1 H2]. now apply Hok. }
    rewrite Hn. cbn [fst status_code body resp_headers mimetype].
    split; [reflexivity|]. split; [reflexivity|]. split; [reflexivity|].
    split.
    + intros k v Hkv Hk. now apply ci_get_found with (k := k).
    + intros H. now apply ci_get_missing.
  - intros k v Hkv Hk Hbad.
    destruct (@refused_header_some lib
                (filter (forwarded_header response_dropped) (r_headers r))
                k v) as (msg & ->); [now apply filter_In | assumption |].
    destruct rt; eexists; reflexivity.
Qed.

Lemma relayed_response_witness :
  NoDup (map Text.lower (keys (r_headers html_page))) /\
  status_code (fst (handler plain_library REGEX_PATTERNS answer_html
                            Generic custom_request)) = 404 /\
  resp_headers (fst (handler plain_library REGEX_PATTERNS answer_html
                             Generic custom_request))
  = [("Content-Type", "text/html"); ("Set-Cookie", "a=b")] /\
  mimetype (fst (handler plain_library REGEX_PATTERNS answer_html
                         Generic custom_request)) = "text/html".
Proof.
  split; [nodup_keys|].
  destruct (proj1 (@relayed_response plain_library REGEX_PATTERNS answer_html
              Generic custom_request
              (call_of Generic custom_request "https://api.example.com/items")
              html_page
              ltac:(vm_compute; left; reflexivity) eq_refl
              ltac:(nodup_keys))) as (H1 & _ & H3 & H4 & _).
  - intros k v Hkv _. simpl in Hkv.
    repeat (destruct Hkv as [Hkv | Hkv];
            [injection Hkv as <- <-; reflexivity|]).
    destruct Hkv.
  - split; [exact H1|]. split; [exact H3|].
    apply (H4 "Content-Type" "text/html"); [left; reflexivity | reflexivity].
Defined.

(** a header value folded over two lines is refused, and the answer is the
    500 of the route although the call was made *)
Example folded_header_example :
  handler plain_library REGEX_PATTERNS answer_folded Generic custom_request
  = (error_response 500
       "Internal server error: Header values must not contain newline characters.",
     [call_of Generic custom_request "https://api.example.com/items"]).
Proof. reflexivity. Qed.

(** * Beyond the claims: the call *)

Lemma prefix_cons a p b s :
  String.prefix (String a p) (String b s) = (a =? b)%char && String.prefix p s.
Proof.
  cbn [String.prefix]. destruct (ascii_dec a b) as [->|H].
  - now rewrite Ascii.eqb_refl.
  - apply Ascii.eqb_neq in H. now rewrite H.
Qed.

Lemma prefix_split p : forall s,
  String.prefix p s = true -> exists r, s = p ++ r.
Proof.
  induction p as [|a p IH]; intros s H.
  - now exists s.
  - destruct s as [|b s]; [discriminate|].
    rewrite prefix_cons in H. apply andb_true_iff in H as [Hab H].
    apply Ascii.eqb_eq in Hab. subst b.
    destruct (IH s H) as (r & ->). now exists r.
Qed.

Lemma prefix_append_l p s x :
  String.prefix p s = true -> String.prefix p (s ++ x) = true.
Proof.
  intros H. apply prefix_split in H as (r & ->).
  rewrite append_assoc. apply prefix_append.
Qed.

Lemma http_is_not_https s x :
  Text.startswith s "http://" = true ->
  Text.startswith (s ++ x) "https://" = false.
Proof.
  unfold Text.startswith. intros H. apply prefix_split in H as (r & ->).
  cbn [append]. now rewrite !prefix_cons.
Qed.

(** A resolved target starts with one of the two schemes. *)
Lemma target_has_scheme rt req endpoint target_url :
  target_of rt req endpoint = inl target_url ->
  Text.startswith target_url "http://" = true \/
  Text.startswith target_url "https://" = true.
Proof.
  assert (Hx : forall e, explicit_scheme e = true ->
                 Text.startswith e "http://" = true \/
                 Text.startswith e "https://" = true).
  { intros e H. now apply orb_true_iff in H. }
  assert (Hs : forall e, Text.startswith ("https://" ++ e) "https://" = true)
    by (intros e; apply prefix_append).
  destruct rt; unfold target_of, resolve_target, odata_target;
    fold (explicit_scheme endpoint);
    destruct (explicit_scheme endpoint) eqn:Hex.
  - intros H. injection H as <-. auto.
  - destruct (scheme_override_of req) as [[|a s]|].
    + intros H. injection H as <-. right. apply Hs.
    + destruct (mem _ _) eqn:Hm; [|discriminate].
      intros H. injection H as <-.
      unfold mem in Hm. cbn [existsb] in Hm.
      rewrite orb_false_r in Hm. apply orb_true_iff in Hm as [Hm | Hm];
        apply String.eqb_eq in Hm;
        change (String (Text.lower_char a)
                  (Text.map_string Text.lower_char s ++
                   String ":" (String "/" (String "/" endpoint))))
          with (Text.lower (String a s) ++ "://" ++ endpoint);
        rewrite Hm.
      * left. apply (prefix_append "http://").
      * right. apply (prefix_append "https://").
    + intros H. injection H as <-. right. apply Hs.
  - intros H. injection H as <-. auto.
  - intros H. injection H as <-. right. apply Hs.
Qed.

Lemma verify_of_target target_url qp :
  Text.startswith target_url "http://" = true \/
  Text.startswith target_url "https://" = true ->
  Text.startswith (merge_query target_url qp) "https://"
  = Text.startswith target_url "https://".
Proof.
  intros [H | H].
  - rewrite <- (append_nil_r target_url) at 2.
    rewrite (@http_is_not_https _ EmptyString H).
    destruct qp; [|now apply http_is_not_https].
    simpl. rewrite <- (append_nil_r target_url).
    now apply http_is_not_https.
  - rewrite H. destruct qp; [assumption|].
    now apply prefix_append_l.
Qed.

(** X2.  Every call has the timeout 30 and verifies certificates exactly
    when its URL starts with [https://], which is exactly when the
    resolved target does; it goes unverified exactly when the target
    starts with [http://].  The query that is merged in does not change
    this. *)
Theorem call_timeout_and_verify lib R rr rt req call :
  In call (snd (handler lib R rr rt req)) ->
  c_timeout call = 30 /\
  c_verify call = Text.startswith (c_url call) "https://" /\
  exists endpoint target_url,
    endpoint_of req = Some endpoint /\
    target_of rt req endpoint = inl target_url /\
    c_verify call = Text.startswith target_url "https://" /\
    (c_verify call = false <-> Text.startswith target_url "http://" = true).
Proof.
  intros Hin. apply calls_of_handler in Hin
    as (e & t & He & _ & Ht & _ & -> & _).
  split; [reflexivity|]. split; [reflexivity|].
  exists e, t. split; [assumption|]. split; [assumption|].
  pose proof (target_has_scheme _ _ _ Ht) as Hs.
  unfold call_of. cbn [c_verify]. rewrite (@verify_of_target t _ Hs).
  split; [reflexivity|]. split.
  - intros Hf. destruct Hs as [Hs | Hs]; [assumption | congruence].
  - intros Hh. rewrite <- (append_nil_r t).
    now apply http_is_not_https.
Qed.

Lemma call_timeout_and_verify_witness :
  c_timeout (call_of Generic override_request "http://api.example.com/items")
  = 30 /\
  c_verify (call_of Generic override_request "http://api.example.com/items")
  = false.
Proof.
  destruct (@call_timeout_and_verify plain_library REGEX_PATTERNS answer_ok
              Generic override_request
              (call_of Generic override_request "http://api.example.com/items")
              ltac:(vm_compute; left; reflexivity))
    as (H1 & H2 & _).
  split; [exact H1 | exact H2].
Defined.

Lemma append_eq_self s x : s ++ x = s -> x = EmptyString.
Proof.
  induction s as [|a s IH]; simpl; [easy|].
  intros H. injection H as H. auto.
Qed.

Lemma dict_set_not_empty d k v : dict_set d k v <> [].
Proof.
  destruct d as [|[k' v'] d]; simpl; [discriminate|].
  destruct (String.eqb k' k); discriminate.
Qed.

Lemma dict_update_if_not_empty keep items : forall d,
  d <> [] -> dict_update_if keep d items <> [].
Proof.
  unfold dict_update_if.
  induction items as [|[k v] items IH]; intros d Hd; simpl; [assumption|].
  apply IH. destruct (keep k); [apply dict_set_not_empty | assumption].
Qed.

Lemma dict_update_if_nil keep items :
  dict_update_if keep [] items = [] <->
  forall k, In k (keys items) -> keep k = false.
Proof.
  induction items as [|[k v] items IH].
  - split; [intros _ k [] | reflexivity].
  - change (dict_update_if keep [] ((k, v) :: items))
      with (dict_update_if keep (if keep k then dict_set [] k v else [])
                           items).
    destruct (keep k) eqn:Hk.
    + split.
      * intros H. exfalso. revert H. apply dict_update_if_not_empty.
        apply dict_set_not_empty.
      * intros H. specialize (H k (or_introl eq_refl)). congruence.
    + rewrite IH. split.
      * intros H k' [<- | Hk']; auto.
      * intros H k' Hk'. apply H. now right.
Qed.

Lemma merge_query_same target qp :
  merge_query target qp = target <-> qp = [].
Proof.
  split; [|now intros ->].
  destruct qp as [|kv qp]; [reflexivity|].
  unfold merge_query. intros H. apply append_eq_self in H.
  destruct (Text.contains "?" target); discriminate.
Qed.

(** X3.  The URL of a call is the resolved target itself, with nothing
    appended, exactly when there is nothing to forward: on the generic
    route when the query has no parameter other than [__proxy_scheme], on
    the OData route when the query is empty. *)
Theorem nothing_to_merge lib R rr rt req call endpoint target_url :
  In call (snd (handler lib R rr rt req)) ->
  endpoint_of req = Some endpoint ->
  target_of rt req endpoint = inl target_url ->
  (c_url call = target_url <->
   match rt with
   | Generic => forall k, In k (keys (params req)) -> k = PROXY_SCHEME
   | OData => params req = []
   end).
Proof.
  intros Hin He Ht. apply calls_of_handler in Hin
    as (e & t & He' & _ & Ht' & _ & -> & _).
  rewrite He in He'. injection He' as <-.
  rewrite Ht in Ht'. injection Ht' as <-.
  unfold call_of. cbn [c_url]. rewrite merge_query_same.
  destruct rt; unfold query_params_of; rewrite dict_update_if_nil.
  - split; intros H k Hk.
    + specialize (H k Hk). apply negb_false_iff in H.
      now apply String.eqb_eq.
    + rewrite (H k Hk). reflexivity.
  - split.
    + intros H. destruct (params req) as [|[k v] l]; [reflexivity|].
      specialize (H k (or_introl eq_refl)). discriminate.
    + intros -> k [].
Qed.

Lemma nothing_to_merge_witness :
  c_url (call_of Generic only_override_request "http://api.example.com/items")
  = "http://api.example.com/items".
Proof.
  refine (proj2 (@nothing_to_merge plain_library REGEX_PATTERNS answer_ok
                   Generic only_override_request _
                   "api.example.com/items" "http://api.example.com/items"
                   _ _ _) _).
  - vm_compute. left. reflexivity.
  - reflexivity.
  - reflexivity.
  - intros k [<- | []]. reflexivity.
Defined.

(** * Beyond the claims: when the allowlist check answers *)

Lemma remove_chars_within p s : within (Text.remove_chars p s) s.
Proof.
  induction s as [|a s IH]; simpl; auto with within.
  destruct (p a); auto with within.
Qed.

Lemma cleaned_within url : within (cleaned url) url.
Proof.
  unfold cleaned. eapply within_trans;
    [apply remove_chars_within | apply lstrip_within].
Qed.

Lemma absent_within c s t :
  within s t -> Text.contains c t = false -> Text.contains c s = false.
Proof.
  intros H Ht. destruct (Text.contains c s) eqn:Hs; [|reflexivity].
  apply H in Hs. congruence.
Qed.

Lemma check_brackets_plain lib netloc :
  Text.contains "[" netloc = false -> Text.contains "]" netloc = false ->
  UrlParse.check_brackets lib netloc = Ok tt.
Proof. unfold UrlParse.check_brackets. now intros -> ->. Qed.

Lemma forall_chars_contains p c s :
  Text.forall_chars p s = true -> Text.contains c s = true -> p c = true.
Proof.
  induction s as [|a s IH]; simpl; [discriminate|].
  intros H Hc. apply andb_true_iff in H as [Ha H].
  apply orb_true_iff in Hc as [Hc | Hc]; [|now apply IH].
  apply Ascii.eqb_eq in Hc. now subst.
Qed.

Lemma forall_chars_within p s t :
  within s t -> Text.forall_chars p t = true -> Text.forall_chars p s = true.
Proof.
  intros Hw Ht. induction s as [|a s IH]; [reflexivity|].
  simpl. apply andb_true_iff. split.
  - apply forall_chars_contains with (c := a) (s := t); [assumption|].
    apply Hw. simpl. now rewrite Ascii.eqb_refl.
  - apply IH. intros c Hc. apply Hw. simpl. rewrite Hc. apply orb_true_r.
Qed.

Lemma checknetloc_ascii lib netloc :
  Text.isascii netloc = true -> UrlParse.checknetloc lib netloc = Ok tt.
Proof.
  unfold UrlParse.checknetloc. intros ->. now rewrite orb_true_r.
Qed.

Lemma urlsplit_plain lib url :
  Text.isascii url = true ->
  Text.contains "[" url = false -> Text.contains "]" url = false ->
  exists parts, UrlParse.urlsplit lib url = Ok parts.
Proof.
  intros Hascii Ho Hc. unfold UrlParse.urlsplit. fold (cleaned url).
  pose proof (split_scheme_within (cleaned url)) as Hs.
  destruct (UrlParse.split_scheme (cleaned url)) as [sch rest]. simpl in Hs.
  pose proof (drop_within 2 rest) as Hd2.
  set (r2 := Text.drop 2 rest) in *. clearbody r2.
  destruct (Text.startswith rest "//").
  - assert (Hn : within (Text.take_until UrlParse.netloc_delim r2) url).
    { eapply within_trans; [apply take_until_within|].
      eapply within_trans; [exact Hd2|].
      eapply within_trans; [exact Hs | apply cleaned_within]. }
    rewrite check_brackets_plain by (eapply absent_within; eassumption).
    assert (Hk : UrlParse.checknetloc lib
                   (Text.take_until UrlParse.netloc_delim r2) = Ok tt).
    { apply checknetloc_ascii. unfold Text.isascii in *.
      now apply forall_chars_within with (t := url). }
    simpl. destruct (Text.contains "#" _); destruct (Text.contains "?" _);
      rewrite Hk; eexists; reflexivity.
  - simpl. destruct (Text.contains "#" _); destruct (Text.contains "?" _);
      eexists; reflexivity.
Qed.

Lemma is_allowed_plain lib R url :
  Text.isascii url = true ->
  Text.contains "[" url = false -> Text.contains "]" url = false ->
  exists verdict, is_allowed lib R url = Ok verdict.
Proof.
  intros Ha Ho Hc. unfold is_allowed, extract_domain, UrlParse.urlparse.
  destruct (urlsplit_plain lib url Ha Ho Hc) as ([[[[sch nl] pth] q] f] & ->).
  simpl. destruct (_ && _); [destruct (UrlParse.splitparams pth)|];
    eexists; reflexivity.
Qed.

Lemma target_plain c rt req endpoint target_url :
  Text.contains c "https://" = false ->
  target_of rt req endpoint = inl target_url ->
  Text.contains c endpoint = false ->
  Text.contains c target_url = false.
Proof.
  intros Hc Ht He.
  assert (Hs : Text.contains c ("https://" ++ endpoint) = false)
    by (rewrite contains_append, Hc; exact He).
  assert (Hh : Text.contains c ("http://" ++ endpoint) = false).
  { rewrite contains_append, He, orb_false_r.
    apply absent_within with (t := "https://"); [|assumption].
    intros x Hx. simpl in *.
    repeat (apply orb_true_iff in Hx as [Hx | Hx];
            [rewrite Hx, ?orb_true_r; reflexivity|]).
    discriminate. }
  destruct rt; unfold target_of, resolve_target, odata_target in Ht;
    destruct (_ || _).
  - now injection Ht as <-.
  - destruct (scheme_override_of req) as [[|a s]|].
    + now injection Ht as <-.
    + destruct (mem _ _) eqn:Hm; [|discriminate].
      unfold mem in Hm. cbn [existsb] in Hm. rewrite orb_false_r in Hm.
      apply orb_true_iff in Hm as [Hm | Hm];
        apply String.eqb_eq in Hm; rewrite Hm in Ht;
        injection Ht as <-; assumption.
    + now injection Ht as <-.
  - now injection Ht as <-.
  - now injection Ht as <-.
Qed.

Lemma forall_chars_append p a b :
  Text.forall_chars p (a ++ b)
  = Text.forall_chars p a && Text.forall_chars p b.
Proof.
  induction a as [|x a IH]; simpl; [reflexivity|].
  now rewrite IH, andb_assoc.
Qed.

Lemma target_ascii rt req endpoint target_url :
  target_of rt req endpoint = inl target_url ->
  Text.isascii endpoint = true ->
  Text.isascii target_url = true.
Proof.
  intros Ht He. unfold Text.isascii in *.
  assert (Hs : forall scheme, Text.forall_chars Text.is_ascii scheme = true ->
                 Text.forall_chars Text.is_ascii (scheme ++ endpoint) = true)
    by (intros scheme H; now rewrite forall_chars_append, H, He).
  destruct rt; unfold target_of, resolve_target, odata_target in Ht;
    destruct (_ || _).
  - now injection Ht as <-.
  - destruct (scheme_override_of req) as [[|a s]|].
    + injection Ht as <-. now apply (Hs "https://").
    + destruct (mem _ _) eqn:Hm; [|discriminate].
      unfold mem in Hm. cbn [existsb] in Hm. rewrite orb_false_r in Hm.
      apply orb_true_iff in Hm as [Hm | Hm];
        apply String.eqb_eq in Hm; rewrite Hm in Ht;
        injection Ht as <-;
        [now apply (Hs "http://") | now apply (Hs "https://")].
    + injection Ht as <-. now apply (Hs "https://").
  - now injection Ht as <-.
  - injection Ht as <-. now apply (Hs "https://").
Qed.

(** X4.  The allowlist check can only raise over square brackets or over
    an authority that is not ASCII.  For an ASCII endpoint without square
    brackets, the check of the resolved target returns a verdict, so a
    handler that answers without having made a call answers 400 or 403,
    never 500. *)
Theorem plain_endpoint_gets_verdict lib R rr rt req endpoint :
  endpoint_of req = Some endpoint ->
  Text.isascii endpoint = true ->
  Text.contains "[" endpoint = false ->
  Text.contains "]" endpoint = false ->
  (forall target_url,
     target_of rt req endpoint = inl target_url ->
     exists verdict, is_allowed lib R target_url = Ok verdict) /\
  (snd (handler lib R rr rt req) = [] ->
   status_code (fst (handler lib R rr rt req)) = 400 \/
   status_code (fst (handler lib R rr rt req)) = 403).
Proof.
  intros He Ha Ho Hc.
  assert (Hv : forall t, target_of rt req endpoint = inl t ->
                 exists verdict, is_allowed lib R t = Ok verdict).
  { intros t Ht. apply is_allowed_plain.
    - now apply (@target_ascii rt req endpoint).
    - now apply (@target_plain "[" rt req endpoint).
    - now apply (@target_plain "]" rt req endpoint). }
  split; [exact Hv|].
  rewrite handler_cases, He. destruct endpoint as [|a e]; [now left|].
  destruct (target_of rt req (String a e)) as [t|response] eqn:Ht.
  - destruct (Hv t eq_refl) as ([|] & ->); simpl; [discriminate | now right].
  - intros _. destruct rt; [|discriminate].
    apply resolve_target_error in Ht as (msg & ->). now left.
Qed.

Lemma plain_endpoint_gets_verdict_witness :
  exists verdict,
    is_allowed plain_library REGEX_PATTERNS "http://api.example.com/items"
    = Ok verdict.
Proof.
  refine (proj1 (@plain_endpoint_gets_verdict plain_library REGEX_PATTERNS
                   answer_ok Generic override_request "api.example.com/items"
                   _ _ _ _) "http://api.example.com/items" _);
    reflexivity.
Defined.

(** X5.  With the allowlist as the source ships it, which has a bare star,
    the check never says no: no text is rejected, and no request is
    answered 403 by a handler. *)
Theorem shipped_allowlist_is_open lib rr rt req :
  compile_patterns ALLOWED_PATTERNS = Some REGEX_PATTERNS /\
  (forall url, is_allowed lib REGEX_PATTERNS url <> Ok false) /\
  (snd (handler lib REGEX_PATTERNS rr rt req) = [] ->
   status_code (fst (handler lib REGEX_PATTERNS rr rt req)) <> 403).
Proof.
  assert (Hopen : forall url, is_allowed lib REGEX_PATTERNS url <> Ok false).
  { intros url H.
    destruct (extract_domain lib url) as [d|e] eqn:E.
    - apply default_allowlist_open in E. congruence.
    - unfold is_allowed in H. rewrite E in H. discriminate. }
  split; [reflexivity|]. split; [exact Hopen|].
  rewrite handler_cases.
  destruct (endpoint_of req) as [[|a e]|]; try (simpl; discriminate).
  destruct (target_of rt req (String a e)) as [t|response] eqn:Ht.
  - destruct (is_allowed lib REGEX_PATTERNS t) as [[|]|ex] eqn:Ha.
    + discriminate.
    + now apply Hopen in Ha.
    + intros _. destruct rt, ex; simpl; discriminate.
  - intros _. destruct rt; [|discriminate].
    apply resolve_target_error in Ht as (msg & ->). simpl. discriminate.
Qed.

(** * Beyond the claims: how a pattern reads *)

Lemma lower_nil_inv s : Text.lower s = EmptyString -> s = EmptyString.
Proof. destruct s; [reflexivity | discriminate]. Qed.

Lemma lower_cons a s :
  Text.lower (String a s) = String (Text.lower_char a) (Text.lower s).
Proof. reflexivity. Qed.

Lemma same_text_nil_inv same a :
  same_text same EmptyString a = true -> a = EmptyString.
Proof. destruct a; [reflexivity | discriminate]. Qed.

Lemma same_text_latin1 (p : string) : forall d,
  same_text Re.latin1_ignorecase_eq p d = true <-> Text.lower d = Text.lower p.
Proof.
  unfold Re.latin1_ignorecase_eq.
  induction p as [|a p IH]; intros [|c d]; simpl; try easy.
  rewrite !lower_cons, andb_true_iff, IH, Ascii.eqb_eq. split.
  - intros [-> ->]. reflexivity.
  - intros H. injection H as -> ->. now split.
Qed.

Lemma glob_star_free same (p : string) : forall d,
  Text.contains "*" p = false ->
  (glob_matches same p d <-> same_text same p d = true).
Proof.
  induction p as [|c p IH]; intros d Hp.
  - split.
    + intros H. apply glob_empty_inv in H. now subst.
    + intros H. apply same_text_nil_inv in H. subst. constructor.
  - simpl in Hp. apply orb_false_elim in Hp as [Hc Hp].
    apply Ascii.eqb_neq in Hc. split.
    + intros H. apply (glob_literal_inv Hc) in H as (a & h & -> & Ha & H).
      apply IH in H; [|assumption]. simpl. now rewrite Ha, H.
    + destruct d as [|a d]; [discriminate|]. simpl. intros H.
      apply andb_true_iff in H as [Ha H].
      constructor; [assumption | assumption |]. now apply IH.
Qed.

Lemma glob_single_star same (p1 p2 : string) : forall d,
  Text.contains "*" p1 = false ->
  Text.contains "*" p2 = false ->
  (glob_matches same (p1 ++ String "*" p2) d <->
   exists a m b, d = a ++ m ++ b /\ same_text same p1 a = true /\
                 same_text same p2 b = true).
Proof.
  induction p1 as [|c p1 IH]; intros d H1 H2.
  - cbn [append]. split.
    + intros H. apply glob_star_inv in H as (run & rest & -> & H).
      apply glob_star_free in H; [|assumption].
      now exists EmptyString, run, rest.
    + intros (a & m & b & -> & Ha & Hb). apply same_text_nil_inv in Ha.
      subst a. cbn [append]. apply glob_star. now apply glob_star_free.
  - simpl in H1. apply orb_false_elim in H1 as [Hc H1].
    apply Ascii.eqb_neq in Hc. cbn [append]. split.
    + intros H. apply (glob_literal_inv Hc) in H as (x & h & -> & Hx & H).
      apply IH in H as (a & m & b & -> & Ha & Hb); try assumption.
      exists (String x a), m, b. simpl.
      split; [reflexivity|]. split; [now rewrite Hx, Ha | assumption].
    + intros (a & m & b & -> & Ha & Hb).
      destruct a as [|x a]; [discriminate|]. simpl in Ha.
      apply andb_true_iff in Ha as [Hx Ha]. cbn [append].
      constructor; [assumption | assumption |].
      apply IH; try assumption. now exists a, m, b.
Qed.

Lemma compiled_is_glob (P : list string) R :
  compile_patterns P = Some R -> R = map glob_regex P.
Proof. rewrite compile_patterns_glob. now intros H; injection H. Qed.

(** X6.  An allowlist without any star is a list of host names: a text is
    allowed exactly when the host extracted from it has the length of one
    of the patterns and agrees with it character by character under the
    comparison of [re.IGNORECASE].  A dot, or any other character that a
    regular expression treats specially, stands for itself.  Where that
    comparison is the one of code points below 256, the text is allowed
    exactly when the host equals one of the patterns once both are in
    lower case. *)
Theorem star_free_allowlist lib (P : list string) R h :
  (forall p, In p P -> Text.contains "*" p = false) ->
  compile_patterns P = Some R ->
  (is_allowed lib R h = Ok true <->
   exists d, extract_domain lib h = Ok d /\
             exists p, In p P /\ same_text (ignorecase_eq lib) p d = true) /\
  (ignorecase_eq lib = Re.latin1_ignorecase_eq ->
   (is_allowed lib R h = Ok true <->
    exists d, extract_domain lib h = Ok d /\
              In (Text.lower d) (map Text.lower P))).
Proof.
  intros HP HR. apply compiled_is_glob in HR. subst R.
  assert (Hiff : is_allowed lib (map glob_regex P) h = Ok true <->
                 exists d, extract_domain lib h = Ok d /\
                   exists p, In p P /\
                             same_text (ignorecase_eq lib) p d = true).
  { rewrite is_allowed_true. split.
    - intros (d & E & p & Hp & H). exists d. split; [assumption|].
      exists p. split; [assumption|].
      apply glob_star_free in H; [assumption | now apply HP].
    - intros (d & E & p & Hp & H). exists d. split; [assumption|].
      exists p. split; [assumption|].
      apply glob_star_free; [now apply HP | assumption]. }
  split; [exact Hiff|].
  intros Heq. rewrite Hiff, Heq. split.
  - intros (d & E & p & Hp & H). exists d. split; [assumption|].
    apply same_text_latin1 in H. rewrite H. now apply in_map.
  - intros (d & E & H). exists d. split; [assumption|].
    apply in_map_iff in H as (p & Hl & Hp). exists p. split; [assumption|].
    apply same_text_latin1. congruence.
Qed.

Lemma star_free_allowlist_witness :
  is_allowed plain_library
             (map glob_regex ["api.example.com"; "localhost"])
             "https://API.Example.com:8443/v1"
  = Ok true.
Proof.
  refine (proj2 (proj1 (@star_free_allowlist plain_library
                   ["api.example.com"; "localhost"] _
                   "https://API.Example.com:8443/v1" _ _)) _).
  - intros p [<- | [<- | []]]; reflexivity.
  - apply compile_patterns_glob.
  - exists "API.Example.com". split; [reflexivity|].
    exists "api.example.com". split; [now left | reflexivity].
Defined.

(** X7.  A pattern with one star, [front*back], allows exactly the hosts
    that start with a text that agrees with [front] and end with one that
    agrees with [back], character by character under the comparison of
    [re.IGNORECASE], the two parts not overlapping; the star may stand for
    nothing.  So [*.trusted.com] needs the dot before [trusted.com], and
    [jsonplaceholder.*] the dot after [jsonplaceholder]. *)
Theorem single_star_pattern lib (front back : string) R h :
  Text.contains "*" front = false ->
  Text.contains "*" back = false ->
  compile_patterns [front ++ String "*" back] = Some R ->
  (is_allowed lib R h = Ok true <->
   exists d a m b,
     extract_domain lib h = Ok d /\ d = a ++ m ++ b /\
     same_text (ignorecase_eq lib) front a = true /\
     same_text (ignorecase_eq lib) back b = true).
Proof.
  intros Hf Hb HR. apply compiled_is_glob in HR. subst R.
  rewrite is_allowed_true. split.
  - intros (d & E & p & [<- | []] & H).
    apply glob_single_star in H as (a & m & b & Hd & Ha & Hb'); try assumption.
    now exists d, a, m, b.
  - intros (d & a & m & b & E & Hd & Ha & Hb').
    exists d. split; [assumption|]. exists (front ++ String "*" back).
    split; [now left|].
    apply glob_single_star; try assumption. now exists a, m, b.
Qed.

Lemma single_star_pattern_witness :
  is_allowed plain_library (map glob_regex ["*.trusted.com"])
             "https://a.b.Trusted.com/x"
  = Ok true.
Proof.
  refine (proj2 (@single_star_pattern plain_library EmptyString
                   ".trusted.com" _ "https://a.b.Trusted.com/x" _ _ _) _).
  - reflexivity.
  - reflexivity.
  - apply compile_patterns_glob.
  - exists "a.b.Trusted.com", EmptyString, "a.b", ".Trusted.com".
    repeat split.
Defined.

(** * Beyond the claims: the text that is matched *)

Lemma extract_domain_steps lib url :
  extract_domain lib url =
  let (scheme, rest) := UrlParse.split_scheme (cleaned url) in
  if Text.startswith rest "//" then
    let netloc := Text.take_until UrlParse.netloc_delim (Text.drop 2 rest) in
    _ <- UrlParse.check_brackets lib netloc ;;
    _ <- UrlParse.checknetloc lib netloc ;;
    Ok (domain_of netloc
          (path_part scheme
             (Text.drop_until UrlParse.netloc_delim (Text.drop 2 rest))))
  else Ok (domain_of EmptyString (path_part scheme rest)).
Proof.
  unfold extract_domain, UrlParse.urlparse, UrlParse.urlsplit.
  fold (cleaned url).
  destruct (UrlParse.split_scheme (cleaned url)) as [sch rest].
  set (r2 := Text.drop 2 rest).
  unfold path_part, domain_of.
  destruct (Text.startswith rest "//").
  - destruct (UrlParse.check_brackets lib _); [|reflexivity].
    cbn [bind].
    destruct (Text.contains "#" _); destruct (Text.contains "?" _);
      (destruct (UrlParse.checknetloc lib _); [|reflexivity]);
      cbn [bind]; destruct (_ && _); try reflexivity;
      destruct (UrlParse.splitparams _); reflexivity.
  - cbn [bind].
    destruct (Text.contains "#" _); destruct (Text.contains "?" _);
      change (UrlParse.checknetloc lib EmptyString) with (Ok tt : result unit);
      cbn [bind]; destruct (_ && _); try reflexivity;
      destruct (UrlParse.splitparams _); reflexivity.
Qed.

Lemma remove_chars_append p a b :
  Text.remove_chars p (a ++ b) = Text.remove_chars p a ++ Text.remove_chars p b.
Proof.
  induction a as [|x a IH]; [reflexivity|].
  simpl. destruct (p x); simpl; now rewrite IH.
Qed.

Lemma remove_chars_none p s :
  Text.forall_chars (fun c => negb (p c)) s = true ->
  Text.remove_chars p s = s.
Proof.
  induction s as [|a s IH]; [reflexivity|].
  simpl. intros H. apply andb_true_iff in H as [Ha H].
  apply negb_true_iff in Ha. now rewrite Ha, IH.
Qed.

Lemma forall_chars_weaken (p q : ascii -> bool) s :
  (forall c, p c = true -> q c = true) ->
  Text.forall_chars p s = true -> Text.forall_chars q s = true.
Proof.
  intros Hpq. induction s as [|a s IH]; [reflexivity|].
  simpl. intros H. apply andb_true_iff in H as [Ha H].
  now rewrite (Hpq a Ha), IH.
Qed.

Lemma contains_none c p s :
  p c = false -> Text.forall_chars p s = true -> Text.contains c s = false.
Proof.
  intros Hc. induction s as [|a s IH]; [reflexivity|].
  simpl. intros H. apply andb_true_iff in H as [Ha H].
  rewrite (IH H), orb_false_r. apply Ascii.eqb_neq. intros ->. congruence.
Qed.

Lemma take_until_plain p a b :
  Text.forall_chars (fun c => negb (p c)) a = true ->
  b = EmptyString \/ UrlParse.first_is p b = true ->
  Text.take_until p (a ++ b) = a /\ Text.drop_until p (a ++ b) = b.
Proof.
  intros Ha Hb. induction a as [|x a IH].
  - simpl. destruct Hb as [-> | Hb]; [now split|].
    destruct b as [|y b]; [discriminate|]. simpl in *. now rewrite Hb.
  - simpl in Ha. apply andb_true_iff in Ha as [Hx Ha].
    apply negb_true_iff in Hx. simpl. rewrite Hx.
    destruct (IH Ha) as [-> ->]. now split.
Qed.

Lemma split_scheme_http x :
  UrlParse.split_scheme ("http://" ++ x) = ("http", "//" ++ x).
Proof. reflexivity. Qed.

Lemma split_scheme_https x :
  UrlParse.split_scheme ("https://" ++ x) = ("https", "//" ++ x).
Proof. reflexivity. Qed.

Lemma removed_rest rest :
  rest = EmptyString \/ UrlParse.first_is UrlParse.netloc_delim rest = true ->
  Text.remove_chars UrlParse.unsafe_url_byte rest = EmptyString \/
  UrlParse.first_is UrlParse.netloc_delim
    (Text.remove_chars UrlParse.unsafe_url_byte rest) = true.
Proof.
  intros [-> | H]; [now left|]. right.
  destruct rest as [|c rest]; [discriminate|]. simpl in *.
  assert (Hu : UrlParse.unsafe_url_byte c = false).
  { unfold UrlParse.netloc_delim in H. unfold UrlParse.unsafe_url_byte.
    repeat (apply orb_true_iff in H as [H | H]);
      apply Ascii.eqb_eq in H; subst c; reflexivity. }
  rewrite Hu. exact H.
Qed.

Lemma plain_authority_facts s :
  plain_authority s = true ->
  Text.forall_chars (fun c => negb (UrlParse.unsafe_url_byte c)) s = true /\
  Text.forall_chars (fun c => negb (UrlParse.netloc_delim c)) s = true /\
  Text.contains "[" s = false /\ Text.contains "]" s = false.
Proof.
  unfold plain_authority, breaks_authority. intros H. repeat split.
  - revert H. apply forall_chars_weaken. intros c Hc.
    apply negb_true_iff in Hc. apply negb_true_iff.
    now apply orb_false_elim in Hc as [_ Hc].
  - revert H. apply forall_chars_weaken. intros c Hc.
    apply negb_true_iff in Hc. apply negb_true_iff.
    apply orb_false_elim in Hc as [Hc _].
    apply orb_false_elim in Hc as [Hc _].
    now apply orb_false_elim in Hc as [Hc _].
  - revert H. apply contains_none. reflexivity.
  - revert H. apply contains_none. reflexivity.
Qed.

(** the text matched for [scheme://authority] followed by a path, a query
    or a fragment *)
Lemma extract_domain_authority lib scheme authority rest :
  scheme = "http" \/ scheme = "https" ->
  plain_authority authority = true ->
  authority <> EmptyString ->
  rest = EmptyString \/ UrlParse.first_is UrlParse.netloc_delim rest = true ->
  UrlParse.checknetloc lib authority = Ok tt ->
  extract_domain lib (scheme ++ "://" ++ authority ++ rest)
  = Ok (if Text.contains ":" authority then Text.before ":" authority
        else authority).
Proof.
  intros Hs Ha Hne Hr Hk.
  destruct (plain_authority_facts _ Ha) as (Hu & Hd & Ho & Hc).
  apply removed_rest in Hr.
  set (rest' := Text.remove_chars UrlParse.unsafe_url_byte rest) in *.
  assert (Hclean : cleaned (scheme ++ "://" ++ authority ++ rest)
                   = scheme ++ "://" ++ authority ++ rest').
  { unfold cleaned.
    replace (Text.lstrip UrlParse.c0_control_or_space
               (scheme ++ "://" ++ authority ++ rest))
      with (scheme ++ "://" ++ authority ++ rest)
      by (destruct Hs as [-> | ->]; reflexivity).
    rewrite !remove_chars_append, (remove_chars_none _ _ Hu).
    now destruct Hs as [-> | ->]. }
  rewrite extract_domain_steps, Hclean.
  assert (Hsplit : UrlParse.split_scheme (scheme ++ "://" ++ authority ++ rest')
                   = (scheme, "//" ++ authority ++ rest'))
    by (destruct Hs as [-> | ->]; reflexivity).
  rewrite Hsplit.
  change (Text.startswith ("//" ++ authority ++ rest') "//")
    with (String.prefix "//" ("//" ++ (authority ++ rest'))).
  rewrite prefix_append.
  change (Text.drop 2 ("//" ++ authority ++ rest')) with (authority ++ rest').
  destruct (@take_until_plain UrlParse.netloc_delim authority rest' Hd Hr)
    as [-> ->].
  cbv zeta. rewrite check_brackets_plain by assumption. rewrite Hk.
  cbn [bind].
  unfold domain_of. destruct authority as [|a s]; [congruence|].
  reflexivity.
Qed.

Lemma plain_colon : plain_authority ":" = true.
Proof. reflexivity. Qed.

(** X8.  For a text [scheme://host:tail] with http or https, followed by
    nothing or by a path, a query or a fragment, where [host] has no colon,
    neither part has a slash, question mark, hash, square bracket, tab or
    line break, and the authority passes the NFKC check, as every ASCII
    authority does: the text the patterns are tried on is [host], so the
    verdict is the one for [host] alone.  A port is cut off this way; so is
    everything after the first colon of user information, in which case it
    is the user name that is matched and not the host the URL leads to.
    Without a colon the whole authority is matched. *)
Theorem matched_text_of_authority lib R scheme host tail rest :
  scheme = "http" \/ scheme = "https" ->
  plain_authority host = true ->
  Text.contains ":" host = false ->
  plain_authority tail = true ->
  rest = EmptyString \/ UrlParse.first_is UrlParse.netloc_delim rest = true ->
  (forall authority,
     Text.isascii authority = true ->
     UrlParse.checknetloc lib authority = Ok tt) /\
  (UrlParse.checknetloc lib (host ++ ":" ++ tail) = Ok tt ->
   extract_domain lib (scheme ++ "://" ++ host ++ ":" ++ tail ++ rest)
   = Ok host /\
   is_allowed lib R (scheme ++ "://" ++ host ++ ":" ++ tail ++ rest)
   = Ok (existsb (fun regex => Re.re_match (ignorecase_eq lib) regex host)
           R)) /\
  (host <> EmptyString -> UrlParse.checknetloc lib host = Ok tt ->
   extract_domain lib (scheme ++ "://" ++ host ++ rest) = Ok host).
Proof.
  intros Hs Hh Hc Ht Hr. split; [apply checknetloc_ascii|]. split.
  - intros Hk.
    assert (E : extract_domain lib
                  (scheme ++ "://" ++ host ++ ":" ++ tail ++ rest) = Ok host).
    { replace (host ++ ":" ++ tail ++ rest)
        with ((host ++ ":" ++ tail) ++ rest)
        by now rewrite !append_assoc.
      rewrite extract_domain_authority; try assumption.
      - rewrite contains_append. cbn [append Text.contains].
        rewrite Ascii.eqb_refl, orb_true_r.
        now rewrite (before_append ":" host tail Hc).
      - unfold plain_authority in *. rewrite !forall_chars_append.
        now rewrite Hh, Ht.
      - destruct host; discriminate. }
    split; [exact E|]. unfold is_allowed. now rewrite E.
  - intros Hne Hk. rewrite extract_domain_authority; try assumption.
    now rewrite Hc.
Qed.

Lemma matched_text_of_authority_witness :
  is_allowed plain_library (map glob_regex ["api.example.com"])
             "https://api.example.com:pw@evil.example/steal"
  = Ok true.
Proof.
  refine (proj2 (proj1 (proj2 (@matched_text_of_authority plain_library
                          (map glob_regex ["api.example.com"])
                          "https" "api.example.com" "pw@evil.example" "/steal"
                          _ _ _ _ _)) _));
    try reflexivity.
  - right. reflexivity.
  - right. reflexivity.
Defined.

(** * Beyond the claims: the URL that is called *)

Lemma query_char_facts c :
  query_char c = true ->
  UrlParse.unsafe_url_byte c = false /\ (c =? "#")%char = false /\
  (c =? "?")%char = false.
Proof.
  destruct c as [[] [] [] [] [] [] [] []]; vm_compute; intuition congruence.
Qed.

Lemma spec_encode_char_query c :
  Text.forall_chars query_char (spec_encode_char c) = true.
Proof.
  destruct c as [[] [] [] [] [] [] [] []]; vm_compute; reflexivity.
Qed.

Lemma spec_encode_query s : Text.forall_chars query_char (spec_encode s) = true.
Proof.
  induction s as [|c s IH]; [reflexivity|].
  simpl. now rewrite forall_chars_append, spec_encode_char_query, IH.
Qed.

Lemma join_query (l : list string) :
  (forall x, In x l -> Text.forall_chars query_char x = true) ->
  Text.forall_chars query_char (Text.join "&" l) = true.
Proof.
  induction l as [|x l IH]; intros H; [reflexivity|].
  destruct l as [|y l]; [apply H; now left|].
  change (Text.join "&" (x :: y :: l))
    with (x ++ String "&" (Text.join "&" (y :: l))).
  rewrite forall_chars_append. cbn [Text.forall_chars].
  rewrite (H x (or_introl eq_refl)), IH; [reflexivity|].
  intros z Hz. apply H. now right.
Qed.

Lemma urlencode_query (l : list (string * string)) :
  Text.forall_chars query_char (UrlEncode.urlencode l) = true.
Proof.
  rewrite urlencode_spec. apply join_query.
  intros x Hx. apply in_map_iff in Hx as ([k v] & <- & _).
  unfold spec_pair. rewrite !forall_chars_append. cbn [Text.forall_chars fst snd].
  now rewrite !spec_encode_query.
Qed.

Lemma contains_removed c p s :
  p c = false ->
  Text.contains c (Text.remove_chars p s) = Text.contains c s.
Proof.
  intros Hc. induction s as [|a s IH]; [reflexivity|].
  simpl. destruct (p a) eqn:Ha; simpl; rewrite IH; [|reflexivity].
  replace (a =? c)%char with false; [reflexivity|].
  symmetry. apply Ascii.eqb_neq. intros ->. congruence.
Qed.

Lemma before_append_has c s x :
  Text.contains c s = true -> Text.before c (s ++ x) = Text.before c s.
Proof.
  induction s as [|a s IH]; [discriminate|].
  simpl. destruct (a =? c)%char; [reflexivity|].
  simpl. intros H. now rewrite IH.
Qed.

Lemma take_drop_id p s : Text.take_until p s ++ Text.drop_until p s = s.
Proof.
  induction s as [|a s IH]; [reflexivity|].
  simpl. destruct (p a); [reflexivity|]. simpl. now rewrite IH.
Qed.

Lemma take_until_free p c s :
  p c = true -> Text.contains c (Text.take_until p s) = false.
Proof.
  intros Hc. induction s as [|a s IH]; [reflexivity|].
  simpl. destruct (p a) eqn:Ha; [reflexivity|].
  simpl. rewrite IH, orb_false_r. apply Ascii.eqb_neq. intros ->. congruence.
Qed.

Lemma appended_clean s a :
  appended_to s a ->
  Text.remove_chars UrlParse.unsafe_url_byte a = a /\
  Text.contains "#" a = false /\
  (Text.contains "?" s = false -> exists q, a = String "?" q).
Proof.
  intros (q & Hq & ->).
  assert (Hd : query_char (if Text.contains "?" s then "&" else "?")%char
               = true \/ Text.contains "?" s = false)
    by (destruct (Text.contains "?" s); auto).
  split; [|split].
  - rewrite remove_chars_append. f_equal.
    + now destruct (Text.contains "?" s).
    + apply remove_chars_none. revert Hq. apply forall_chars_weaken.
      intros c Hc. apply query_char_facts in Hc as (-> & _). reflexivity.
  - rewrite contains_append.
    replace (Text.contains "#" q) with false.
    + now destruct (Text.contains "?" s).
    + symmetry. revert Hq. apply contains_none. reflexivity.
  - intros ->. now exists q.
Qed.

Lemma netloc_of_appended r a :
  (Text.contains "?" r = false -> exists q, a = String "?" q) ->
  Text.take_until UrlParse.netloc_delim (r ++ a)
  = Text.take_until UrlParse.netloc_delim r /\
  Text.drop_until UrlParse.netloc_delim (r ++ a)
  = Text.drop_until UrlParse.netloc_delim r ++ a.
Proof.
  induction r as [|c r IH]; intros H.
  - destruct (H eq_refl) as (q & ->). now split.
  - cbn [append Text.take_until Text.drop_until].
    destruct (UrlParse.netloc_delim c) eqn:Hc; [now split|].
    destruct IH as [-> ->]; [|now split].
    intros Hr. apply H. simpl. rewrite Hr, orb_false_r.
    unfold UrlParse.netloc_delim in Hc.
    apply orb_false_elim in Hc as [Hc _].
    now apply orb_false_elim in Hc as [_ Hc].
Qed.

Lemma path_part_of_appended scheme u a :
  Text.contains "#" a = false ->
  (Text.contains "#" u = false -> Text.contains "?" u = false ->
   exists q, a = String "?" q) ->
  path_part scheme (u ++ a) = path_part scheme u.
Proof.
  intros Ha Hq. unfold path_part.
  rewrite contains_append, Ha, orb_false_r.
  destruct (Text.contains "#" u) eqn:Hh.
  - now rewrite before_append_has.
  - rewrite contains_append.
    destruct (Text.contains "?" u) eqn:Hu.
    + cbn [orb]. now rewrite before_append_has.
    + destruct (Hq eq_refl eq_refl) as (q & ->).
      cbn [Text.contains]. rewrite Ascii.eqb_refl, orb_true_r.
      now rewrite (before_append "?" u q Hu).
Qed.

Lemma cleaned_http x :
  cleaned ("http://" ++ x)
  = "http://" ++ Text.remove_chars UrlParse.unsafe_url_byte x.
Proof. reflexivity. Qed.

Lemma cleaned_https x :
  cleaned ("https://" ++ x)
  = "https://" ++ Text.remove_chars UrlParse.unsafe_url_byte x.
Proof. reflexivity. Qed.

(** the matched text does not change when a query is appended to the text
    after the scheme *)
Lemma domain_after_scheme lib scheme r a :
  (Text.contains "?" r = false -> exists q, a = String "?" q) ->
  Text.contains "#" a = false ->
  (let netloc := Text.take_until UrlParse.netloc_delim (r ++ a) in
   _ <- UrlParse.check_brackets lib netloc ;;
   _ <- UrlParse.checknetloc lib netloc ;;
   Ok (domain_of netloc
         (path_part scheme (Text.drop_until UrlParse.netloc_delim (r ++ a)))))
  =
  (let netloc := Text.take_until UrlParse.netloc_delim r in
   _ <- UrlParse.check_brackets lib netloc ;;
   _ <- UrlParse.checknetloc lib netloc ;;
   Ok (domain_of netloc
         (path_part scheme (Text.drop_until UrlParse.netloc_delim r)))).
Proof.
  intros Hq Ha. cbv zeta.
  destruct (@netloc_of_appended r a Hq) as [-> ->].
  rewrite path_part_of_appended; [reflexivity | assumption |].
  intros Hh Hu. apply Hq.
  rewrite <- (take_drop_id UrlParse.netloc_delim r), contains_append, Hu.
  rewrite take_until_free; reflexivity.
Qed.

Lemma extract_domain_appended lib target a :
  Text.startswith target "http://" = true \/
  Text.startswith target "https://" = true ->
  appended_to target a ->
  extract_domain lib (target ++ a) = extract_domain lib target.
Proof.
  intros Hs Ha.
  destruct (appended_clean Ha) as (Hrm & Hh & Hq).
  assert (Hq' : forall S r, target = S ++ r -> Text.contains "?" S = false ->
            Text.contains "?" (Text.remove_chars UrlParse.unsafe_url_byte r)
            = false -> exists q, a = String "?" q).
  { intros S r -> HS Hr. apply Hq.
    rewrite contains_append, HS.
    now rewrite contains_removed in Hr. }
  rewrite !extract_domain_steps.
  destruct Hs as [Hs | Hs]; apply prefix_split in Hs as (r & E);
    rewrite E, append_assoc.
  - rewrite !cleaned_http, remove_chars_append, Hrm, !split_scheme_http.
    unfold Text.startswith. rewrite !prefix_append.
    change (Text.drop 2 ("//" ++ ?x)) with x.
    apply domain_after_scheme; [|assumption].
    now apply (Hq' "http://" r).
  - rewrite !cleaned_https, remove_chars_append, Hrm, !split_scheme_https.
    unfold Text.startswith. rewrite !prefix_append.
    change (Text.drop 2 ("//" ++ ?x)) with x.
    apply domain_after_scheme; [|assumption].
    now apply (Hq' "https://" r).
Qed.

Lemma merge_appends target qp :
  qp <> [] -> exists a, merge_query target qp = target ++ a /\
                        appended_to target a.
Proof.
  destruct qp as [|kv qp]; [congruence|]. intros _.
  eexists. split; [reflexivity|].
  exists (UrlEncode.urlencode (kv :: qp)). split; [apply urlencode_query|].
  now destruct (Text.contains "?" target).
Qed.

(** X9.  The allowlist is asked about the target before the query is
    merged in, and the answer holds for the URL that is then called: the
    text matched for the URL of a call is the text matched for the target,
    and the URL itself passes the allowlist.  What the merge appends cannot
    move the authority. *)
Theorem called_url_is_allowed lib R rr rt req call :
  In call (snd (handler lib R rr rt req)) ->
  is_allowed lib R (c_url call) = Ok true /\
  exists endpoint target_url,
    endpoint_of req = Some endpoint /\
    target_of rt req endpoint = inl target_url /\
    is_allowed lib R target_url = Ok true /\
    extract_domain lib (c_url call) = extract_domain lib target_url.
Proof.
  intros Hin. apply calls_of_handler in Hin
    as (e & t & He & _ & Ht & Ha & -> & _).
  assert (E : extract_domain lib (c_url (call_of rt req t))
              = extract_domain lib t).
  { unfold call_of. cbn [c_url].
    destruct (query_params_of rt req) as [|kv qp] eqn:Eq; [reflexivity|].
    destruct (@merge_appends t (kv :: qp) ltac:(discriminate))
      as (a & -> & Hap).
    apply extract_domain_appended; [|assumption].
    now apply target_has_scheme in Ht. }
  split.
  - unfold is_allowed in *. now rewrite E.
  - now exists e, t.
Qed.

Lemma called_url_is_allowed_witness :
  is_allowed plain_library REGEX_PATTERNS
             "http://api.example.com/items?q=a+b&page=2"
  = Ok true.
Proof.
  exact (proj1 (@called_url_is_allowed plain_library REGEX_PATTERNS
                  answer_ok Generic override_request
                  (call_of Generic override_request
                           "http://api.example.com/items")
                  ltac:(vm_compute; left; reflexivity))).
Defined.

(** * Beyond the claims: error bodies read back *)

Lemma escape_char_printable c :
  Text.forall_chars (Text.in_range 32 126) (Json.escape_char c) = true.
Proof. destruct c as [[] [] [] [] [] [] [] []]; reflexivity. Qed.

Lemma escape_printable s :
  Text.forall_chars (Text.in_range 32 126) (Json.escape s) = true.
Proof.
  induction s as [|c s IH]; [reflexivity|].
  cbn [Json.escape]. now rewrite forall_chars_append, escape_char_printable.
Qed.

Lemma answer_without_call lib R rr rt req :
  snd (handler lib R rr rt req) = [] ->
  exists code msg, fst (handler lib R rr rt req) = error_response code msg.
Proof.
  rewrite handler_cases.
  destruct (endpoint_of req) as [[|a e]|]; try (intros _; eexists _, _;
                                                 reflexivity).
  destruct (target_of rt req (String a e)) as [t|response] eqn:Ht.
  - destruct (is_allowed lib R t) as [[|]|[m|m]]; try discriminate;
      intros _; destruct rt; eexists _, _; reflexivity.
  - intros _. destruct rt; [|discriminate].
    apply resolve_target_error in Ht as (msg & ->). now exists 400, msg.
Qed.

(** X10.  The body of an error response reads back to its message.  For
    every message, whatever quotes, backslashes or control characters it
    has, the body is the fixed opening, a string literal and the closing
    brace; the literal decodes to the message and the whole body is made
    of printable ASCII characters only.  Every answer that a handler gives
    without having made a call is such a body. *)
Theorem error_body_round_trip lib R rr rt req :
  (forall code msg,
     read_error_body (body (error_response code msg)) = Some msg /\
     Text.forall_chars (Text.in_range 32 126) (body (error_response code msg))
     = true) /\
  (snd (handler lib R rr rt req) = [] ->
   exists msg,
     read_error_body (body (fst (handler lib R rr rt req))) = Some msg).
Proof.
  pose proof read_error_response as H.
  split.
  - intros code msg. split; [apply H|].
    rewrite error_body_shape, !forall_chars_append, escape_printable.
    reflexivity.
  - intros Hc. apply answer_without_call in Hc as (code & msg & ->).
    now exists msg.
Qed.

(** * Beyond the claims: edges of the host extraction *)

Lemma glob_matches_nothing same p :
  glob_matches same p EmptyString <->
  Text.forall_chars (Ascii.eqb "*") p = true.
Proof.
  induction p as [|c p IH].
  - split; [reflexivity | constructor].
  - cbn [Text.forall_chars]. destruct (Ascii.eqb_spec "*" c) as [<-|Hc].
    + rewrite <- IH. split.
      * intros H. apply glob_star_inv in H as (run & rest & E & H).
        destruct run; [|discriminate]. simpl in E. now subst.
      * intros H. apply (@glob_star same p EmptyString EmptyString H).
    + split; [|discriminate]. intros H.
      apply glob_literal_inv in H as (? & ? & E & _); [discriminate|].
      congruence.
Qed.

Lemma splitparams_slash y :
  exists z, fst (UrlParse.splitparams (String "/" y)) = String "/" z.
Proof.
  unfold UrlParse.splitparams.
  replace (Text.contains "/" (String "/" y)) with true by reflexivity.
  cbn [UrlParse.rpartition].
  destruct (UrlParse.rpartition "/" y) as [h t].
  destruct (Text.contains "/" y).
  - destruct (Text.contains ";" t); eexists; reflexivity.
  - replace ("/" =? "/")%char with true by reflexivity.
    destruct (Text.contains ";" y); eexists; reflexivity.
Qed.

Lemma path_part_head scheme u :
  u = EmptyString \/ UrlParse.first_is UrlParse.netloc_delim u = true ->
  Text.before "/" (path_part scheme u) = EmptyString.
Proof.
  intros [-> | H].
  - unfold path_part. cbn. now rewrite andb_false_r.
  - destruct u as [|c x]; [discriminate|]. cbn [UrlParse.first_is] in H.
    unfold UrlParse.netloc_delim in H.
    apply orb_true_iff in H as [H | H];
      [apply orb_true_iff in H as [H | H]|];
      apply Ascii.eqb_eq in H; subst c; unfold path_part.
    + assert (E1 : exists y1,
                (if Text.contains "#" (String "/" x)
                 then Text.before "#" (String "/" x) else String "/" x)
                = String "/" y1)
        by (destruct (Text.contains "#" _); eexists; reflexivity).
      destruct E1 as (y1 & ->).
      assert (E2 : exists y2,
                (if Text.contains "?" (String "/" y1)
                 then Text.before "?" (String "/" y1) else String "/" y1)
                = String "/" y2)
        by (destruct (Text.contains "?" _); eexists; reflexivity).
      destruct E2 as (y2 & ->).
      destruct (_ && _); [|reflexivity].
      now destruct (splitparams_slash y2) as (z & ->).
    + assert (E1 : exists y1,
                (if Text.contains "#" (String "?" x)
                 then Text.before "#" (String "?" x) else String "?" x)
                = String "?" y1)
        by (destruct (Text.contains "#" _); eexists; reflexivity).
      destruct E1 as (y1 & ->).
      replace (Text.contains "?" (String "?" y1)) with true by reflexivity.
      cbn. now rewrite andb_false_r.
    + replace (Text.contains "#" (String "#" x)) with true by reflexivity.
      cbn. now rewrite andb_false_r.
Qed.

(** X11.  A text [scheme://] that goes on with nothing, a slash, a
    question mark or a hash has an empty authority, and the patterns are
    then tried on the empty text: it is allowed exactly when one of the
    patterns is made of stars only.  An endpoint that starts with a slash
    is such a text once [https://] is put in front. *)
Theorem empty_authority lib (P : list string) R scheme rest :
  scheme = "http" \/ scheme = "https" ->
  rest = EmptyString \/ UrlParse.first_is UrlParse.netloc_delim rest = true ->
  compile_patterns P = Some R ->
  extract_domain lib (scheme ++ "://" ++ rest) = Ok EmptyString /\
  (is_allowed lib R (scheme ++ "://" ++ rest) = Ok true <->
   exists p, In p P /\ Text.forall_chars (Ascii.eqb "*") p = true).
Proof.
  intros Hs Hr HR. apply compiled_is_glob in HR. subst R.
  assert (E : extract_domain lib (scheme ++ "://" ++ rest) = Ok EmptyString).
  { apply removed_rest in Hr.
    set (rest' := Text.remove_chars UrlParse.unsafe_url_byte rest) in *.
    rewrite extract_domain_steps.
    assert (Hclean : cleaned (scheme ++ "://" ++ rest)
                     = scheme ++ "://" ++ rest')
      by (destruct Hs as [-> | ->]; reflexivity).
    assert (Hsplit : UrlParse.split_scheme (scheme ++ "://" ++ rest')
                     = (scheme, "//" ++ rest'))
      by (destruct Hs as [-> | ->]; reflexivity).
    rewrite Hclean, Hsplit. unfold Text.startswith.
    rewrite prefix_append.
    change (Text.drop 2 ("//" ++ rest')) with (EmptyString ++ rest').
    destruct (@take_until_plain UrlParse.netloc_delim EmptyString rest'
                eq_refl Hr) as [-> ->].
    cbv zeta. cbn [UrlParse.check_brackets Text.contains andb orb negb bind].
    change (UrlParse.checknetloc lib EmptyString) with (Ok tt : result unit).
    cbn [bind]. unfold domain_of. cbn [String.length Nat.eqb].
    now rewrite path_part_head. }
  split; [exact E|].
  rewrite is_allowed_true. split.
  - intros (d & E' & p & Hp & H). rewrite E in E'. injection E' as <-.
    exists p. split; [assumption|].
    now apply (glob_matches_nothing (ignorecase_eq lib)).
  - intros (p & Hp & H). exists EmptyString. split; [assumption|].
    exists p. split; [assumption|].
    now apply (glob_matches_nothing (ignorecase_eq lib)).
Qed.

Lemma empty_authority_witness :
  extract_domain plain_library "https:///etc/hosts" = Ok EmptyString /\
  (is_allowed plain_library (map glob_regex ["localhost"; "*"])
              "https:///etc/hosts" = Ok true <->
   exists p, In p ["localhost"; "*"] /\
             Text.forall_chars (Ascii.eqb "*") p = true).
Proof.
  refine (@empty_authority plain_library ["localhost"; "*"] _ "https"
            "/etc/hosts" _ _ _).
  - right. reflexivity.
  - right. reflexivity.
  - apply compile_patterns_glob.
Defined.

Lemma cleaned_unsafe a c b :
  UrlParse.unsafe_url_byte c = true ->
  cleaned (a ++ String c b) = cleaned (a ++ b).
Proof.
  intros Hc. unfold cleaned. induction a as [|x a IH].
  - cbn [append Text.lstrip].
    replace (UrlParse.c0_control_or_space c) with true; [reflexivity|].
    unfold UrlParse.unsafe_url_byte in Hc.
    repeat (apply orb_true_iff in Hc as [Hc | Hc]);
      apply Ascii.eqb_eq in Hc; subst c; reflexivity.
  - cbn [append Text.lstrip].
    destruct (UrlParse.c0_control_or_space x); [exact IH|].
    change (String x (a ++ String c b)) with (String x a ++ String c b).
    change (String x (a ++ b)) with (String x a ++ b).
    rewrite !remove_chars_append. cbn [Text.remove_chars]. now rewrite Hc.
Qed.

Lemma cleaned_leading w u :
  Text.forall_chars UrlParse.c0_control_or_space w = true ->
  cleaned (w ++ u) = cleaned u.
Proof.
  unfold cleaned. induction w as [|x w IH]; [reflexivity|].
  cbn [Text.forall_chars append Text.lstrip]. intros H.
  apply andb_true_iff in H as [-> H]. auto.
Qed.

Lemma is_allowed_cleaned lib R u v :
  cleaned u = cleaned v -> is_allowed lib R u = is_allowed lib R v.
Proof.
  intros H. unfold is_allowed. now rewrite !extract_domain_steps, H.
Qed.

Lemma target_keeps_endpoint rt req endpoint target_url :
  target_of rt req endpoint = inl target_url ->
  exists front, target_url = front ++ endpoint.
Proof.
  intros Ht.
  destruct rt; unfold target_of, resolve_target, odata_target in Ht;
    destruct (_ || _).
  - injection Ht as <-. now exists EmptyString.
  - destruct (scheme_override_of req) as [[|a s]|].
    + injection Ht as <-. now exists "https://".
    + destruct (mem _ _); [|discriminate]. injection Ht as <-.
      exists (Text.lower (String a s) ++ "://"). now rewrite append_assoc.
    + injection Ht as <-. now exists "https://".
  - injection Ht as <-. now exists EmptyString.
  - injection Ht as <-. now exists "https://".
Qed.

Lemma merge_keeps_target target qp :
  exists back, merge_query target qp = target ++ back.
Proof.
  destruct qp as [|kv qp].
  - exists EmptyString. simpl. now rewrite append_nil_r.
  - eexists. reflexivity.
Qed.

(** X12.  The allowlist check does not see tabs and line breaks, nor
    leading control characters and spaces: a tab, carriage return or line
    feed anywhere in the text, and any run of characters up to the space
    at its start, leave the verdict as it is.  The URL that is called
    keeps them: it has the endpoint in it as the request gave it,
    character for character. *)
Theorem allowlist_ignores_line_breaks lib R a c b w :
  UrlParse.unsafe_url_byte c = true ->
  Text.forall_chars UrlParse.c0_control_or_space w = true ->
  is_allowed lib R (a ++ String c b) = is_allowed lib R (a ++ b) /\
  is_allowed lib R (w ++ a) = is_allowed lib R a /\
  (forall rr rt req call endpoint,
     In call (snd (handler lib R rr rt req)) ->
     endpoint_of req = Some endpoint ->
     exists front back, c_url call = front ++ endpoint ++ back).
Proof.
  intros Hc Hw. split; [|split].
  - apply is_allowed_cleaned. now apply cleaned_unsafe.
  - apply is_allowed_cleaned. now apply cleaned_leading.
  - intros rr rt req call endpoint Hin He.
    apply calls_of_handler in Hin as (e & t & He' & _ & Ht & _ & -> & _).
    rewrite He in He'. injection He' as <-.
    destruct (target_keeps_endpoint _ _ _ Ht) as (front & ->).
    unfold call_of. cbn [c_url].
    destruct (merge_keeps_target (front ++ endpoint) (query_params_of rt req))
      as (back & ->).
    exists front, back. now rewrite append_assoc.
Qed.

Lemma allowlist_ignores_line_breaks_witness :
  is_allowed plain_library (map glob_regex ["localhost"])
             ("https://local" ++ String Text.LF "host/admin")
  = Ok true.
Proof.
  rewrite (proj1 (@allowlist_ignores_line_breaks plain_library
                    (map glob_regex ["localhost"])
                    "https://local" Text.LF "host/admin" " "
                    eq_refl eq_refl)).
  reflexivity.
Defined.

(** an endpoint with a line feed in its host passes an allowlist of
    [localhost] alone, and the URL that is called has the line feed *)
Example line_break_example :
  map c_url (snd (proxy_function plain_library (map glob_regex ["localhost"])
                    answer_ok line_break_request))
  = ["https://local" ++ String Text.LF "host/admin"].
Proof. reflexivity. Qed.

(** * The allowlist matcher and the host it is tried on *)














(** a pattern with a small letter outside ASCII allows the host written
    with the capital one *)
Example latin1_case_example :
  is_allowed plain_library (map glob_regex [String "224" "b.com"])
             ("https://" ++ String "192" "B.com/x")
  = Ok true.
Proof. reflexivity. Qed.

(** the texts of the spec: a host behind a scheme with and without a port,
    and a host that stands first *)
Example extracted_hosts :
  map (extract_domain plain_library)
      ["https://api.example.com:8443/v1/items?x=1"; "http://localhost";
       "api.example.com/v1/items"; "HTTPS://API.Example.com/a;b/c"]
  = [Ok "api.example.com"; Ok "localhost"; Ok "api.example.com";
     Ok "API.Example.com"].
Proof. reflexivity. Qed.

(** * The setup script *)

Module SetupFacts.
Import Setup.

Lemma path_eqb_eq p : forall q, path_eqb p q = true <-> p = q.
Proof.
  induction p as [|a p IH]; intros [|b q]; simpl; try easy.
  rewrite andb_true_iff, String.eqb_eq, IH. split.
  - now intros [-> ->].
  - intros H. now injection H.
Qed.

Lemma path_eqb_refl p : path_eqb p p = true.
Proof. now apply path_eqb_eq. Qed.

Lemma path_eqb_neq p q : p <> q -> path_eqb p q = false.
Proof.
  intros H. destruct (path_eqb p q) eqn:E; [|reflexivity].
  apply path_eqb_eq in E. contradiction.
Qed.

Lemma put_same fs p n : put fs p n p = Some n.
Proof. unfold put. now rewrite path_eqb_refl. Qed.

Lemma put_other fs p n q : q <> p -> put fs p n q = fs q.
Proof. intros H. unfold put. now rewrite path_eqb_neq. Qed.

Lemma parent_div p x : parent (div p x) = p.
Proof. apply removelast_last. Qed.

Lemma name_div p x : name (div p x) = x.
Proof. apply last_last. Qed.

Lemma div_neq_self p x : div p x <> p.
Proof.
  unfold div. intros H. apply (f_equal (@List.length string)) in H.
  rewrite length_app in H. simpl in H. lia.
Qed.

Lemma div_inj p x y : div p x = div p y -> x = y.
Proof. unfold div. intros H. apply app_inv_head in H. now injection H. Qed.

(** The five paths of a project are distinct, and none is the root. *)
Lemma paths_distinct root :
  secrets_of root <> readme_of root /\ secrets_of root <> settings_of root /\
  secrets_of root <> runtime_of root /\
  secrets_of root <> nested_runtime_of root /\
  readme_of root <> settings_of root /\ readme_of root <> runtime_of root /\
  readme_of root <> nested_runtime_of root /\
  settings_of root <> runtime_of root /\
  settings_of root <> nested_runtime_of root /\
  runtime_of root <> nested_runtime_of root.
Proof.
  unfold readme_of, settings_of, nested_runtime_of, runtime_of, secrets_of, div.
  repeat split; intros H; rewrite <- ?app_assoc in H;
    apply app_inv_head in H; discriminate.
Qed.

Lemma create_done f p n f' :
  create f p n = Done f' ->
  f (parent p) = Some Dir /\ f' = put f p n.
Proof.
  unfold create. destruct (f (parent p)) as [[|t]|]; try discriminate.
  intros H. injection H as <-. now split.
Qed.

Lemma mkdir_done f p f' :
  mkdir_exist_ok f p = Done f' ->
  f' p = Some Dir /\ (forall q, q <> p -> f' q = f q) /\
  (f p = None \/ f p = Some Dir).
Proof.
  unfold mkdir_exist_ok. destruct (f p) as [[|t]|] eqn:E; try discriminate.
  - intros H. injection H as <-. auto.
  - intros H. apply create_done in H as [_ ->].
    split; [apply put_same|]. split; [|now left].
    intros q Hq. now apply put_other.
Qed.

Lemma write_done f p text f' :
  write f p text = Done f' ->
  f' p = Some (File text) /\ (forall q, q <> p -> f' q = f q) /\
  f (parent p) = Some Dir /\ f p <> Some Dir.
Proof.
  unfold write. intros H.
  assert (Hc : create f p (File text) = Done f' /\ f p <> Some Dir).
  { destruct (f p) as [[|t]|]; try discriminate; split;
      try assumption; discriminate. }
  destruct Hc as [Hc Hp]. apply create_done in Hc as [Hd ->].
  split; [apply put_same|]. split; [|now split].
  intros q Hq. now apply put_other.
Qed.

Lemma write_ok f p text :
  f (parent p) = Some Dir -> f p <> Some Dir ->
  write f p text = Done (put f p (File text)).
Proof.
  intros Hd Hp. unfold write, create. rewrite Hd.
  destruct (f p) as [[|t]|]; congruence.
Qed.

Lemma copy2_done f src dst f' :
  copy2 f src dst = Done f' ->
  exists text,
    f src = Some (File text) /\
    f' = put f (copy_target f src dst) (File text) /\
    f (parent (copy_target f src dst)) = Some Dir /\
    f (copy_target f src dst) <> Some Dir.
Proof.
  unfold copy2. fold (copy_target f src dst).
  destruct (f src) as [[|text]|]; try discriminate.
  intros H. exists text. split; [reflexivity|].
  pose proof (write_done _ _ _ H) as (_ & _ & Hd & Hp).
  rewrite (write_ok _ _ text Hd Hp) in H. injection H as <-. now repeat split.
Qed.

(** X13.  [copy_settings_for_runtime] never fails and never reads input.
    It writes at most one path: [local.settings.json] in the project
    root, or the file of that name inside it when that path is a
    directory.  Without settings in [.secrets] nothing changes at all.
    With a settings file there, a project root that is a directory and
    no directory at the path written, the copy has the text of the
    settings file afterwards. *)
Theorem copy_settings_frame root w :
  stdin (copy_settings_for_runtime (secrets_of root) w) = stdin w /\
  (forall p, p <> runtime_of root -> p <> nested_runtime_of root ->
             fs (copy_settings_for_runtime (secrets_of root) w) p = fs w p) /\
  (fs w (settings_of root) = None ->
   copy_settings_for_runtime (secrets_of root) w = w) /\
  (forall text,
     fs w (settings_of root) = Some (File text) ->
     fs w root = Some Dir ->
     fs w (copy_target (fs w) (settings_of root) (runtime_of root))
     <> Some Dir ->
     fs (copy_settings_for_runtime (secrets_of root) w)
        (copy_target (fs w) (settings_of root) (runtime_of root))
     = Some (File text)).
Proof.
  unfold copy_settings_for_runtime.
  replace (parent (secrets_of root)) with root
    by (symmetry; apply parent_div).
  fold (settings_of root). fold (runtime_of root).
  assert (Ht : copy_target (fs w) (settings_of root) (runtime_of root)
               = runtime_of root \/
               copy_target (fs w) (settings_of root) (runtime_of root)
               = nested_runtime_of root).
  { unfold copy_target. destruct (is_dir _ _); [right | now left].
    unfold settings_of. now rewrite name_div. }
  repeat split.
  - destruct (negb _); [reflexivity|]. now destruct (copy2 _ _ _).
  - intros p H1 H2. destruct (negb _); [reflexivity|].
    destruct (copy2 _ _ _) as [f'|e] eqn:E; [|reflexivity].
    apply copy2_done in E as (text & _ & -> & _). cbn [fs].
    apply put_other. destruct Ht as [-> | ->]; assumption.
  - intros Hn. unfold exists_. now rewrite Hn.
  - intros text Hs Hr Hd. unfold exists_. rewrite Hs. cbn [negb].
    assert (E : copy2 (fs w) (settings_of root) (runtime_of root)
                = Done (put (fs w)
                          (copy_target (fs w) (settings_of root)
                                       (runtime_of root))
                          (File text))).
    { unfold copy2. fold (copy_target (fs w) (settings_of root)
                                      (runtime_of root)).
      rewrite Hs. apply write_ok; [|assumption].
      unfold copy_target, is_dir.
      destruct (fs w (runtime_of root)) as [[|t]|] eqn:Ed.
      - unfold settings_of. rewrite name_div.
        now rewrite (parent_div (runtime_of root) LOCAL_SETTINGS).
      - unfold runtime_of. now rewrite parent_div.
      - unfold runtime_of. now rewrite parent_div. }
    rewrite E. cbn [fs]. apply put_same.
Qed.

(** X14.  The interactive set-up, in a [.secrets] that is a directory and
    with no directory where the settings go: with fewer than three lines
    of input it fails with [EOFError] before anything is written;
    otherwise it reads exactly three lines and writes the settings file,
    replacing one that is there.  The storage string is built from the
    first two answers only when both are non-empty once stripped, and is
    the placeholder otherwise (also when only one of them was given); the
    third answer, stripped, replaces the Application Insights placeholder
    when it is non-empty. *)
Theorem interactive_template secrets_dir w :
  fs w secrets_dir = Some Dir ->
  fs w (div secrets_dir LOCAL_SETTINGS) <> Some Dir ->
  match stdin w with
  | account :: key :: insights :: rest =>
      create_local_settings_template secrets_dir true w
      = Done (mkWorld (put (fs w) (div secrets_dir LOCAL_SETTINGS)
                           (File (answered_template account key insights)))
                      rest)
  | _ => create_local_settings_template secrets_dir true w = Failed EOFError
  end.
Proof.
  intros Hd Hs. unfold create_local_settings_template, input_stripped.
  rewrite andb_false_r.
  destruct (stdin w) as [|account [|key [|insights rest]]]; try reflexivity.
  cbn [stdin fs]. rewrite write_ok; try assumption.
  - reflexivity.
  - now rewrite parent_div.
Qed.

Lemma interactive_template_witness :
  create_local_settings_template (secrets_of project) true
    (mkWorld configured [" devstore "; "   "; EmptyString; "unread"])
  = Done (mkWorld (put configured (settings_of project)
                       (File (dump_template default_storage default_insights)))
                  ["unread"]).
Proof.
  refine (@interactive_template (secrets_of project)
            (mkWorld configured [" devstore "; "   "; EmptyString; "unread"])
            _ _).
  - reflexivity.
  - discriminate.
Defined.

Lemma create_secrets_folder_done root w sd w1 :
  create_secrets_folder root w = Done (sd, w1) ->
  sd = secrets_of root /\ stdin w1 = stdin w /\
  fs w1 (secrets_of root) = Some Dir /\
  fs w1 (readme_of root) = Some (File secrets_readme) /\
  (forall q, q <> secrets_of root -> q <> readme_of root ->
             fs w1 q = fs w q) /\
  (fs w (secrets_of root) = None \/ fs w (secrets_of root) = Some Dir) /\
  fs w (readme_of root) <> Some Dir.
Proof.
  unfold create_secrets_folder. fold (secrets_of root).
  fold (readme_of root).
  destruct (mkdir_exist_ok (fs w) (secrets_of root)) as [f1|e] eqn:E1;
    [|discriminate].
  destruct (write f1 (readme_of root) secrets_readme) as [f2|e] eqn:E2;
    [|discriminate].
  intros H. injection H as <- <-. cbn [fs stdin].
  apply mkdir_done in E1 as (H1 & H2 & H3).
  apply write_done in E2 as (H4 & H5 & _ & H6).
  destruct (paths_distinct root) as (Hsr & _).
  repeat split; try assumption.
  - rewrite H5 by assumption. exact H1.
  - intros q Hq1 Hq2. rewrite H5 by assumption. now apply H2.
  - rewrite <- H2; [assumption|]. congruence.
Qed.

Lemma template_done sd interactive w w2 :
  create_local_settings_template sd interactive w = Done w2 ->
  (forall q, q <> div sd LOCAL_SETTINGS -> fs w2 q = fs w q) /\
  fs w2 (div sd LOCAL_SETTINGS) <> None /\
  (interactive = false ->
   stdin w2 = stdin w /\
   forall n, fs w (div sd LOCAL_SETTINGS) = Some n ->
             fs w2 (div sd LOCAL_SETTINGS) = Some n).
Proof.
  unfold create_local_settings_template.
  destruct (exists_ (fs w) (div sd LOCAL_SETTINGS) && negb interactive)
    eqn:Hskip.
  - intros H. injection H as <-. apply andb_true_iff in Hskip as [He _].
    unfold exists_ in He. repeat split; try reflexivity.
    + destruct (fs w (div sd LOCAL_SETTINGS)); [discriminate | discriminate].
    + auto.
  - destruct interactive.
    + unfold input_stripped.
      destruct (stdin w) as [|a [|k [|i rest]]]; try discriminate.
      cbn [fs stdin].
      destruct (write _ _ _) as [f'|e] eqn:E; [|discriminate].
      intros H. injection H as <-. cbn [fs].
      apply write_done in E as (H1 & H2 & _).
      repeat split; [exact H2 | congruence | discriminate | discriminate].
    + cbn [negb] in Hskip. rewrite andb_true_r in Hskip.
      destruct (write _ _ _) as [f'|e] eqn:E; [|discriminate].
      intros H. injection H as <-. cbn [fs stdin].
      apply write_done in E as (H1 & H2 & _).
      repeat split; [exact H2 | congruence | ].
      intros n Hn. unfold exists_ in Hskip. rewrite Hn in Hskip.
      discriminate.
Qed.

Lemma copy_done root w :
  stdin (copy_settings_for_runtime (secrets_of root) w) = stdin w /\
  (forall p, p <> runtime_of root -> p <> nested_runtime_of root ->
             fs (copy_settings_for_runtime (secrets_of root) w) p = fs w p) /\
  (forall p, fs w p <> None ->
             fs (copy_settings_for_runtime (secrets_of root) w) p <> None).
Proof.
  destruct (copy_settings_frame root w) as (H1 & H2 & _).
  split; [exact H1|]. split; [exact H2|].
  intros p Hp. unfold copy_settings_for_runtime.
  destruct (negb _); [assumption|].
  destruct (copy2 _ _ _) as [f'|e] eqn:E; [|assumption].
  apply copy2_done in E as (text & _ & -> & _). cbn [fs]. unfold put.
  destruct (path_eqb p _); [discriminate | assumption].
Qed.

(** the run of [main], step by step *)
Lemma main_done root a w w' checks :
  main root a w = Done (w', checks) ->
  exists w1 w2,
    create_secrets_folder root w = Done (secrets_of root, w1) /\
    (if negb (validate a)
     then create_local_settings_template (secrets_of root) (interactive a) w1
     else Done w1) = Done w2 /\
    w' = (if copy_settings a || interactive a
          then copy_settings_for_runtime (secrets_of root) w2 else w2) /\
    checks = validate_setup (secrets_of root) w'.
Proof.
  unfold main.
  destruct (create_secrets_folder root w) as [[sd w1]|e] eqn:E1;
    [|discriminate].
  pose proof (create_secrets_folder_done _ _ E1) as (-> & _).
  destruct (if negb (validate a) then _ else _) as [w2|e] eqn:E2;
    [|discriminate].
  intros H. injection H as <- <-. now exists w1, w2.
Qed.

(** X15.  A run of [main] that is not interactive never changes a
    [.secrets/local.settings.json] that is there, and reads no input; a
    run with [--validate] leaves that path as it is in every mode,
    whether there is a file or not. *)
Theorem settings_file_survives root a w w' checks :
  main root a w = Done (w', checks) ->
  (validate a = true ->
   fs w' (settings_of root) = fs w (settings_of root)) /\
  (interactive a = false ->
   stdin w' = stdin w /\
   forall n, fs w (settings_of root) = Some n ->
             fs w' (settings_of root) = Some n).
Proof.
  intros H. apply main_done in H as (w1 & w2 & E1 & E2 & -> & _).
  apply create_secrets_folder_done in E1 as (_ & Hin & _ & _ & Hf1 & _).
  destruct (paths_distinct root)
    as (_ & Hs & _ & _ & Hr & _ & _ & Hsr & Hsn & _).
  assert (H1 : fs w1 (settings_of root) = fs w (settings_of root))
    by (apply Hf1; congruence).
  assert (H3 : forall w3,
            fs (if copy_settings a || interactive a
                then copy_settings_for_runtime (secrets_of root) w3 else w3)
               (settings_of root) = fs w3 (settings_of root)).
  { intros w3. destruct (_ || _); [|reflexivity].
    now apply copy_done. }
  assert (H4 : forall w3,
            stdin (if copy_settings a || interactive a
                   then copy_settings_for_runtime (secrets_of root) w3
                   else w3) = stdin w3).
  { intros w3. destruct (_ || _); [|reflexivity]. now apply copy_done. }
  split.
  - intros Hv. rewrite Hv in E2. injection E2 as <-. now rewrite H3.
  - intros Hi. rewrite H3, H4. destruct (negb (validate a)).
    + apply template_done in E2 as (_ & _ & Ht).
      destruct (Ht Hi) as [Hst Hkeep].
      split; [congruence|]. intros n Hn. apply Hkeep.
      fold (settings_of root). congruence.
    + injection E2 as <-. split; [assumption | congruence].
Qed.

Lemma settings_file_survives_witness :
  exists w' checks,
    main project (mkArgs false true false) (mkWorld configured [])
    = Done (w', checks) /\
    fs w' (settings_of project) = Some (File "my settings") /\
    fs w' (runtime_of project) = Some (File "my settings").
Proof.
  eexists _, _. split; [reflexivity|]. split; [|reflexivity].
  refine (proj2 (proj2 (@settings_file_survives project
                          (mkArgs false true false)
                          (mkWorld configured []) _ _ eq_refl) eq_refl)
                (File "my settings") eq_refl).
Defined.

(** X16.  After a run of [main] that did not fail: [.secrets] is a
    directory; its README has the text of the script, whatever it held
    before; unless [--validate] was given the settings file exists; no
    path that existed is gone; and only five paths can differ from
    before: [.secrets], its README, its settings, the settings in the
    project root and the file of that name inside them.  Without
    [--copy-settings] and [--interactive] the last two are untouched.
    The checks reported are those of the final state. *)
Theorem main_postconditions root a w w' checks :
  main root a w = Done (w', checks) ->
  fs w' (secrets_of root) = Some Dir /\
  fs w' (readme_of root) = Some (File secrets_readme) /\
  (validate a = false -> fs w' (settings_of root) <> None) /\
  (forall p, fs w p <> None -> fs w' p <> None) /\
  (forall p, p <> secrets_of root -> p <> readme_of root ->
             p <> settings_of root ->
             (copy_settings a || interactive a = true ->
              p <> runtime_of root /\ p <> nested_runtime_of root) ->
             fs w' p = fs w p) /\
  checks = validate_setup (secrets_of root) w'.
Proof.
  intros H. apply main_done in H as (w1 & w2 & E1 & E2 & Hw' & Hc).
  apply create_secrets_folder_done in E1
    as (_ & _ & Hd & Hr & Hf1 & Hs0 & _).
  destruct (paths_distinct root)
    as (Hsr & Hss & Hsu & Hsn & Hrs & Hru & Hrn & Hsru & Hsrn & _).
  assert (H2 : (forall q, q <> settings_of root -> fs w2 q = fs w1 q) /\
               (validate a = false -> fs w2 (settings_of root) <> None) /\
               (forall q, fs w1 q <> None -> fs w2 q <> None)).
  { destruct (validate a); cbn [negb] in E2.
    - injection E2 as <-. repeat split; auto. discriminate.
    - apply template_done in E2 as (Hf2 & Hex & _).
      fold (settings_of root) in Hf2, Hex. repeat split; auto.
      intros q Hq. destruct (path_eqb q (settings_of root)) eqn:Eq.
      + apply path_eqb_eq in Eq. now subst q.
      + rewrite Hf2; [assumption|]. intros ->.
        now rewrite path_eqb_refl in Eq. }
  destruct H2 as (Hf2 & Hex & Hm2).
  assert (H3 : (forall q, (copy_settings a || interactive a = true ->
                           q <> runtime_of root /\
                           q <> nested_runtime_of root) ->
                          fs w' q = fs w2 q) /\
               (forall q, fs w2 q <> None -> fs w' q <> None)).
  { subst w'. destruct (copy_settings a || interactive a).
    - destruct (copy_done root w2) as (_ & Hf3 & Hm3). split; [|exact Hm3].
      intros q Hq. destruct (Hq eq_refl). now apply Hf3.
    - now split. }
  destruct H3 as (Hf3 & Hm3).
  assert (Hm1 : forall q, fs w q <> None -> fs w1 q <> None).
  { intros q Hq. destruct (path_eqb q (secrets_of root)) eqn:E1.
    - apply path_eqb_eq in E1. subst q. congruence.
    - destruct (path_eqb q (readme_of root)) eqn:E2'.
      + apply path_eqb_eq in E2'. subst q. congruence.
      + rewrite Hf1; [assumption | |]; intros ->;
          now rewrite path_eqb_refl in *. }
  repeat split.
  - rewrite Hf3, Hf2, Hd; [reflexivity | congruence |].
    intros _. split; congruence.
  - rewrite Hf3, Hf2, Hr; [reflexivity | congruence |].
    intros _. split; congruence.
  - intros Hv. apply Hm3. auto.
  - intros p Hp. auto.
  - intros p P1 P2 P3 P4. rewrite Hf3, Hf2, Hf1; auto.
  - exact Hc.
Qed.

Lemma main_postconditions_witness :
  exists w' checks,
    main project (mkArgs false false false) (mkWorld fresh [])
    = Done (w', checks) /\
    fs w' (readme_of project) = Some (File secrets_readme) /\
    map fst checks = [true; true; true; false].
Proof.
  eexists _, _. split; [reflexivity|].
  destruct (@main_postconditions project (mkArgs false false false)
              (mkWorld fresh []) _ _ eq_refl) as (_ & H & _).
  split; [exact H | reflexivity].
Defined.

Lemma alike_refl w : alike w w.
Proof. now split. Qed.

Lemma alike_trans u v w : alike u v -> alike v w -> alike u w.
Proof.
  intros [H1 H2] [H3 H4]. split; [congruence|].
  intros p. now rewrite H2.
Qed.

Lemma put_alike f g p n :
  (forall q, f q = g q) -> forall q, put f p n q = put g p n q.
Proof. intros H q. unfold put. now rewrite H. Qed.

Lemma put_again f p n : f p = Some n -> forall q, put f p n q = f q.
Proof.
  intros H q. unfold put. destruct (path_eqb q p) eqn:E; [|reflexivity].
  apply path_eqb_eq in E. now subst q.
Qed.

Lemma copy_alike sd u v :
  alike u v ->
  alike (copy_settings_for_runtime sd u) (copy_settings_for_runtime sd v).
Proof.
  intros [Hs Hf].
  unfold copy_settings_for_runtime, exists_, copy2, is_dir, write, create.
  rewrite <- !Hf.
  destruct (fs u (div sd LOCAL_SETTINGS)) as [[|text]|]; cbn [negb];
    try (now split).
  destruct (fs u (div (parent sd) LOCAL_SETTINGS)) as [[|t]|];
    rewrite <- ?Hf;
    repeat match goal with
           | |- context [match fs u ?p with _ => _ end] =>
               destruct (fs u p) as [[|?]|]
           end;
    try (now split);
    (split; [exact Hs | cbn [fs]; now apply put_alike]).
Qed.

Lemma copy_cases root v :
  copy_settings_for_runtime (secrets_of root) v = v \/
  exists text,
    fs v (settings_of root) = Some (File text) /\
    fs v (parent (copy_target (fs v) (settings_of root) (runtime_of root)))
    = Some Dir /\
    fs v (copy_target (fs v) (settings_of root) (runtime_of root))
    <> Some Dir /\
    copy_settings_for_runtime (secrets_of root) v
    = mkWorld (put (fs v)
                   (copy_target (fs v) (settings_of root) (runtime_of root))
                   (File text))
              (stdin v).
Proof.
  unfold copy_settings_for_runtime.
  replace (parent (secrets_of root)) with root
    by (symmetry; apply parent_div).
  fold (settings_of root). fold (runtime_of root).
  destruct (negb (exists_ (fs v) (settings_of root))); [now left|].
  destruct (copy2 (fs v) (settings_of root) (runtime_of root))
    as [f'|e] eqn:E; [|now left].
  apply copy2_done in E as (text & Hsrc & -> & Hpar & Hnd).
  right. now exists text.
Qed.

Lemma copy_again root v :
  alike (copy_settings_for_runtime (secrets_of root)
           (copy_settings_for_runtime (secrets_of root) v))
        (copy_settings_for_runtime (secrets_of root) v).
Proof.
  destruct (paths_distinct root)
    as (_ & _ & _ & _ & _ & _ & _ & Hsru & Hsrn & Hun).
  destruct (copy_cases root v) as [E | (text & Hsrc & Hpar & Hnd & E)];
    rewrite E.
  - rewrite E. apply alike_refl.
  - set (tgt := copy_target (fs v) (settings_of root) (runtime_of root)) in *.
    assert (Ht : tgt = runtime_of root /\ is_dir (fs v) (runtime_of root)
                                          = false \/
                 tgt = nested_runtime_of root /\
                 is_dir (fs v) (runtime_of root) = true).
    { unfold tgt, copy_target.
      destruct (is_dir (fs v) (runtime_of root)); [right | now left].
      unfold settings_of. now rewrite name_div. }
    assert (Hst : settings_of root <> tgt)
      by (destruct Ht as [[-> _] | [-> _]]; assumption).
    assert (Hpt : parent tgt <> tgt).
    { destruct Ht as [[-> _] | [-> _]]; unfold nested_runtime_of, runtime_of;
        rewrite parent_div; intros H; symmetry in H;
        now apply div_neq_self in H. }
    set (f' := put (fs v) tgt (File text)).
    assert (Htgt' : copy_target f' (settings_of root) (runtime_of root) = tgt).
    { unfold copy_target, is_dir, f'.
      destruct Ht as [[Et Hd] | [Et Hd]].
      - rewrite <- Et at 1. rewrite put_same. now rewrite Et.
      - rewrite put_other by (rewrite Et; congruence).
        unfold is_dir in Hd. destruct (fs v (runtime_of root)) as [[|t]|];
          try discriminate.
        unfold settings_of. rewrite name_div. now rewrite Et. }
    assert (Hsrc' : f' (settings_of root) = Some (File text))
      by (unfold f'; now rewrite put_other).
    unfold copy_settings_for_runtime.
    replace (parent (secrets_of root)) with root
      by (symmetry; apply parent_div).
    fold (settings_of root). fold (runtime_of root). cbn [fs stdin].
    unfold exists_. rewrite Hsrc'. cbn [negb].
    unfold copy2. fold (copy_target f' (settings_of root) (runtime_of root)).
    rewrite Htgt', Hsrc'.
    rewrite write_ok.
    + split; [reflexivity|]. cbn [fs]. apply put_again.
      unfold f'. apply put_same.
    + unfold f'. now rewrite put_other.
    + unfold f'. rewrite put_same. discriminate.
Qed.

Lemma validate_alike sd u v :
  alike u v -> validate_setup sd u = validate_setup sd v.
Proof.
  intros [_ Hf]. unfold validate_setup, exists_. now rewrite !Hf.
Qed.

(** X17.  A run of [main] that is not interactive can be repeated: run
    again on the state it left, with the same options, it succeeds,
    reports the same checks and leaves every path and the input as they
    are. *)
Theorem main_repeatable root a w w1 checks :
  interactive a = false ->
  main root a w = Done (w1, checks) ->
  exists w2, main root a w1 = Done (w2, checks) /\ alike w2 w1.
Proof.
  intros Hi H.
  pose proof (main_postconditions _ _ _ H) as (Hd & Hr & Hex & _ & _ & Hc).
  apply main_done in H as (wa & wb & _ & _ & Hw1 & _).
  set (wa' := mkWorld (put (fs w1) (readme_of root) (File secrets_readme))
                      (stdin w1)).
  assert (Ha : alike wa' w1).
  { split; [reflexivity|]. cbn [fs]. now apply put_again. }
  assert (E1 : create_secrets_folder root w1 = Done (secrets_of root, wa')).
  { unfold create_secrets_folder. fold (secrets_of root).
    fold (readme_of root). unfold mkdir_exist_ok. rewrite Hd.
    rewrite write_ok; [reflexivity | |].
    - unfold readme_of. now rewrite parent_div.
    - rewrite Hr. discriminate. }
  assert (E2 : (if negb (validate a)
                then create_local_settings_template (secrets_of root)
                       (interactive a) wa'
                else Done wa') = Done wa').
  { destruct (validate a) eqn:Hv; [reflexivity|]. cbn [negb].
    unfold create_local_settings_template. rewrite Hi.
    fold (settings_of root). unfold exists_.
    destruct Ha as [_ Hf]. rewrite Hf.
    specialize (Hex eq_refl).
    now destruct (fs w1 (settings_of root)). }
  assert (Hfin : alike (if copy_settings a || interactive a
                        then copy_settings_for_runtime (secrets_of root) wa'
                        else wa') w1).
  { destruct (copy_settings a || interactive a) eqn:Hflag; [|exact Ha].
    eapply alike_trans; [apply copy_alike; exact Ha|].
    rewrite Hw1. apply copy_again. }
  unfold main. rewrite E1, E2.
  eexists. split; [|exact Hfin].
  f_equal. f_equal. rewrite Hc. now apply validate_alike.
Qed.

Lemma main_repeatable_witness :
  exists w1 checks w2,
    main project (mkArgs false true false) (mkWorld fresh [])
    = Done (w1, checks) /\
    main project (mkArgs false true false) w1 = Done (w2, checks) /\
    alike w2 w1.
Proof.
  eexists _, _.
  destruct (@main_repeatable project (mkArgs false true false)
              (mkWorld fresh []) _ _ eq_refl eq_refl) as (w2 & H1 & H2).
  exists w2. split; [reflexivity|]. now split.
Defined.

End SetupFacts.
